(** * defect-collector: collection, extraction and storage pipeline

    A shallow embedding of the Python sources

    - [preprocessing/clean.py]      (TextNormalizer, final pass)
    - [nlp/extractor_rules.py]      (RuleExtractor)
    - [nlp/extractor_llm.py]        (LLMExtractor)
    - [storage/mysql_client.py]     (StorageGateway)
    - [collectors/*.py]             (PlatformCollector, three variants)
    - [pipeline/pipeline_runner.py] (ExtractionMerger and PipelineRunner)
    - [main.py]                     (the HTTP endpoint)

  together with the properties the specification states about them.

  Conventions.  A Python [str] is a Rocq [string]; a character stands for
  the code point with the same number, so the texts covered are those whose
  code points lie below 256.  The character classes below are the ones
  CPython uses for these code points.  Python exceptions are values of
  [exn], and a call that may raise returns a [result]. *)

From Stdlib Require Import List Bool Arith ZArith Lia.
From Stdlib Require Import Ascii String.
From Stdlib Require Import DecimalString.
Import ListNotations.

Set Warnings "-register-all".
Open Scope string_scope.
Open Scope list_scope.

(* ================================================================= *)
(** ** Characters and text primitives *)

Module Text.

Definition code (c : ascii) : N := N_of_ascii c.

Definition in_range (lo hi : N) (c : ascii) : bool :=
  (N.leb lo (code c) && N.leb (code c) hi)%bool.

(** [str.isspace] and the regular-expression class [\s]. *)
Definition is_space (c : ascii) : bool :=
  in_range 9 13 c || in_range 28 32 c
  || N.eqb (code c) 133 || N.eqb (code c) 160.

(** The regular-expression class [\d]. *)
Definition is_digit (c : ascii) : bool := in_range 48 57 c.

(** [str.isalnum]. *)
Definition is_alnum (c : ascii) : bool :=
  in_range 48 57 c || in_range 65 90 c || in_range 97 122 c
  || N.eqb (code c) 170 || in_range 178 179 c || N.eqb (code c) 181
  || in_range 185 186 c || in_range 188 190 c
  || in_range 192 214 c || in_range 216 246 c || in_range 248 255 c.

(** The regular-expression class [\w]: alphanumeric or underscore. *)
Definition is_word (c : ascii) : bool :=
  is_alnum c || N.eqb (code c) 95.

(** The class [[^\w\s]]. *)
Definition is_sym (c : ascii) : bool :=
  negb (is_word c) && negb (is_space c).

(** The class [[.,!?;:，。！？；：]] of [normalize_text]; its full-width
    members lie above code point 255. *)
Definition is_punct (c : ascii) : bool :=
  N.eqb (code c) 46 || N.eqb (code c) 44 || N.eqb (code c) 33
  || N.eqb (code c) 63 || N.eqb (code c) 59 || N.eqb (code c) 58.

(** The line boundaries of [str.splitlines]. *)
Definition is_linebreak (c : ascii) : bool :=
  in_range 10 13 c || in_range 28 30 c || N.eqb (code c) 133.

(** [str.isprintable] on one character. *)
Definition is_printable (c : ascii) : bool :=
  negb (in_range 0 31 c || in_range 127 160 c || N.eqb (code c) 173).

(** [str.lower] on one character. *)
Definition to_lower (c : ascii) : ascii :=
  if in_range 65 90 c || in_range 192 214 c || in_range 216 222 c
  then ascii_of_N (code c + 32) else c.

Definition LF : ascii := ascii_of_N 10.
Definition CR : ascii := ascii_of_N 13.
Definition SP : ascii := ascii_of_N 32.

Definition chars (s : string) : list ascii := list_ascii_of_string s.
Definition text (l : list ascii) : string := string_of_list_ascii l.

Fixpoint drop_while (p : ascii -> bool) (l : list ascii) : list ascii :=
  match l with
  | [] => []
  | c :: r => if p c then drop_while p r else l
  end.

Fixpoint take_while (p : ascii -> bool) (l : list ascii) : list ascii :=
  match l with
  | [] => []
  | c :: r => if p c then c :: take_while p r else []
  end.

(** [s.strip()] *)
Definition strip_chars (l : list ascii) : list ascii :=
  rev (drop_while is_space (rev (drop_while is_space l))).

Definition strip (s : string) : string := text (strip_chars (chars s)).

(** [s[:n]] *)
Definition slice_to (n : nat) (s : string) : string :=
  text (firstn n (chars s)).

(** [s.lower()] *)
Definition lower (s : string) : string := text (map to_lower (chars s)).

(** [sep.join(parts)] *)
Fixpoint join (sep : string) (parts : list string) : string :=
  match parts with
  | [] => ""
  | [p] => p
  | p :: rest => p ++ sep ++ join sep rest
  end.

(** [s.splitlines()]: the text is cut at every line boundary, a carriage
    return directly followed by a line feed counts as one boundary, and a
    boundary that ends the text opens no further line. *)
Fixpoint splitlines_from (cur : list ascii) (l : list ascii)
  : list (list ascii) :=
  match l with
  | [] => match cur with [] => [] | _ => [rev cur] end
  | c :: r =>
      if is_linebreak c then
        match r with
        | d :: r' =>
            if (N.eqb (code c) 13 && N.eqb (code d) 10)%bool
            then rev cur :: splitlines_from [] r'
            else rev cur :: splitlines_from [] r
        | [] => [rev cur]
        end
      else splitlines_from (c :: cur) r
  end.

Definition splitlines (s : string) : list string :=
  map text (splitlines_from [] (chars s)).

End Text.

(* ================================================================= *)
(** ** TextNormalizer: [normalize_text] of preprocessing/clean.py *)

Module Clean.
Import Text.

(** [re.sub(r"([.,!?;:，。！？；：]){2,}", r"\1", text)]: every maximal run
    of two or more class characters is replaced by the text of the group's
    last iteration, the last character of the run.  So a class character
    goes exactly when another class character follows it. *)
Fixpoint collapse_punct (l : list ascii) : list ascii :=
  match l with
  | [] => []
  | c :: r =>
      if is_punct c then
        match r with
        | d :: _ => if is_punct d then collapse_punct r
                    else c :: collapse_punct r
        | [] => [c]
        end
      else c :: collapse_punct r
  end.

(** The second alternative of the edge pattern, [[^\w\s]+$]: without the
    MULTILINE flag [$] matches at the very end and also just before a line
    feed that ends the text. *)
Definition trim_trailing_sym (l : list ascii) : list ascii :=
  match rev l with
  | [] => []
  | c :: body =>
      if N.eqb (code c) 10
      then rev (c :: drop_while is_sym body)
      else rev (drop_while is_sym (c :: body))
  end.

(** [re.sub(r"^[^\w\s]+|[^\w\s]+$", "", text)]: the first alternative
    takes the run of class characters that starts the text, the second one
    the run that ends what is left. *)
Definition trim_edges (l : list ascii) : list ascii :=
  trim_trailing_sym (drop_while is_sym l).

(** [re.sub(r"\s+", " ", text)]: every maximal run of white space becomes
    one blank.  A white-space character followed by white space goes, the
    last one of a run becomes the blank. *)
Fixpoint collapse_ws (l : list ascii) : list ascii :=
  match l with
  | [] => []
  | c :: r =>
      if is_space c then
        match r with
        | d :: _ => if is_space d then collapse_ws r
                    else SP :: collapse_ws r
        | [] => [SP]
        end
      else c :: collapse_ws r
  end.

Definition normalize_chars (l : list ascii) : list ascii :=
  strip_chars (collapse_ws (trim_edges (collapse_punct (map to_lower l)))).

Definition normalize_text (s : string) : string :=
  match s with
  | EmptyString => ""
  | _ => text (normalize_chars (chars s))
  end.

End Clean.

(* ================================================================= *)
(** ** Python values, dictionaries and exceptions *)

Module Py.
Import Text.

(** The values that travel through the pipeline: JSON data and [None].
    A [dict] is kept as the list of its items in insertion order; its keys
    are strings. *)
Inductive pyval : Type :=
| PNone
| PBool (b : bool)
| PInt (z : Z)
| PStr (s : string)
| PList (l : list pyval)
| PDict (d : list (string * pyval)).

Definition dict : Type := list (string * pyval).

(** Truth value of an object, as [if x], [not x] and [x or y] test it. *)
Definition truthy (v : pyval) : bool :=
  match v with
  | PNone => false
  | PBool b => b
  | PInt z => negb (Z.eqb z 0)
  | PStr s => match s with EmptyString => false | _ => true end
  | PList l => match l with [] => false | _ => true end
  | PDict d => match d with [] => false | _ => true end
  end.

(** [x or y] *)
Definition py_or (x y : pyval) : pyval := if truthy x then x else y.

Definition is_list (v : pyval) : bool :=
  match v with PList _ => true | _ => false end.

Definition is_str (v : pyval) : bool :=
  match v with PStr _ => true | _ => false end.

Fixpoint lookup (d : dict) (k : string) : option pyval :=
  match d with
  | [] => None
  | (k', v) :: r => if String.eqb k' k then Some v else lookup r k
  end.

(** [k in d] *)
Definition has_key (d : dict) (k : string) : bool :=
  match lookup d k with Some _ => true | None => false end.

(** [d.get(k, default)] *)
Definition get_or (d : dict) (k : string) (default : pyval) : pyval :=
  match lookup d k with Some v => v | None => default end.

(** [d.get(k)] *)
Definition get (d : dict) (k : string) : pyval := get_or d k PNone.

(** [d[k] = v]: an existing key keeps its place, a new key goes last. *)
Fixpoint set (d : dict) (k : string) (v : pyval) : dict :=
  match d with
  | [] => [(k, v)]
  | (k', v') :: r =>
      if String.eqb k' k then (k', v) :: r else (k', v') :: set r k v
  end.

Definition keys (d : dict) : list string := map fst d.

(** Equality of values, used where the store compares key columns. *)
Fixpoint eqb (x y : pyval) : bool :=
  let fix eqb_list (l m : list pyval) : bool :=
    match l, m with
    | [], [] => true
    | a :: l', b :: m' => eqb a b && eqb_list l' m'
    | _, _ => false
    end in
  let fix eqb_items (l m : list (string * pyval)) : bool :=
    match l, m with
    | [], [] => true
    | (k, a) :: l', (k', b) :: m' =>
        String.eqb k k' && eqb a b && eqb_items l' m'
    | _, _ => false
    end in
  match x, y with
  | PNone, PNone => true
  | PBool a, PBool b => Bool.eqb a b
  | PInt a, PInt b => Z.eqb a b
  | PStr a, PStr b => String.eqb a b
  | PList l, PList m => eqb_list l m
  | PDict l, PDict m => eqb_items l m
  | _, _ => false
  end.

(** *** [repr] and [str] *)

Definition hex_digit (n : N) : ascii :=
  if N.ltb n 10 then ascii_of_N (48 + n) else ascii_of_N (87 + n).

Definition backslash : ascii := ascii_of_N 92.
Definition quote1 : ascii := ascii_of_N 39.
Definition quote2 : ascii := ascii_of_N 34.

(** One character inside the quotes of [repr(s)]. *)
Definition repr_char (q : ascii) (c : ascii) : list ascii :=
  if (Ascii.eqb c q || Ascii.eqb c backslash)%bool then [backslash; c]
  else if N.eqb (code c) 9 then [backslash; "t"%char]
  else if N.eqb (code c) 10 then [backslash; "n"%char]
  else if N.eqb (code c) 13 then [backslash; "r"%char]
  else if is_printable c then [c]
  else [backslash; "x"%char;
        hex_digit (N.div (code c) 16); hex_digit (N.modulo (code c) 16)].

(** [repr(s)] for a string: double quotes when the text holds a single
    quote and no double quote, single quotes otherwise. *)
Definition repr_str (s : string) : string :=
  let l := chars s in
  let q := if (existsb (Ascii.eqb quote1) l
               && negb (existsb (Ascii.eqb quote2) l))%bool
           then quote2 else quote1 in
  text (q :: flat_map (repr_char q) l ++ [q])%list.

Definition str_of_Z (z : Z) : string := NilZero.string_of_int (Z.to_int z).

Fixpoint repr (v : pyval) : string :=
  match v with
  | PNone => "None"
  | PBool true => "True"
  | PBool false => "False"
  | PInt z => str_of_Z z
  | PStr s => repr_str s
  | PList l => ("[" ++ join ", " (map repr l) ++ "]")%string
  | PDict d =>
      ("{" ++ join ", "
                (map (fun kv : string * pyval =>
                        let (k, x) := kv in
                        repr_str k ++ ": " ++ repr x) d) ++ "}")%string
  end.

(** [str(v)] *)
Definition str (v : pyval) : string :=
  match v with
  | PStr s => s
  | _ => repr v
  end.

(** *** Exceptions *)

Inductive exn : Type :=
| ValueError
| TypeError
| KeyError
| IndexError
| AttributeError
| UnboundLocalError
| RuntimeError
| TimeoutError
| RequestException
| HTTPError (status : Z)
| JSONDecodeError.

Inductive result (A : Type) : Type :=
| Ok (a : A)
| Raise (e : exn).

Arguments Ok {A} a.
Arguments Raise {A} e.

Definition bind {A B : Type} (c : result A) (k : A -> result B) : result B :=
  match c with
  | Ok a => k a
  | Raise e => Raise e
  end.

End Py.

Notation "x <- c ;; k" := (Py.bind c (fun x => k))
  (at level 61, c at next level, right associativity).

(* ================================================================= *)
(** ** RuleExtractor: nlp/extractor_rules.py *)

Module Rules.
Import Text.

Definition is_dot (c : ascii) : bool := N.eqb (code c) 46.

(** The pattern letter [v] under [re.I]. *)
Definition is_v (c : ascii) : bool :=
  N.eqb (code c) 118 || N.eqb (code c) 86.

(** The greedy iterations of [(\.\d+)*]: each one is a dot followed by a
    maximal run of digits.  Returns the iterations and the rest of the
    text. *)
Fixpoint dot_groups (fuel : nat) (l : list ascii)
  : list (list ascii) * list ascii :=
  match fuel with
  | O => ([], l)
  | S f =>
      match l with
      | c :: r =>
          if is_dot c then
            match take_while is_digit r with
            | [] => ([], l)
            | ds =>
                let (gs, rest) := dot_groups f (drop_while is_digit r) in
                ((c :: ds) :: gs, rest)
            end
          else ([], l)
      | [] => ([], l)
      end
  end.

(** [\b] after a match that ends in a digit: the next character is not a
    word character, or the text ends. *)
Definition boundary_after (rest : list ascii) : bool :=
  match rest with
  | [] => true
  | c :: _ => negb (is_word c)
  end.

(** A match of the pattern [VERSION_REGEX], a word boundary, an optional
    [v], digits, a dot, digits, any number of groups of a dot and digits and
    a word boundary, that starts here, [prev] being the character before.  Every digit run is taken whole; when the closing
    [\b] fails after the last iteration of the group, the matcher gives that
    iteration back and stops in front of its dot. *)
Definition match_version_at (prev : option ascii) (l : list ascii)
  : option (list ascii) :=
  let before_ok := match prev with
                   | Some p => negb (is_word p)
                   | None => true
                   end in
  let v := match l with
           | c :: _ => if is_v c then [c] else []
           | [] => []
           end in
  let l0 := skipn (List.length v) l in
  let d1 := take_while is_digit l0 in
  match d1, drop_while is_digit l0 with
  | _ :: _, dot :: l1 =>
      if (before_ok && is_dot dot)%bool then
        match take_while is_digit l1 with
        | [] => None
        | d2 =>
            let l2 := drop_while is_digit l1 in
            let (gs, rest) := dot_groups (List.length l2) l2 in
            if boundary_after rest
            then Some (v ++ d1 ++ dot :: d2 ++ List.concat gs)%list
            else match gs with
                 | [] => None
                 | _ =>
                     Some (v ++ d1 ++ dot :: d2 ++ List.concat (removelast gs))%list
                 end
        end
      else None
  | _, _ => None
  end.

(** [VERSION_REGEX.search]: the leftmost position with a match. *)
Fixpoint search_version (prev : option ascii) (l : list ascii)
  : option (list ascii) :=
  match match_version_at prev l with
  | Some m => Some m
  | None =>
      match l with
      | [] => None
      | c :: r => search_version (Some c) r
      end
  end.

Definition extract_version (s : string) : option string :=
  option_map text (search_version None (chars s)).

(** [re.split(r"\n{2,}", text)]: the text is cut at every run of two or
    more line feeds; [in_run] tells that such a run is being skipped. *)
Fixpoint split_paragraphs (cur : list ascii) (in_run : bool)
  (l : list ascii) : list (list ascii) :=
  match l with
  | [] => [rev cur]
  | c :: r =>
      if N.eqb (code c) 10 then
        if in_run then split_paragraphs cur true r
        else match r with
             | d :: _ =>
                 if N.eqb (code d) 10
                 then rev cur :: split_paragraphs [] true r
                 else split_paragraphs (c :: cur) false r
             | [] => split_paragraphs (c :: cur) false r
             end
      else split_paragraphs (c :: cur) false r
  end.

Fixpoint prefix_ci (pat l : list ascii) : bool :=
  match pat, l with
  | [], _ => true
  | p :: pat', c :: l' =>
      Ascii.eqb (to_lower p) (to_lower c) && prefix_ci pat' l'
  | _ :: _, [] => false
  end.

(** [re.search(pat, p, re.I)] for a pattern made of plain characters. *)
Fixpoint contains_ci (pat l : list ascii) : bool :=
  prefix_ci pat l ||
  match l with
  | [] => false
  | _ :: r => contains_ci pat r
  end.

Definition has_heading (p : list ascii) : bool :=
  contains_ci (chars "Steps to Reproduce") p
  || contains_ci (chars "Reproduc") p
  || contains_ci (chars "How to reproduce") p.

(** [l.strip("-. \t")] *)
Definition is_bullet (c : ascii) : bool :=
  N.eqb (code c) 45 || N.eqb (code c) 46
  || N.eqb (code c) 32 || N.eqb (code c) 9.

Definition strip_bullets (s : string) : string :=
  text (rev (drop_while is_bullet (rev (drop_while is_bullet (chars s))))).

Definition nonblank (s : string) : bool :=
  match strip s with EmptyString => false | _ => true end.

Fixpoint first_heading (parts : list (list ascii)) : list string :=
  match parts with
  | [] => []
  | p :: rest =>
      if has_heading p
      then map strip_bullets (filter nonblank (splitlines (text p)))
      else first_heading rest
  end.

Definition extract_steps_by_heading (s : string) : list string :=
  first_heading (split_paragraphs [] false (chars s)).

End Rules.

(* ================================================================= *)
(** ** LLMExtractor: nlp/extractor_llm.py *)

Module LLM.
Import Text Py.

(** Modelled from the spec: nlp/schema.py, the file that defines
    [DEFAULT_SCHEMA], is not among the sources.  The specification fixes the
    six keys of the schema and the type of each value, a sequence of strings
    for [steps_to_reproduce] and a string for the other five; the default
    values themselves are left open here. *)
Record schema_defaults : Type := {
  d_title : string;
  d_description : string;
  d_version : string;
  d_severity : string;
  d_steps : list string;
  d_stack_trace : string
}.

Definition DEFAULT_SCHEMA (D : schema_defaults) : dict :=
  [ ("title", PStr (d_title D));
    ("description", PStr (d_description D));
    ("version", PStr (d_version D));
    ("severity", PStr (d_severity D));
    ("steps_to_reproduce", PList (map PStr (d_steps D)));
    ("stack_trace", PStr (d_stack_trace D)) ].

Definition SCHEMA_KEYS : list string :=
  ["title"; "description"; "version"; "severity"; "steps_to_reproduce";
   "stack_trace"].

(** The remote model and the JSON library.  [post lang text n] is the
    outcome of the [n]-th request for [text]: the content of the first
    choice of the answer, or the exception the request, the status check or
    the reading of the answer raises.  [json_loads] is [json.loads], [None]
    standing for [json.JSONDecodeError]. *)
Record model : Type := {
  post : string -> string -> nat -> result string;
  json_loads : string -> option pyval
}.

(** The character range [4e00-9fff] of [detect_language]. *)
Definition is_cjk (c : ascii) : bool := in_range 19968 40959 c.

Definition detect_language (s : string) : string :=
  if (negb (truthy (PStr s)) || negb (truthy (PStr (strip s))))%bool
  then "zh"
  else
    let chinese := List.length (filter is_cjk (chars s)) in
    let total := List.length (filter (fun c => negb (is_space c)) (chars s)) in
    if Nat.eqb total 0 then "zh"
    else if Nat.ltb total (5 * chinese) then "zh" else "en".

(** One step of the loop of [validate_extraction]. *)
Definition validate_key (res : dict) (validated : dict) (key : string)
  : dict :=
  let validated := set validated key (get_or res key (get validated key)) in
  let validated :=
    if (is_list (get validated key) && negb (is_list (get res key)))%bool
    then set validated key
           (if truthy (get res key)
            then PList [PStr (str (get res key))]
            else PList [])
    else validated in
  match get validated key with
  | PStr s => set validated key (PStr (strip (slice_to 5000 s)))
  | _ => validated
  end.

(** [result.get] needs a [dict]; any other JSON value has no such
    attribute. *)
Definition validate_extraction (D : schema_defaults) (res : pyval)
  : result dict :=
  match res with
  | PDict r =>
      let schema := DEFAULT_SCHEMA D in
      Ok (fold_left (validate_key r) (keys schema) schema)
  | _ => Raise AttributeError
  end.

(** The exceptions the retry policy of [call_llm] retries on. *)
Definition retryable (e : exn) : bool :=
  match e with
  | RequestException | HTTPError _ | JSONDecodeError | TimeoutError => true
  | _ => false
  end.

Definition attempt (M : model) (s : string) (n : nat) : result string :=
  content <- post M (detect_language s) s n ;;
  Ok (strip content).

(** [retries] further attempts are allowed after attempt number [n]; the
    last exception is raised again when they are used up. *)
Fixpoint with_retry (M : model) (s : string) (retries n : nat)
  : result string :=
  match attempt M s n with
  | Ok content => Ok content
  | Raise e =>
      match retries with
      | S r => if retryable e then with_retry M s r (S n) else Raise e
      | O => Raise e
      end
  end.

(** [stop_after_attempt(3)] *)
Definition call_llm (M : model) (s : string) : result string :=
  with_retry M s 2 1.

Definition loads (M : model) (s : string) : result pyval :=
  match json_loads M s with
  | Some v => Ok v
  | None => Raise JSONDecodeError
  end.

Definition nonblank (s : string) : bool := truthy (PStr (strip s)).

(** The handler of [json.JSONDecodeError]. *)
Definition fallback (D : schema_defaults) (s : string) : dict :=
  let res := DEFAULT_SCHEMA D in
  let lines := map strip (filter nonblank (splitlines s)) in
  match lines with
  | [] => res
  | first :: rest =>
      set (set res "title" (PStr (slice_to 200 first)))
          "description" (PStr (join " " (firstn 4 rest)))
  end.

(** The body of the [try] block. *)
Definition extract_body (D : schema_defaults) (M : model) (s : string)
  (validate : bool) : result pyval :=
  llm_response <- call_llm M s ;;
  extracted <- loads M llm_response ;;
  if validate
  then validated <- validate_extraction D extracted ;; Ok (PDict validated)
  else Ok extracted.

Definition llm_extract (D : schema_defaults) (M : model) (s : string)
  (validate : bool) : result pyval :=
  if (negb (truthy (PStr s)) || negb (truthy (PStr (strip s))))%bool
  then Ok (PDict (DEFAULT_SCHEMA D))
  else
    match extract_body D M s validate with
    | Ok extracted => Ok extracted
    | Raise JSONDecodeError => Ok (PDict (fallback D s))
    | Raise _ => Ok (PDict (DEFAULT_SCHEMA D))
    end.

End LLM.

(* ================================================================= *)
(** ** StorageGateway: storage/mysql_client.py *)

Module Storage.
Import Py.

(** A row of [standardized_defect], in the column order of the INSERT
    statement of [insert_one]. *)
Record row : Type := {
  repo_id : pyval;
  issue_id : pyval;
  title : pyval;
  description : pyval;
  version : pyval;
  steps_to_reproduce : pyval;
  severity : pyval;
  stack_trace : pyval;
  url : pyval;
  created_at : pyval;
  record_at : Z
}.

(** Modelled from the spec: the database and the declarations of its two
    tables are outside the sources.  [token_config] lists platform, token
    and the active flag; [standardized_defect] holds the rows with their
    generated identifiers, unique over (repo_id, issue_id);
    [auto_increment] is the next identifier; [up] tells whether the server
    answers; [now] is the reading of its clock that [datetime.now()]
    gives. *)
Record server : Type := {
  up : bool;
  token_config : list (string * string * bool);
  standardized_defect : list (Z * row);
  auto_increment : Z;
  now : Z
}.

(** [self.connection]: not yet made, open, or closed. *)
Inductive connection : Type :=
| NoConnection
| Open
| Closed.

(** What a returning call of [insert_one] gave back, with the key it was
    called for.  The log is kept for stating properties only; no operation
    reads it. *)
Inductive event : Type :=
| Inserted (repo issue : pyval) (generated : option Z).

Record world : Type := {
  srv : server;
  conn : connection;
  log : list event
}.

Definition with_conn (w : world) (c : connection) : world :=
  {| srv := srv w; conn := c; log := log w |}.

(** [_get_connection]: connects when there is no open connection. *)
Definition get_connection (w : world) : result unit * world :=
  match conn w with
  | Open => (Ok tt, w)
  | _ => if up (srv w) then (Ok tt, with_conn w Open)
         else (Raise RuntimeError, w)
  end.

Fixpoint active_token (rows : list (string * string * bool))
  (platform : string) : option string :=
  match rows with
  | [] => None
  | (p, t, active) :: r =>
      if (String.eqb p platform && active)%bool then Some t
      else active_token r platform
  end.

Definition get_token (w : world) (platform : string)
  : result (option string) * world :=
  match get_connection w with
  | (Raise e, w1) => (Raise e, w1)
  | (Ok _, w1) =>
      if up (srv w1)
      then (Ok (active_token (token_config (srv w1)) platform), w1)
      else (Raise RuntimeError, w1)
  end.

(** Whether [cursor.execute] can run a statement with this parameter value.
    The driver writes [None], a truth value, a number and a text as one
    literal each.  It has no converter for a [dict] and raises.  A [list] it
    writes as the parenthesised sequence of the literals of its members,
    which the server takes for one value only when the list has exactly one
    member. *)
Fixpoint bindable (v : pyval) : bool :=
  match v with
  | PNone | PBool _ | PInt _ | PStr _ => true
  | PList l =>
      match l with
      | [x] => bindable x
      | _ => false
      end
  | PDict _ => false
  end.

Definition same_key (repo issue : pyval) (r : Z * row) : bool :=
  (eqb (repo_id (snd r)) repo && eqb (issue_id (snd r)) issue)%bool.

(** A row with this composite key is stored. *)
Definition stored (s : server) (repo issue : pyval) : bool :=
  existsb (same_key repo issue) (standardized_defect s).

(** [is_duplicate]: a query that fails, on the server or because a key
    cannot be written as a parameter, is answered with [RuntimeError]. *)
Definition is_duplicate (w : world) (repo issue : pyval)
  : result bool * world :=
  if negb (truthy repo && truthy issue)%bool then (Ok false, w)
  else
    match get_connection w with
    | (Raise e, w1) => (Raise e, w1)
    | (Ok _, w1) =>
        if (up (srv w1) && bindable repo && bindable issue)%bool
        then (Ok (stored (srv w1) repo issue), w1)
        else (Raise RuntimeError, w1)
    end.

(** The tuple [params] of [insert_one]. *)
Definition params (clock : Z) (doc : dict) : row :=
  {| repo_id := get doc "repo_id";
     issue_id := get doc "issue_id";
     title := get doc "title";
     description := py_or (get doc "description") (PStr "");
     version := py_or (get doc "version") (PStr "");
     steps_to_reproduce :=
       py_or (PStr (str (get doc "steps_to_reproduce"))) (PStr "");
     severity := py_or (get doc "severity") (PStr "Unknown");
     stack_trace := py_or (get doc "stack_trace") (PStr "");
     url := py_or (get doc "url") (PStr "");
     created_at := get doc "created_at";
     record_at := clock |}.

(** The parameter values of the INSERT statement, [record_at] apart, which
    is a [datetime]. *)
Definition row_values (r : row) : list pyval :=
  [ repo_id r; issue_id r; title r; description r; version r;
    steps_to_reproduce r; severity r; stack_trace r; url r; created_at r ].

Definition bindable_row (r : row) : bool := forallb bindable (row_values r).

(** INSERT IGNORE: nothing is written when the key is stored already;
    otherwise the row is added under the next identifier.  Gives the new
    state, [rowcount] and [lastrowid]. *)
Definition insert_ignore (s : server) (r : row) : server * Z * Z :=
  if stored s (repo_id r) (issue_id r) then (s, 0%Z, 0%Z)
  else
    ({| up := up s;
        token_config := token_config s;
        standardized_defect :=
          standardized_defect s ++ [(auto_increment s, r)];
        auto_increment := (auto_increment s + 1)%Z;
        now := now s |},
     1%Z, auto_increment s).

(** [insert_one].  When the connection cannot be made, [conn] is not yet
    bound where the handlers test it.  In every other case the connection
    is closed on the way out.  A statement that cannot be run, on the
    server or because a value of the record cannot be written as a
    parameter, is rolled back and answered with [RuntimeError]. *)
Definition insert_one (w : world) (doc : dict) : result (option Z) * world :=
  let repo := get doc "repo_id" in
  let issue := get doc "issue_id" in
  if (negb (truthy repo) || negb (truthy issue))%bool
  then (Raise ValueError, w)
  else
    let p := params (now (srv w)) doc in
    match get_connection w with
    | (Raise _, w1) => (Raise UnboundLocalError, w1)
    | (Ok _, w1) =>
        if (up (srv w1) && bindable_row p)%bool then
          let '(s', rowcount, lastrowid) := insert_ignore (srv w1) p in
          let generated :=
            if Z.ltb 0 rowcount then Some lastrowid else None in
          (Ok generated,
           {| srv := s'; conn := Closed;
              log := Inserted repo issue generated :: log w1 |})
        else (Raise RuntimeError, with_conn w1 Closed)
    end.

End Storage.

(* ================================================================= *)
(** ** PlatformCollector: collectors/*.py *)

Module Collect.
Import Text Py.

(** A [datetime]: a point in time, in seconds, and whether the value
    carries a time zone.  Ordering a value with a zone against one without
    raises [TypeError]. *)
Record datetime : Type := {
  aware : bool;
  instant : Z
}.

Definition utc (z : Z) : datetime := {| aware := true; instant := z |}.

(** [a < b] *)
Definition dt_lt (a b : datetime) : result bool :=
  if Bool.eqb (aware a) (aware b) then Ok (Z.ltb (instant a) (instant b))
  else Raise TypeError.

Inductive platform : Type :=
| GitHub
| Gitee
| GitLab.

(** A GET request, kept as the data it is built from.  [rq_since] and
    [rq_until] are the query parameters [since] of the GitHub variant and
    [created_after], [created_before] of the GitLab variant. *)
Record request : Type := {
  rq_platform : platform;
  rq_owner : string;
  rq_repo : string;
  rq_project : string;
  rq_state : string;
  rq_per_page : Z;
  rq_page : option nat;
  rq_since : option string;
  rq_until : option string
}.

Inductive response : Type :=
| HttpNoAnswer
| HttpFailure
| HttpJson (items : list dict).

(** The issue tracker and the date library.  [http_get] gives the decoded
    answer; [HttpFailure] when an answer came and its status check or its
    decoding raises; [HttpNoAnswer] when the request itself raises, so that
    there is no answer.  All three are [RequestException]s to the handlers.
    [strptime_date s] is the instant of
    [datetime.strptime(s, "%Y-%m-%d").replace(tzinfo=timezone.utc)] and
    [fromisoformat] is [datetime.fromisoformat]; [None] stands for
    [ValueError].  [isoformat] prints an instant of UTC. *)
Record api : Type := {
  http_get : request -> response;
  strptime_date : string -> option Z;
  fromisoformat : string -> option datetime;
  isoformat : Z -> string
}.

Fixpoint starts_with (pat l : list ascii) : bool :=
  match pat, l with
  | [], _ => true
  | p :: pat', c :: l' => (Ascii.eqb p c && starts_with pat' l')%bool
  | _ :: _, [] => false
  end.

(** [skip] counts the characters of an occurrence still to be passed. *)
Fixpoint replace_chars (old new : list ascii) (skip : nat) (l : list ascii)
  : list ascii :=
  match l with
  | [] => []
  | c :: r =>
      match skip with
      | S k => replace_chars old new k r
      | O =>
          if starts_with old l
          then (new ++ replace_chars old new (List.length old - 1) r)%list
          else c :: replace_chars old new 0 r
      end
  end.

(** [s.replace(old, new)] for a non-empty [old]. *)
Definition replace (old new s : string) : string :=
  text (replace_chars (chars old) (chars new) 0 (chars s)).

(** An optional text argument that passes the test [if arg:]. *)
Definition supplied (arg : option string) : option string :=
  match arg with
  | Some s => if truthy (PStr s) then Some s else None
  | None => None
  end.

(** [datetime.fromisoformat(item["created_at"].replace("Z", "+00:00"))] *)
Definition parse_created (A : api) (v : option pyval) : result datetime :=
  match v with
  | None => Raise KeyError
  | Some (PStr s) =>
      match fromisoformat A (replace "Z" "+00:00" s) with
      | Some d => Ok d
      | None => Raise ValueError
      end
  | Some _ => Raise AttributeError
  end.

Definition created_of (A : api) (item : dict) : result datetime :=
  parse_created A (lookup item "created_at").

(** A bound of the time window as the Gitee variant reads it: a calendar
    date at midnight UTC, or else an ISO timestamp. *)
Definition parse_bound (A : api) (s : string) : result datetime :=
  match strptime_date A s with
  | Some z => Ok (utc z)
  | None =>
      match fromisoformat A (replace "Z" "+00:00" s) with
      | Some d => Ok d
      | None => Raise ValueError
      end
  end.

(** The upper bound as the GitHub and GitLab variants read it: a calendar
    date only. *)
Definition parse_date_only (A : api) (s : string) : result datetime :=
  match strptime_date A s with
  | Some z => Ok (utc z)
  | None => Raise ValueError
  end.

(** *** GithubCollector *)

Record collector : Type := {
  owner : string;
  repo : string;
  project_id : string
}.

Definition configured (c : collector) : bool :=
  (truthy (PStr (owner c)) && truthy (PStr (repo c)))%bool.

Definition github_since (A : api) (s : string) : string :=
  match strptime_date A s with
  | Some z => isoformat A z
  | None => s
  end.

Definition github_request (A : api) (c : collector) (state : string)
  (per_page : Z) (since : option string) : request :=
  {| rq_platform := GitHub;
     rq_owner := owner c; rq_repo := repo c; rq_project := "";
     rq_state := state; rq_per_page := per_page;
     rq_page := None;
     rq_since := option_map (github_since A) (supplied since);
     rq_until := None |}.

Definition github_issue (item : dict) : dict :=
  [ ("platform", PStr "github");
    ("issue_id", get item "number");
    ("title", get item "title");
    ("body", py_or (get item "body") (PStr ""));
    ("created_at", get item "created_at");
    ("url", get item "html_url") ].

(** The body of the loop over the items of the answer. *)
Definition github_item (A : api) (until : option string)
  (issues : list dict) (item : dict) : result (list dict) :=
  if has_key item "pull_request" then Ok issues
  else
    issue_created_at <- created_of A item ;;
    later <- match supplied until with
             | Some u =>
                 until_dt <- parse_date_only A u ;;
                 dt_lt until_dt issue_created_at
             | None => Ok false
             end ;;
    if later then Ok issues
    else Ok (issues ++ [github_issue item])%list.

Fixpoint for_items (body : list dict -> dict -> result (list dict))
  (issues : list dict) (items : list dict) : result (list dict) :=
  match items with
  | [] => Ok issues
  | item :: rest =>
      issues' <- body issues item ;;
      for_items body issues' rest
  end.

Definition github_fetch_recent (A : api) (c : collector) (state : string)
  (per_page : Z) (since until : option string) : result (list dict) :=
  if negb (configured c) then Raise ValueError
  else
    match http_get A (github_request A c state per_page since) with
    | HttpNoAnswer | HttpFailure => Raise RuntimeError
    | HttpJson issues_list => for_items (github_item A until) [] issues_list
    end.

(** *** GiteeCollector *)

Definition gitee_request (c : collector) (state : string) (per_page : Z)
  (page : nat) : request :=
  {| rq_platform := Gitee;
     rq_owner := owner c; rq_repo := repo c; rq_project := "";
     rq_state := state; rq_per_page := per_page;
     rq_page := Some page;
     rq_since := None;
     rq_until := None |}.

Definition gitee_issue (item : dict) : dict :=
  [ ("platform", PStr "gitee");
    ("issue_id", get item "number");
    ("title", get item "title");
    ("body", py_or (get item "body") (PStr ""));
    ("created_at", get item "created_at");
    ("updated_at", get item "updated_at");
    ("state", get item "state");
    ("url", get item "html_url") ].

Definition gitee_item (A : api) (since until : option string)
  (all_issues : list dict) (item : dict) : result (list dict) :=
  if has_key item "pull_request" then Ok all_issues
  else
    issue_created_at <- created_of A item ;;
    early <- match supplied since with
             | Some s =>
                 since_dt <- parse_bound A s ;;
                 dt_lt issue_created_at since_dt
             | None => Ok false
             end ;;
    if early then Ok all_issues
    else
      later <- match supplied until with
               | Some u =>
                   until_dt <- parse_bound A u ;;
                   dt_lt until_dt issue_created_at
               | None => Ok false
               end ;;
      if later then Ok all_issues
      else Ok (all_issues ++ [gitee_issue item])%list.

(** The [while True] loop; [None] when [fuel] requests did not reach an
    empty page. *)
Fixpoint gitee_pages (fuel : nat) (A : api) (c : collector) (state : string)
  (per_page : Z) (since until : option string) (page : nat)
  (all_issues : list dict) : option (result (list dict)) :=
  match fuel with
  | O => None
  | S f =>
      match http_get A (gitee_request c state per_page page) with
      | HttpNoAnswer | HttpFailure => Some (Raise RuntimeError)
      | HttpJson [] => Some (Ok all_issues)
      | HttpJson issues_list =>
          match for_items (gitee_item A since until) all_issues issues_list
          with
          | Raise e => Some (Raise e)
          | Ok all_issues' =>
              gitee_pages f A c state per_page since until (S page)
                all_issues'
          end
      end
  end.

Definition gitee_fetch_recent (fuel : nat) (A : api) (c : collector)
  (state : string) (per_page : Z) (since until : option string)
  : option (result (list dict)) :=
  if negb (configured c) then Some (Raise ValueError)
  else gitee_pages fuel A c state per_page since until 1 [].

(** *** GitLabCollector *)

Definition gitlab_configured (c : collector) : bool :=
  (configured c || truthy (PStr (project_id c)))%bool.

Definition gitlab_after (A : api) (s : string) : string :=
  match strptime_date A s with
  | Some z => replace "+00:00" "Z" (isoformat A z)
  | None => replace "+00:00" "Z" s
  end.

Definition gitlab_before (A : api) (s : string) : result string :=
  match strptime_date A s with
  | Some z => Ok (replace "+00:00" "Z" (isoformat A z))
  | None => Raise ValueError
  end.

Definition gitlab_request (c : collector) (state : string) (per_page : Z)
  (created_after created_before : option string) (page : nat) : request :=
  {| rq_platform := GitLab;
     rq_owner := owner c; rq_repo := repo c; rq_project := project_id c;
     rq_state := state; rq_per_page := Z.min per_page 100;
     rq_page := Some page;
     rq_since := created_after;
     rq_until := created_before |}.

Definition gitlab_issue (c : collector) (item : dict) : dict :=
  [ ("platform", PStr "gitlab");
    ("issue_id", get item "iid");
    ("global_id", get item "id");
    ("title", get item "title");
    ("body", py_or (get item "description") (PStr ""));
    ("created_at", get item "created_at");
    ("updated_at", get item "updated_at");
    ("state", get item "state");
    ("url", get item "web_url");
    ("owner", PStr (owner c));
    ("repo", PStr (repo c)) ].

Definition gitlab_item (A : api) (c : collector) (all_issues : list dict)
  (item : dict) : result (list dict) :=
  issue_created_at <- created_of A item ;;
  Ok (all_issues ++ [gitlab_issue c item])%list.

(** The [while True] loop.  Its handler puts [r.url] into the message of
    the [RuntimeError]: when the first request raises, [r] is not bound
    yet; on a later page [r] is the answer to the page before. *)
Fixpoint gitlab_pages (fuel : nat) (A : api) (c : collector) (state : string)
  (per_page : Z) (created_after created_before : option string)
  (page : nat) (all_issues : list dict) : option (result (list dict)) :=
  match fuel with
  | O => None
  | S f =>
      match http_get A (gitlab_request c state per_page created_after
                          created_before page) with
      | HttpNoAnswer =>
          if Nat.eqb page 1 then Some (Raise UnboundLocalError)
          else Some (Raise RuntimeError)
      | HttpFailure => Some (Raise RuntimeError)
      | HttpJson [] => Some (Ok all_issues)
      | HttpJson page_issues =>
          match for_items (gitlab_item A c) all_issues page_issues with
          | Raise e => Some (Raise e)
          | Ok all_issues' =>
              gitlab_pages f A c state per_page created_after created_before
                (S page) all_issues'
          end
      end
  end.

Definition gitlab_fetch_recent (fuel : nat) (A : api) (c : collector)
  (state : string) (per_page : Z) (since until : option string)
  : option (result (list dict)) :=
  if negb (gitlab_configured c) then Some (Raise ValueError)
  else
    let created_after := option_map (gitlab_after A) (supplied since) in
    match supplied until with
    | Some u =>
        match gitlab_before A u with
        | Raise e => Some (Raise e)
        | Ok b =>
            gitlab_pages fuel A c state per_page created_after (Some b) 1 []
        end
    | None => gitlab_pages fuel A c state per_page created_after None 1 []
    end.

End Collect.

(* ================================================================= *)
(** ** ExtractionMerger and PipelineRunner: pipeline/pipeline_runner.py *)

Module Pipeline.
Import Text Py.

(** What the pipeline works against: the default schema, the model, the
    issue trackers, and the two cleaning stages that rest on BeautifulSoup
    and on [unicodedata], taken as functions on texts. *)
Record env : Type := {
  defaults : LLM.schema_defaults;
  llm : LLM.model;
  tracker : Collect.api;
  strip_html_markdown : string -> string;
  remove_noise : string -> string
}.

Definition as_str (v : pyval) : result string :=
  match v with
  | PStr s => Ok s
  | _ => Raise TypeError
  end.

Definition as_dict (v : pyval) : result dict :=
  match v with
  | PDict d => Ok d
  | _ => Raise AttributeError
  end.

(** The value of an [Optional[str]]. *)
Definition optional (v : option string) : pyval :=
  match v with
  | Some s => PStr s
  | None => PNone
  end.

(** The dictionary [doc] that [process_issue] builds. *)
Definition merge (issue : dict) (cleaned : string) (version : option string)
  (steps : list string) (llm_res : dict) : dict :=
  [ ("platform", get issue "platform");
    ("repo_id", PStr "");
    ("issue_id", get issue "issue_id");
    ("title", py_or (get llm_res "title") (get issue "title"));
    ("description",
      py_or (get llm_res "description") (PStr (slice_to 2000 cleaned)));
    ("version", py_or (get llm_res "version") (optional version));
    ("steps_to_reproduce",
      py_or (get llm_res "steps_to_reproduce") (PList (map PStr steps)));
    ("severity", py_or (get llm_res "severity") (PStr "UnKnow"));
    ("stack_trace", py_or (get llm_res "stack_trace") (PStr ""));
    ("url", get issue "url");
    ("created_at", get issue "created_at") ].

Definition clean (E : env) (raw : string) : string :=
  Clean.normalize_text (remove_noise E (strip_html_markdown E raw)).

Definition process_issue (E : env) (issue : dict) : result dict :=
  raw <- as_str (py_or (get_or issue "body" (PStr "")) (PStr "")) ;;
  let cleaned := clean E raw in
  let version := Rules.extract_version cleaned in
  let steps := Rules.extract_steps_by_heading cleaned in
  llm_res <- LLM.llm_extract (defaults E) (llm E) cleaned true ;;
  llm_res <- as_dict llm_res ;;
  Ok (merge issue cleaned version steps llm_res).

(** The [match platform] of [run_once]. *)
Definition platform_of (tag : pyval) : option Collect.platform :=
  match tag with
  | PStr s =>
      if String.eqb s "github" then Some Collect.GitHub
      else if String.eqb s "gitee" then Some Collect.Gitee
      else if String.eqb s "gitlab" then Some Collect.GitLab
      else None
  | _ => None
  end.

Definition tag_of (p : Collect.platform) : string :=
  match p with
  | Collect.GitHub => "github"
  | Collect.Gitee => "gitee"
  | Collect.GitLab => "gitlab"
  end.

(** [collector.fetch_recent(per_page=100, since=since, until=until)]; the
    state filter is the default of each variant. *)
Definition fetch_recent (fuel : nat) (E : env) (p : Collect.platform)
  (c : Collect.collector) (since until : option string)
  : option (result (list dict)) :=
  match p with
  | Collect.GitHub =>
      Some (Collect.github_fetch_recent (tracker E) c "open" 100 since until)
  | Collect.Gitee =>
      Collect.gitee_fetch_recent fuel (tracker E) c "open" 100 since until
  | Collect.GitLab =>
      Collect.gitlab_fetch_recent fuel (tracker E) c "opened" 100 since until
  end.

(** The loop over the collected issues, [num] counting the inserts. *)
Fixpoint for_issues (E : env) (repo_id : pyval) (num : Z)
  (issues : list dict) (w : Storage.world) : result Z * Storage.world :=
  match issues with
  | [] => (Ok num, w)
  | issue :: rest =>
      match Storage.is_duplicate w repo_id (get issue "issue_id") with
      | (Raise e, w1) => (Raise e, w1)
      | (Ok true, w1) => for_issues E repo_id num rest w1
      | (Ok false, w1) =>
          match process_issue E issue with
          | Raise e => (Raise e, w1)
          | Ok doc =>
              match Storage.insert_one w1 (set doc "repo_id" repo_id) with
              | (Raise e, w2) => (Raise e, w2)
              | (Ok None, w2) => for_issues E repo_id num rest w2
              | (Ok (Some _), w2) =>
                  for_issues E repo_id (num + 1)%Z rest w2
              end
          end
      end
  end.

(** [run_once]: a new client, the collector for the platform tag, the
    fetch, then the loop.  Any other tag returns without a value.  The
    Gitee branch joins the token to a text, which needs a token. *)
Definition run_once (fuel : nat) (E : env) (s : Storage.server)
  (owner repo : string) (since until : option string) (platform : pyval)
  (state : string) (repo_id : pyval)
  : option (result pyval * Storage.world) :=
  let client :=
    {| Storage.srv := s; Storage.conn := Storage.NoConnection;
       Storage.log := [] |} in
  match platform_of platform with
  | None => Some (Ok PNone, client)
  | Some p =>
      match Storage.get_token client (tag_of p) with
      | (Raise e, w1) => Some (Raise e, w1)
      | (Ok token, w1) =>
          match p, token with
          | Collect.Gitee, None => Some (Raise TypeError, w1)
          | _, _ =>
              let collector :=
                {| Collect.owner := owner; Collect.repo := repo;
                   Collect.project_id := "" |} in
              match fetch_recent fuel E p collector since until with
              | None => None
              | Some (Raise e) => Some (Raise e, w1)
              | Some (Ok issues) =>
                  match for_issues E repo_id 0 issues w1 with
                  | (Raise e, w2) => Some (Raise e, w2)
                  | (Ok num, w2) => Some (Ok (PInt num), w2)
                  end
              end
          end
      end
  end.

End Pipeline.

(* ================================================================= *)
(** ** The HTTP endpoint: main.py *)

Module Main.
Import Py.

(** What the endpoint sends back: the success body with its [update_num],
    or an [HTTPException] with its status code. *)
Inductive answer : Type :=
| Collected (update_num : pyval)
| HTTPException (status_code : Z).

(** [except ValueError]: [json.JSONDecodeError] is a subclass of
    [ValueError]. *)
Definition is_ValueError (e : exn) : bool :=
  match e with
  | ValueError | JSONDecodeError => true
  | _ => false
  end.

(** [except RuntimeError] *)
Definition is_RuntimeError (e : exn) : bool :=
  match e with
  | RuntimeError => true
  | _ => false
  end.

(** [collect_issue]: the run, and the three handlers around it.  A bound
    that arrives as a date is written as a text first; the bounds are taken
    here as the texts handed to [run_once]. *)
Definition collect_issue (fuel : nat) (E : Pipeline.env)
  (s : Storage.server) (owner repo state : string) (platform : pyval)
  (since until : option string) (repo_id : pyval)
  : option (answer * Storage.world) :=
  match Pipeline.run_once fuel E s owner repo since until platform state
          repo_id with
  | None => None
  | Some (Ok update_num, w) => Some (Collected update_num, w)
  | Some (Raise e, w) =>
      if is_ValueError e then Some (HTTPException 400, w)
      else if is_RuntimeError e then Some (HTTPException 500, w)
      else Some (HTTPException 500, w)
  end.

End Main.

(* ================================================================= *)
(** ** Vocabulary of the properties *)

Module CleanSpec.
Import Text.

(** No two neighbours of the list are both in the class [p]. *)
Fixpoint no_adj (p : ascii -> bool) (l : list ascii) : bool :=
  match l with
  | [] => true
  | c :: r =>
      match r with
      | [] => true
      | d :: _ => negb (p c && p d) && no_adj p r
      end
  end.

(** The list does not start with a character of the class [p]. *)
Definition starts_off (p : ascii -> bool) (l : list ascii) : bool :=
  match l with
  | [] => true
  | c :: _ => negb (p c)
  end.

(** The text neither starts nor ends with a character of [[^\w\s]]. *)
Definition edge_clean (s : string) : bool :=
  starts_off is_sym (chars s) && starts_off is_sym (rev (chars s)).

(** Every white-space character is the blank. *)
Definition blank_only (c : ascii) : Prop := is_space c = true -> c = SP.

(** Lower case, no two class characters side by side, single blanks as the
    only white space, and none of it at either end. *)
Definition normal_form (t : list ascii) : Prop :=
  Forall (fun c => to_lower c = c) t /\
  no_adj is_punct t = true /\
  Forall blank_only t /\
  no_adj is_space t = true /\
  starts_off is_space t = true /\
  starts_off is_space (rev t) = true.

End CleanSpec.

Module LLMSpec.
Import Text Py LLM.

(** A model whose every request is answered with [content], which the JSON
    library reads as [parsed]. *)
Definition fixed_model (content : string) (parsed : option pyval) : model :=
  {| post := fun _ _ _ => Ok content;
     json_loads := fun _ => parsed |}.

(** A model whose every request raises [e]. *)
Definition failing_model (e : exn) : model :=
  {| post := fun _ _ _ => Raise e;
     json_loads := fun _ => None |}.

Definition sample_defaults : schema_defaults :=
  {| d_title := ""; d_description := ""; d_version := "";
     d_severity := "UnKnow"; d_steps := []; d_stack_trace := "" |}.

(** What the loop of [validate_extraction] leaves under [key], [default]
    being the value the schema holds there. *)
Definition validate_value (res : dict) (default : pyval) (key : string)
  : pyval :=
  let v := get_or res key default in
  let v := if (is_list v && negb (is_list (get res key)))%bool
           then (if truthy (get res key)
                 then PList [PStr (str (get res key))]
                 else PList [])
           else v in
  match v with
  | PStr s => PStr (strip (slice_to 5000 s))
  | _ => v
  end.

(** The lines of the input that are not blank. *)
Definition nonblank_lines (s : string) : list string :=
  filter nonblank (splitlines s).

(** *** ExtractionSchema, as section 3 of the specification states it *)

(** Modelled from the spec: the five names of a severity. *)
Definition SEVERITIES : list string :=
  ["Critical"; "High"; "Medium"; "Low"; "UnKnow"].

(** Modelled from the spec: the type stated for the value under [key], a
    sequence of texts for [steps_to_reproduce], one of the five names for
    [severity], a text for the other keys. *)
Definition field_typed (key : string) (v : pyval) : bool :=
  if String.eqb key "steps_to_reproduce"
  then match v with PList l => forallb is_str l | _ => false end
  else if String.eqb key "severity"
  then match v with
       | PStr x => existsb (String.eqb x) SEVERITIES
       | _ => false
       end
  else is_str v.

(** Modelled from the spec: with it, a title has at most 5000
    characters. *)
Definition field_ok (key : string) (v : pyval) : bool :=
  (field_typed key v
   && (if String.eqb key "title"
       then match v with
            | PStr x => Nat.leb (String.length x) 5000
            | _ => false
            end
       else true))%bool.

(** Modelled from the spec: an ExtractionSchema instance has exactly the
    six keys, each with a value of the stated type. *)
Definition schema_instance (v : pyval) : bool :=
  match v with
  | PDict d =>
      ((if list_eq_dec string_dec (keys d) SCHEMA_KEYS then true else false)
       && forallb (fun k => field_ok k (get d k)) SCHEMA_KEYS)%bool
  | _ => false
  end.

(** Every value the answer gives under a key of the schema is of the type
    stated for that key. *)
Definition typed_answer (r : dict) : bool :=
  forallb (fun k => match lookup r k with
                    | Some v => field_typed k v
                    | None => true
                    end) SCHEMA_KEYS.

End LLMSpec.

Module StorageSpec.
Import Py Storage.

(** A reachable server with one active GitHub token and no stored row. *)
Definition fresh_server : server :=
  {| up := true;
     token_config := [("github", "t0", true)];
     standardized_defect := [];
     auto_increment := 1;
     now := 1700000000 |}.

Definition fresh_world : world :=
  {| srv := fresh_server; conn := NoConnection; log := [] |}.

Definition sample_doc : dict :=
  [ ("repo_id", PStr "1123"); ("issue_id", PInt 7);
    ("title", PStr "App crashes") ].

(** The number of stored rows. *)
Definition row_count (w : world) : nat :=
  List.length (standardized_defect (srv w)).

(** Every value [insert_one] takes from the record for a column can be
    written as a parameter of the statement. *)
Definition can_bind (doc : dict) : bool := bindable_row (params 0 doc).

(** A record whose title is a JSON object. *)
Definition object_title_doc : dict :=
  [ ("repo_id", PStr "1123"); ("issue_id", PInt 7);
    ("title", PDict [("text", PStr "App crashes")]) ].

End StorageSpec.

Module CollectSpec.
Import Text Py Collect.

(** The upstream did not flag the item as a pull request. *)
Definition not_pull_request (item : dict) : Prop :=
  has_key item "pull_request" = false.

(** The creation time [t] against the two bounds of the window, each read
    as a calendar date at midnight UTC or as an ISO timestamp. *)
Definition not_before (A : api) (since : option string) (t : datetime)
  : Prop :=
  forall s, supplied since = Some s ->
            exists b, parse_bound A s = Ok b /\ (instant b <= instant t)%Z.

Definition not_after (A : api) (until : option string) (t : datetime)
  : Prop :=
  forall u, supplied until = Some u ->
            exists b, parse_bound A u = Ok b /\ (instant t <= instant b)%Z.

(** [since <= created_at <= until], for the bounds that are supplied. *)
Definition in_window (A : api) (since until : option string) (d : dict)
  : Prop :=
  exists t, created_of A d = Ok t
            /\ not_before A since t /\ not_after A until t.

Definition before_until (A : api) (until : option string) (d : dict)
  : Prop :=
  exists t, created_of A d = Ok t /\ not_after A until t.

(** [l] is [m] with some members left out: the members of [l] are
    members of [m], in the order they have there, none of them twice that
    is not twice in [m]. *)
Inductive sublist : list dict -> list dict -> Prop :=
| sublist_nil : sublist [] []
| sublist_skip (x : dict) (l m : list dict) :
    sublist l m -> sublist l (x :: m)
| sublist_keep (x : dict) (l m : list dict) :
    sublist l m -> sublist (x :: l) (x :: m).

(** [pages] are the answers to the requests for the pages [first],
    [first + 1], ... in turn. *)
Definition served (get_page : nat -> response) (first : nat)
  (pages : list (list dict)) : Prop :=
  forall i, i < List.length pages ->
            get_page (first + i) = HttpJson (nth i pages []).

(** *** A small upstream for examples *)

Definition sample_date (s : string) : option Z :=
  if String.eqb s "2024-01-01" then Some 1704067200%Z
  else if String.eqb s "2024-02-01" then Some 1706745600%Z
  else if String.eqb s "2024-03-01" then Some 1709251200%Z
  else None.

Definition sample_iso (s : string) : option datetime :=
  if String.eqb s "2024-01-01T00:00:00+00:00" then Some (utc 1704067200)
  else if String.eqb s "2024-01-15T12:00:00+00:00"
  then Some (utc 1705320000)
  else if String.eqb s "2024-02-01T00:00:00+00:00"
  then Some (utc 1706745600)
  else if String.eqb s "2024-02-10T08:30:00+00:00"
  then Some (utc 1707553800)
  else if String.eqb s "2024-03-01T00:00:00+00:00"
  then Some (utc 1709251200)
  else None.

Definition sample_isoformat (z : Z) : string :=
  if Z.eqb z 1704067200 then "2024-01-01T00:00:00+00:00"
  else if Z.eqb z 1706745600 then "2024-02-01T00:00:00+00:00"
  else "2024-03-01T00:00:00+00:00".

Definition page_number (rq : request) : nat :=
  match rq_page rq with
  | Some p => p
  | None => 1
  end.

(** An upstream that serves the given pages, first page for a request
    without a page number, and applies no filter of its own. *)
Definition paged (pages : list (list dict)) : api :=
  {| http_get := fun rq => HttpJson (nth (page_number rq - 1) pages []);
     strptime_date := sample_date;
     fromisoformat := sample_iso;
     isoformat := sample_isoformat |}.

Definition item_jan : dict :=
  [ ("number", PInt 1); ("iid", PInt 1); ("title", PStr "first");
    ("created_at", PStr "2024-01-15T12:00:00Z") ].

Definition item_feb : dict :=
  [ ("number", PInt 2); ("iid", PInt 2); ("title", PStr "second");
    ("created_at", PStr "2024-02-10T08:30:00Z") ].


Definition sample_collector : collector :=
  {| owner := "itexp"; repo := "gogogo"; project_id := "" |}.

(** An issue created on 15 January 2024 and last updated on 10 February
    2024. *)
Definition item_touched : dict :=
  [ ("number", PInt 4); ("title", PStr "still open");
    ("created_at", PStr "2024-01-15T12:00:00Z");
    ("updated_at", PStr "2024-02-10T08:30:00Z") ].

(** The time a timestamp of an answer stands for. *)
Definition sample_time (v : pyval) : option Z :=
  match v with
  | PStr s => option_map instant (sample_iso (replace "Z" "+00:00" s))
  | _ => None
  end.

(** The issue was last updated at or after the time [since]. *)
Definition updated_at_or_after (since : string) (item : dict) : bool :=
  match sample_iso since, sample_time (get item "updated_at") with
  | Some b, Some t => Z.leb (instant b) t
  | _, _ => false
  end.

(** An upstream that holds the items [db], serves them on the first page
    and applies the query parameter [since] to the time of the last update
    of an issue, the way the issues endpoint of the GitHub REST API
    documents it. *)
Definition updated_since (db : list dict) : api :=
  {| http_get := fun rq =>
       if Nat.ltb 1 (page_number rq) then HttpJson []
       else
         match rq_since rq with
         | Some s => HttpJson (filter (updated_at_or_after s) db)
         | None => HttpJson db
         end;
     strptime_date := sample_date;
     fromisoformat := sample_iso;
     isoformat := sample_isoformat |}.

End CollectSpec.

Module PipelineSpec.
Import Py Storage Pipeline.

(** The number of logged calls of [insert_one] that returned a generated
    identifier. *)
Fixpoint inserted_count (l : list event) : Z :=
  match l with
  | [] => 0
  | Inserted _ _ (Some _) :: r => 1 + inserted_count r
  | Inserted _ _ None :: r => inserted_count r
  end.

(** The logged call returned a generated identifier. *)
Definition generated_some (e : event) : Prop :=
  match e with
  | Inserted _ _ g => g <> None
  end.

Definition blank_defaults : LLM.schema_defaults :=
  {| LLM.d_title := ""; LLM.d_description := ""; LLM.d_version := "";
     LLM.d_severity := ""; LLM.d_steps := []; LLM.d_stack_trace := "" |}.

(** An environment whose model never answers, whose tracker holds two
    issues, and whose first two cleaning stages change nothing. *)
Definition sample_env : env :=
  {| defaults := blank_defaults;
     llm := LLMSpec.failing_model TimeoutError;
     tracker := CollectSpec.paged
                  [[CollectSpec.item_jan; CollectSpec.item_feb]];
     strip_html_markdown := fun s => s;
     remove_noise := fun s => s |}.

Definition sample_issue : dict :=
  [ ("platform", PStr "github"); ("issue_id", PInt 7);
    ("title", PStr "Crash on start");
    ("body", PStr "Crash in release 1.2.0 on start");
    ("created_at", PStr "2024-01-15T12:00:00Z");
    ("url", PStr "https://github.com/itexp/gogogo/issues/7") ].

End PipelineSpec.

(* ================================================================= *)
(** ** Vocabulary of the further properties *)

Module RulesSpec.
Import Text Rules.

(** The text holds [Reproduc], in any mix of upper and lower case. *)
Definition mentions_reproduce (l : list ascii) : bool :=
  contains_ci (chars "Reproduc") l.

(** The character can stand for some character of the pattern. *)
Definition hits (pat : list ascii) (c : ascii) : bool :=
  existsb (fun p => Ascii.eqb (to_lower p) (to_lower c)) pat.

(** Two reports, each line a member of the list. *)
Definition sample_report : string :=
  join (String LF "") ["How to reproduce"; "---"; "- open the page."].

Definition sample_numbered : string :=
  join (String LF "") ["Steps to Reproduce:"; "1. open the page"].

End RulesSpec.

Module StorageInv.
Import Py Storage.

(** No two rows of the table have the same composite key. *)
Fixpoint unique_keys (rows : list (Z * row)) : bool :=
  match rows with
  | [] => true
  | r :: rest =>
      (negb (existsb (same_key (repo_id (snd r)) (issue_id (snd r))) rest)
       && unique_keys rest)%bool
  end.

(** A server that does not answer. *)
Definition down_server : server :=
  {| up := false;
     token_config := [];
     standardized_defect := [];
     auto_increment := 1;
     now := 1700000000 |}.

End StorageInv.

Module CollectMore.
Import Py Collect.

(** The same date library in front of another upstream. *)
Definition with_upstream (A : api) (f : request -> response) : api :=
  {| http_get := f;
     strptime_date := strptime_date A;
     fromisoformat := fromisoformat A;
     isoformat := isoformat A |}.

(** Every item of the list is flagged as a pull request. *)
Definition all_pull_requests (items : list dict) : Prop :=
  Forall (fun it => has_key it "pull_request" = true) items.

End CollectMore.

Module PipelineMore.
Import Py Storage.

(** The row was stored under this repository identifier. *)
Definition row_of_repo (repo : pyval) (r : Z * row) : Prop :=
  repo_id (snd r) = repo.

End PipelineMore.

(* ================================================================= *)
(** * Properties *)

(* ================================================================= *)
(** ** TextNormalizer *)

Module CleanFacts.
Import Text Clean CleanSpec.

Ltac all_chars c :=
  destruct c as [[] [] [] [] [] [] [] []]; vm_compute; try reflexivity;
  try discriminate; auto.

Lemma to_lower_idem (c : ascii) : to_lower (to_lower c) = to_lower c.
Proof. all_chars c. Qed.

Lemma punct_not_space (c : ascii) : is_punct c = true -> is_space c = false.
Proof. all_chars c. Qed.

Lemma space_not_sym (c : ascii) : is_space c = true -> is_sym c = false.
Proof. unfold is_sym. intros ->. now rewrite andb_false_r. Qed.

Lemma space_not_punct (c : ascii) : is_space c = true -> is_punct c = false.
Proof.
  intros H. destruct (is_punct c) eqn:E; [|reflexivity].
  apply punct_not_space in E. congruence.
Qed.

Lemma linefeed_is_space (c : ascii) : N.eqb (code c) 10 = true -> is_space c = true.
Proof. all_chars c. Qed.

Lemma text_chars (s : string) : text (chars s) = s.
Proof. apply string_of_list_ascii_of_string. Qed.

Lemma chars_text (l : list ascii) : chars (text l) = l.
Proof. apply list_ascii_of_string_of_list_ascii. Qed.

(** *** Prefixes and suffixes *)

Lemma take_drop_while (p : ascii -> bool) (l : list ascii) :
  l = take_while p l ++ drop_while p l.
Proof.
  induction l as [|c r IH]; simpl; [reflexivity|].
  destruct (p c); simpl; [now f_equal|reflexivity].
Qed.

Lemma drop_while_starts_off (p : ascii -> bool) (l : list ascii) :
  starts_off p (drop_while p l) = true.
Proof.
  induction l as [|c r IH]; simpl; [reflexivity|].
  destruct (p c) eqn:E; [exact IH|]. simpl. now rewrite E.
Qed.

Lemma drop_while_fixed (p : ascii -> bool) (l : list ascii) :
  starts_off p l = true -> drop_while p l = l.
Proof.
  destruct l as [|c r]; simpl; [reflexivity|].
  destruct (p c); [discriminate|reflexivity].
Qed.

Lemma drop_while_length (p : ascii -> bool) (l : list ascii) :
  List.length (drop_while p l) <= List.length l.
Proof.
  induction l as [|c r IH]; simpl; [lia|]. destruct (p c); simpl; lia.
Qed.

Lemma drop_while_shorter (p : ascii -> bool) (l : list ascii) :
  starts_off p l = false -> List.length (drop_while p l) < List.length l.
Proof.
  destruct l as [|c r]; simpl; [discriminate|].
  destruct (p c); [|discriminate]. intros _.
  pose proof (drop_while_length p r). lia.
Qed.

Lemma Forall_drop_while (P : ascii -> Prop) (p : ascii -> bool) (l : list ascii) :
  Forall P l -> Forall P (drop_while p l).
Proof.
  intros H. rewrite (take_drop_while p l) in H.
  now apply Forall_app in H.
Qed.

(** *** [no_adj] *)

Lemma no_adj_2 (p : ascii -> bool) (c d : ascii) (r : list ascii) :
  no_adj p (c :: d :: r) = negb (p c && p d) && no_adj p (d :: r).
Proof. reflexivity. Qed.

Lemma no_adj_cons (p : ascii -> bool) (c : ascii) (l : list ascii) :
  no_adj p (c :: l) = true -> no_adj p l = true.
Proof.
  destruct l as [|d r]; [reflexivity|]. cbn [no_adj].
  intros H. now apply andb_true_iff in H.
Qed.

Lemma no_adj_app_l (p : ascii -> bool) (l m : list ascii) :
  no_adj p (l ++ m) = true -> no_adj p l = true.
Proof.
  induction l as [|c r IH]; [reflexivity|].
  destruct r as [|d r']; [reflexivity|].
  change ((c :: d :: r') ++ m) with (c :: d :: (r' ++ m)).
  cbn [no_adj]. intros H. apply andb_true_iff in H as [H1 H2].
  apply andb_true_iff. split; [exact H1|]. apply IH. exact H2.
Qed.

Lemma no_adj_app_r (p : ascii -> bool) (l m : list ascii) :
  no_adj p (l ++ m) = true -> no_adj p m = true.
Proof.
  induction l as [|c r IH]; [trivial|].
  intros H. apply IH. simpl in H. now apply no_adj_cons in H.
Qed.

Lemma no_adj_snoc (p : ascii -> bool) (l : list ascii) (c : ascii) :
  no_adj p l = true -> p c = false -> no_adj p (l ++ [c]) = true.
Proof.
  intros H Hc. induction l as [|a r IH]; [reflexivity|].
  destruct r as [|d r'].
  - simpl. now rewrite Hc, andb_false_r.
  - change ((a :: d :: r') ++ [c]) with (a :: d :: (r' ++ [c])).
    cbn [no_adj] in *. apply andb_true_iff in H as [H1 H2].
    apply andb_true_iff. split; [exact H1|]. apply IH. exact H2.
Qed.

Lemma no_adj_app (p : ascii -> bool) (l m : list ascii) :
  no_adj p l = true -> no_adj p m = true ->
  (starts_off p (rev l) = true \/ starts_off p m = true) ->
  no_adj p (l ++ m) = true.
Proof.
  intros Hl Hm Hj. induction l as [|a r IH]; [exact Hm|].
  destruct r as [|d r'].
  - destruct m as [|b m']; [reflexivity|].
    change ([a] ++ b :: m') with (a :: b :: m'). cbn [no_adj].
    apply andb_true_iff. split; [|exact Hm].
    simpl in Hj. destruct Hj as [Hj|Hj].
    + apply negb_true_iff in Hj. now rewrite Hj.
    + apply negb_true_iff in Hj. now rewrite Hj, andb_false_r.
  - change ((a :: d :: r') ++ m) with (a :: d :: (r' ++ m)).
    cbn [no_adj] in *. apply andb_true_iff in Hl as [H1 H2].
    apply andb_true_iff. split; [exact H1|]. apply IH; [exact H2|].
    destruct Hj as [Hj|Hj]; [left|now right].
    simpl in Hj. simpl.
    destruct (rev r' ++ [d]) as [|x xs] eqn:E.
    + destruct (rev r'); discriminate.
    + simpl in Hj. exact Hj.
Qed.

Lemma no_adj_rev (p : ascii -> bool) (l : list ascii) :
  no_adj p l = true -> no_adj p (rev l) = true.
Proof.
  induction l as [|a r IH]; [reflexivity|].
  intros H. simpl. apply no_adj_app.
  - apply IH. now apply no_adj_cons in H.
  - reflexivity.
  - rewrite rev_involutive. destruct r as [|d r']; [now left|].
    cbn [no_adj] in H. apply andb_true_iff in H as [H _].
    apply negb_true_iff, andb_false_iff in H. simpl.
    destruct H as [H|H]; [right|left]; now rewrite H.
Qed.

(** *** The three substitutions and [strip] *)

Lemma collapse_punct_1 (c : ascii) : collapse_punct [c] = [c].
Proof. simpl. now destruct (is_punct c). Qed.

Lemma collapse_punct_2 (c d : ascii) (r : list ascii) :
  collapse_punct (c :: d :: r) =
  if (is_punct c && is_punct d)%bool then collapse_punct (d :: r)
  else c :: collapse_punct (d :: r).
Proof.
  change (collapse_punct (c :: d :: r)) with
    (if is_punct c
     then if is_punct d then collapse_punct (d :: r)
          else c :: collapse_punct (d :: r)
     else c :: collapse_punct (d :: r)).
  now destruct (is_punct c), (is_punct d).
Qed.

Lemma collapse_punct_head (c : ascii) (r : list ascii) :
  is_punct c = false -> collapse_punct (c :: r) = c :: collapse_punct r.
Proof. intros H. simpl. now rewrite H. Qed.

Lemma collapse_punct_no_adj (l : list ascii) :
  no_adj is_punct (collapse_punct l) = true.
Proof.
  induction l as [|c r IH]; [reflexivity|].
  destruct r as [|d r']; [now rewrite collapse_punct_1|].
  rewrite collapse_punct_2.
  destruct (is_punct c && is_punct d)%bool eqn:E; [exact IH|].
  destruct (collapse_punct (d :: r')) as [|x xs] eqn:Ex; [reflexivity|].
  rewrite no_adj_2. rewrite IH, andb_true_r.
  destruct (is_punct c) eqn:Ec; [|reflexivity].
  simpl in E. rewrite (collapse_punct_head _ _ E) in Ex.
  injection Ex as <- _. now rewrite E.
Qed.

Lemma collapse_punct_Forall (P : ascii -> Prop) (l : list ascii) :
  Forall P l -> Forall P (collapse_punct l).
Proof.
  induction 1 as [|c r Hc Hr IH]; [constructor|].
  destruct r as [|d r']; [rewrite collapse_punct_1; now constructor|].
  rewrite collapse_punct_2.
  destruct (is_punct c && is_punct d)%bool; [exact IH|now constructor].
Qed.

Lemma collapse_punct_fixed (l : list ascii) :
  no_adj is_punct l = true -> collapse_punct l = l.
Proof.
  induction l as [|c r IH]; [reflexivity|]. intros H.
  destruct r as [|d r']; [apply collapse_punct_1|].
  rewrite collapse_punct_2. rewrite no_adj_2 in H.
  apply andb_true_iff in H as [H1 H2]. apply negb_true_iff in H1.
  rewrite H1. f_equal. now apply IH.
Qed.

Lemma collapse_ws_1 (c : ascii) :
  collapse_ws [c] = [if is_space c then SP else c].
Proof. simpl. now destruct (is_space c). Qed.

Lemma collapse_ws_2 (c d : ascii) (r : list ascii) :
  collapse_ws (c :: d :: r) =
  if (is_space c && is_space d)%bool then collapse_ws (d :: r)
  else (if is_space c then SP else c) :: collapse_ws (d :: r).
Proof.
  change (collapse_ws (c :: d :: r)) with
    (if is_space c
     then if is_space d then collapse_ws (d :: r)
          else SP :: collapse_ws (d :: r)
     else c :: collapse_ws (d :: r)).
  now destruct (is_space c), (is_space d).
Qed.

Lemma collapse_ws_head (c : ascii) (r : list ascii) :
  exists tl, collapse_ws (c :: r) = (if is_space c then SP else c) :: tl.
Proof.
  revert c. induction r as [|d r' IH]; intros c.
  - rewrite collapse_ws_1. now exists [].
  - rewrite collapse_ws_2.
    destruct (is_space c && is_space d)%bool eqn:E;
      [|eexists; reflexivity].
    apply andb_true_iff in E as [Ec Ed].
    destruct (IH d) as [tl Htl]. rewrite Ed in Htl. rewrite Ec.
    exists tl. exact Htl.
Qed.

Lemma collapse_ws_Forall (P : ascii -> Prop) (l : list ascii) :
  P SP -> Forall P l -> Forall P (collapse_ws l).
Proof.
  intros HP. induction 1 as [|c r Hc Hr IH]; [constructor|].
  destruct r as [|d r'].
  - rewrite collapse_ws_1. constructor; [|constructor].
    now destruct (is_space c).
  - rewrite collapse_ws_2.
    destruct (is_space c && is_space d)%bool; [exact IH|].
    constructor; [|exact IH]. now destruct (is_space c).
Qed.

Lemma blank_only_pick (c : ascii) :
  blank_only (if is_space c then SP else c).
Proof.
  destruct (is_space c) eqn:E; [now intros _|]. intros H. congruence.
Qed.

Lemma collapse_ws_blank_only (l : list ascii) :
  Forall blank_only (collapse_ws l).
Proof.
  induction l as [|c r IH]; [constructor|].
  destruct r as [|d r'].
  - rewrite collapse_ws_1. constructor; [apply blank_only_pick|constructor].
  - rewrite collapse_ws_2.
    destruct (is_space c && is_space d)%bool; [exact IH|].
    constructor; [apply blank_only_pick|exact IH].
Qed.

Lemma is_space_pick (c : ascii) :
  is_space (if is_space c then SP else c) = is_space c.
Proof. destruct (is_space c) eqn:E; [reflexivity|exact E]. Qed.

Lemma collapse_ws_no_adj_space (l : list ascii) :
  no_adj is_space (collapse_ws l) = true.
Proof.
  induction l as [|c r IH]; [reflexivity|].
  destruct r as [|d r']; [now rewrite collapse_ws_1|].
  rewrite collapse_ws_2.
  destruct (is_space c && is_space d)%bool eqn:E; [exact IH|].
  destruct (collapse_ws_head d r') as [tl Htl]. rewrite Htl in *.
  rewrite no_adj_2, IH, andb_true_r, !is_space_pick, E. reflexivity.
Qed.

Lemma collapse_ws_no_adj_punct (l : list ascii) :
  no_adj is_punct l = true -> no_adj is_punct (collapse_ws l) = true.
Proof.
  induction l as [|c r IH]; [reflexivity|]. intros H.
  destruct r as [|d r']; [now rewrite collapse_ws_1|].
  specialize (IH (no_adj_cons _ _ _ H)).
  rewrite collapse_ws_2.
  destruct (is_space c && is_space d)%bool eqn:E; [exact IH|].
  destruct (collapse_ws_head d r') as [tl Htl]. rewrite Htl in *.
  rewrite no_adj_2, IH, andb_true_r. apply negb_true_iff.
  rewrite no_adj_2 in H. apply andb_true_iff in H as [H _].
  apply negb_true_iff in H.
  destruct (is_space c) eqn:Ec; [reflexivity|].
  destruct (is_space d) eqn:Ed; [apply andb_false_r|exact H].
Qed.

Lemma collapse_ws_fixed (l : list ascii) :
  Forall blank_only l -> no_adj is_space l = true -> collapse_ws l = l.
Proof.
  induction 1 as [|c r Hc Hr IH]; [reflexivity|]. intros H.
  destruct r as [|d r'].
  - rewrite collapse_ws_1. f_equal.
    destruct (is_space c) eqn:Ec; [symmetry; now apply Hc|reflexivity].
  - rewrite collapse_ws_2. rewrite no_adj_2 in H.
    apply andb_true_iff in H as [H1 H2]. apply negb_true_iff in H1.
    rewrite H1. f_equal; [|now apply IH].
    destruct (is_space c) eqn:Ec; [symmetry; now apply Hc|reflexivity].
Qed.

Lemma collapse_ws_length (l : list ascii) :
  List.length (collapse_ws l) <= List.length l.
Proof.
  induction l as [|c r IH]; [simpl; lia|].
  destruct r as [|d r']; [rewrite collapse_ws_1; simpl; lia|].
  rewrite collapse_ws_2.
  destruct (is_space c && is_space d)%bool; simpl in *; lia.
Qed.

Lemma strip_chars_length (l : list ascii) :
  List.length (strip_chars l) <= List.length l.
Proof.
  unfold strip_chars. rewrite length_rev.
  pose proof (drop_while_length is_space (rev (drop_while is_space l))).
  pose proof (drop_while_length is_space l).
  rewrite length_rev in *. lia.
Qed.

Lemma strip_chars_Forall (P : ascii -> Prop) (l : list ascii) :
  Forall P l -> Forall P (strip_chars l).
Proof.
  intros H. unfold strip_chars.
  apply Forall_rev, Forall_drop_while, Forall_rev, Forall_drop_while, H.
Qed.

Lemma no_adj_drop_while (p q : ascii -> bool) (l : list ascii) :
  no_adj p l = true -> no_adj p (drop_while q l) = true.
Proof.
  intros H. rewrite (take_drop_while q l) in H.
  now apply no_adj_app_r in H.
Qed.

Lemma strip_chars_no_adj (p : ascii -> bool) (l : list ascii) :
  no_adj p l = true -> no_adj p (strip_chars l) = true.
Proof.
  intros H. unfold strip_chars.
  apply no_adj_rev, no_adj_drop_while, no_adj_rev, no_adj_drop_while, H.
Qed.

Lemma starts_off_rev_drop (p : ascii -> bool) (l : list ascii) :
  starts_off p l = true ->
  starts_off p (rev (drop_while p (rev l))) = true.
Proof.
  intros H. rewrite <- (rev_involutive l) in H.
  rewrite (take_drop_while p (rev l)) in H. rewrite rev_app_distr in H.
  destruct (rev (drop_while p (rev l))) as [|x xs] eqn:E; [reflexivity|].
  exact H.
Qed.

Lemma strip_chars_edges (l : list ascii) :
  starts_off is_space (strip_chars l) = true /\
  starts_off is_space (rev (strip_chars l)) = true.
Proof.
  unfold strip_chars. split.
  - apply starts_off_rev_drop, drop_while_starts_off.
  - rewrite rev_involutive. apply drop_while_starts_off.
Qed.

Lemma strip_chars_fixed (l : list ascii) :
  starts_off is_space l = true -> starts_off is_space (rev l) = true ->
  strip_chars l = l.
Proof.
  intros H1 H2. unfold strip_chars.
  rewrite (drop_while_fixed _ _ H1), (drop_while_fixed _ _ H2).
  apply rev_involutive.
Qed.

Lemma trim_trailing_sym_Forall (P : ascii -> Prop) (l : list ascii) :
  Forall P l -> Forall P (trim_trailing_sym l).
Proof.
  intros H. unfold trim_trailing_sym. apply Forall_rev in H.
  destruct (rev l) as [|c body]; [constructor|].
  destruct (N.eqb (code c) 10).
  - apply Forall_rev. inversion H; subst. constructor; [assumption|].
    now apply Forall_drop_while.
  - apply Forall_rev. now apply Forall_drop_while.
Qed.

Lemma trim_trailing_sym_no_adj (l : list ascii) :
  no_adj is_punct l = true -> no_adj is_punct (trim_trailing_sym l) = true.
Proof.
  intros H. unfold trim_trailing_sym. apply no_adj_rev in H.
  destruct (rev l) as [|c body]; [reflexivity|].
  destruct (N.eqb (code c) 10) eqn:E.
  - simpl. apply no_adj_snoc.
    + apply no_adj_rev, no_adj_drop_while. now apply no_adj_cons in H.
    + apply space_not_punct, linefeed_is_space, E.
  - apply no_adj_rev. now apply no_adj_drop_while.
Qed.

Lemma trim_trailing_sym_length (l : list ascii) :
  List.length (trim_trailing_sym l) <= List.length l.
Proof.
  unfold trim_trailing_sym. rewrite <- (length_rev l).
  destruct (rev l) as [|c body]; [simpl; lia|].
  destruct (N.eqb (code c) 10); rewrite length_rev.
  - pose proof (drop_while_length is_sym body). simpl. lia.
  - apply drop_while_length.
Qed.

Lemma trim_trailing_sym_fixed (l : list ascii) :
  starts_off is_sym (rev l) = true -> starts_off is_space (rev l) = true ->
  trim_trailing_sym l = l.
Proof.
  intros H1 H2. unfold trim_trailing_sym.
  destruct (rev l) as [|c body] eqn:E.
  - apply (f_equal (@rev ascii)) in E. rewrite rev_involutive in E. now subst.
  - destruct (N.eqb (code c) 10) eqn:Ec.
    + apply linefeed_is_space in Ec. simpl in H2. now rewrite Ec in H2.
    + rewrite (drop_while_fixed _ _ H1). rewrite <- E. apply rev_involutive.
Qed.

Lemma trim_trailing_sym_shorter (l : list ascii) :
  starts_off is_sym (rev l) = false -> starts_off is_space (rev l) = true ->
  List.length (trim_trailing_sym l) < List.length l.
Proof.
  intros H1 H2. unfold trim_trailing_sym. rewrite <- (length_rev l).
  destruct (rev l) as [|c body] eqn:E; [discriminate|].
  destruct (N.eqb (code c) 10) eqn:Ec.
  - apply linefeed_is_space in Ec. simpl in H2. now rewrite Ec in H2.
  - rewrite length_rev. now apply drop_while_shorter.
Qed.

Lemma trim_edges_Forall (P : ascii -> Prop) (l : list ascii) :
  Forall P l -> Forall P (trim_edges l).
Proof.
  intros H. apply trim_trailing_sym_Forall, Forall_drop_while, H.
Qed.

Lemma trim_edges_no_adj (l : list ascii) :
  no_adj is_punct l = true -> no_adj is_punct (trim_edges l) = true.
Proof.
  intros H. apply trim_trailing_sym_no_adj, no_adj_drop_while, H.
Qed.

Lemma map_to_lower_fixed (l : list ascii) :
  Forall (fun c => to_lower c = c) l -> map to_lower l = l.
Proof. induction 1; simpl; congruence. Qed.

(** *** The shape of a normalized text *)

Lemma normalize_chars_normal_form (l : list ascii) :
  normal_form (normalize_chars l).
Proof.
  unfold normalize_chars. repeat split.
  - apply strip_chars_Forall, collapse_ws_Forall; [reflexivity|].
    apply trim_edges_Forall, collapse_punct_Forall.
    apply Forall_map, Forall_forall. intros c _. apply to_lower_idem.
  - apply strip_chars_no_adj, collapse_ws_no_adj_punct, trim_edges_no_adj.
    apply collapse_punct_no_adj.
  - apply strip_chars_Forall, collapse_ws_blank_only.
  - apply strip_chars_no_adj, collapse_ws_no_adj_space.
  - apply strip_chars_edges.
  - apply strip_chars_edges.
Qed.

Lemma normalize_chars_fixed (t : list ascii) :
  normal_form t ->
  starts_off is_sym t = true -> starts_off is_sym (rev t) = true ->
  normalize_chars t = t.
Proof.
  intros (Hlow & Hp & Hb & Hs & Hs1 & Hs2) He1 He2. unfold normalize_chars.
  rewrite (map_to_lower_fixed _ Hlow), (collapse_punct_fixed _ Hp).
  unfold trim_edges.
  rewrite (drop_while_fixed _ _ He1), (trim_trailing_sym_fixed _ He2 Hs2).
  rewrite (collapse_ws_fixed _ Hb Hs). now apply strip_chars_fixed.
Qed.

Lemma normalize_chars_shorter (t : list ascii) :
  normal_form t ->
  starts_off is_sym t = false \/ starts_off is_sym (rev t) = false ->
  List.length (normalize_chars t) < List.length t.
Proof.
  intros (Hlow & Hp & Hb & Hs & Hs1 & Hs2) He. unfold normalize_chars.
  rewrite (map_to_lower_fixed _ Hlow), (collapse_punct_fixed _ Hp).
  pose proof (strip_chars_length (collapse_ws (trim_edges t))).
  pose proof (collapse_ws_length (trim_edges t)).
  assert (List.length (trim_edges t) < List.length t); [|lia].
  unfold trim_edges.
  destruct (starts_off is_sym t) eqn:E1.
  - destruct He as [He|He]; [discriminate|].
    rewrite (drop_while_fixed _ _ E1).
    now apply trim_trailing_sym_shorter.
  - pose proof (drop_while_shorter _ _ E1).
    pose proof (trim_trailing_sym_length (drop_while is_sym t)). lia.
Qed.

Lemma normalize_text_chars (s : string) :
  normalize_text s = text (normalize_chars (chars s)).
Proof. destruct s; reflexivity. Qed.

Lemma length_text (l : list ascii) : String.length (text l) = List.length l.
Proof. induction l; simpl; congruence. Qed.

End CleanFacts.

(** C8, as stated, fails: on the text made of a blank, an exclamation mark
    and the letter a, the pass gives the mark and the letter, and applied to
    that it gives the letter alone. *)
Lemma normalize_text_not_idempotent :
  Clean.normalize_text (Clean.normalize_text " !a")
  <> Clean.normalize_text " !a".
Proof. vm_compute. discriminate. Qed.

(** C8, amended: the final normalization pass is idempotent on every input
    whose normalized text neither starts nor ends with a character that is
    neither a word character nor white space; applying the pass to such an
    output gives the same text. *)
Theorem normalize_text_idempotent_on_clean_edges (s : string) :
  CleanSpec.edge_clean (Clean.normalize_text s) = true ->
  Clean.normalize_text (Clean.normalize_text s) = Clean.normalize_text s.
Proof.
  intros H. rewrite !CleanFacts.normalize_text_chars in *.
  unfold CleanSpec.edge_clean in H. rewrite CleanFacts.chars_text in *.
  apply andb_true_iff in H as [H1 H2]. f_equal.
  apply CleanFacts.normalize_chars_fixed; auto.
  apply CleanFacts.normalize_chars_normal_form.
Qed.

Lemma normalize_text_idempotent_on_clean_edges_witness :
  Clean.normalize_text (Clean.normalize_text "  Crash!!  on   START-up  ")
  = Clean.normalize_text "  Crash!!  on   START-up  ".
Proof.
  apply (normalize_text_idempotent_on_clean_edges
           "  Crash!!  on   START-up  ").
  vm_compute. reflexivity.
Defined.

(** The other inputs: when the normalized text starts or ends with such a
    character, a second application takes further characters away. *)
Lemma normalize_text_shrinks_on_other_edges (s : string) :
  CleanSpec.edge_clean (Clean.normalize_text s) = false ->
  String.length (Clean.normalize_text (Clean.normalize_text s))
  < String.length (Clean.normalize_text s).
Proof.
  intros H. rewrite !CleanFacts.normalize_text_chars in *.
  unfold CleanSpec.edge_clean in H. rewrite CleanFacts.chars_text in *.
  rewrite !CleanFacts.length_text.
  apply CleanFacts.normalize_chars_shorter.
  - apply CleanFacts.normalize_chars_normal_form.
  - apply andb_false_iff in H. exact H.
Qed.

(* ================================================================= *)
(** ** Dictionaries and the LLM extractor *)

Module PyFacts.
Import Py.

Lemma Ok_inj (A : Type) (a b : A) : Ok a = Ok b -> a = b.
Proof. intros H. now injection H. Qed.

Lemma Some_inj (A : Type) (a b : A) : Some a = Some b -> a = b.
Proof. intros H. now injection H. Qed.

Lemma pair_inj (A B : Type) (a a' : A) (b b' : B) :
  (a, b) = (a', b') -> a = a' /\ b = b'.
Proof. intros H. now injection H. Qed.

Lemma PDict_inj (a b : dict) : PDict a = PDict b -> a = b.
Proof. intros H. now injection H. Qed.

End PyFacts.

Module DictFacts.
Import Py.

Lemma keys_set (d : dict) (k : string) (v : pyval) :
  In k (keys d) -> keys (set d k v) = keys d.
Proof.
  induction d as [|[k' v'] r IH]; simpl; [tauto|].
  intros H. destruct (String.eqb k' k) eqn:E; [reflexivity|].
  simpl. f_equal. apply IH. destruct H as [H|H]; [|exact H].
  subst. now rewrite String.eqb_refl in E.
Qed.

Lemma lookup_set_same (d : dict) (k : string) (v : pyval) :
  lookup (set d k v) k = Some v.
Proof.
  induction d as [|[k' v'] r IH]; simpl.
  - now rewrite String.eqb_refl.
  - destruct (String.eqb k' k) eqn:E; simpl; rewrite E; [reflexivity|exact IH].
Qed.

Lemma lookup_set_other (d : dict) (k k' : string) (v : pyval) :
  k <> k' -> lookup (set d k v) k' = lookup d k'.
Proof.
  intros Hne. induction d as [|[k0 v0] r IH]; simpl.
  - destruct (String.eqb k k') eqn:E; [|reflexivity].
    apply String.eqb_eq in E. contradiction.
  - destruct (String.eqb k0 k) eqn:E; simpl.
    + apply String.eqb_eq in E. subst k0.
      destruct (String.eqb k k') eqn:E'; [|reflexivity].
      apply String.eqb_eq in E'. contradiction.
    + now rewrite IH.
Qed.

Lemma get_set_same (d : dict) (k : string) (v : pyval) :
  get (set d k v) k = v.
Proof. unfold get, get_or. now rewrite lookup_set_same. Qed.

Lemma get_set_other (d : dict) (k k' : string) (v : pyval) :
  k <> k' -> get (set d k v) k' = get d k'.
Proof. intros H. unfold get, get_or. now rewrite lookup_set_other. Qed.

End DictFacts.

Module LLMFacts.
Import Text Py LLM LLMSpec PyFacts DictFacts.

Lemma validate_key_keys (res validated : dict) (key : string) :
  In key (keys validated) ->
  keys (validate_key res validated key) = keys validated.
Proof.
  intros H. unfold validate_key.
  set (v1 := set validated key _).
  assert (K1 : keys v1 = keys validated) by now apply keys_set.
  set (v2 := if (_ && _)%bool then _ else v1).
  assert (K2 : keys v2 = keys validated).
  { unfold v2. destruct (_ && _)%bool; [|exact K1].
    rewrite keys_set; [exact K1|]. now rewrite K1. }
  destruct (get v2 key); try exact K2.
  rewrite keys_set; [exact K2|]. now rewrite K2.
Qed.

Lemma validate_loop_keys (res : dict) (ks : list string) (validated : dict) :
  incl ks (keys validated) ->
  keys (fold_left (validate_key res) ks validated) = keys validated.
Proof.
  revert validated. induction ks as [|k r IH]; intros validated H;
    [reflexivity|].
  simpl. rewrite IH.
  - apply validate_key_keys, H. now left.
  - rewrite validate_key_keys by (apply H; now left).
    intros x Hx. apply H. now right.
Qed.

(** The key set of every validated result is the one of the schema. *)
Lemma validate_extraction_keys (D : schema_defaults) (res : pyval)
  (v : dict) :
  validate_extraction D res = Ok v -> keys v = SCHEMA_KEYS.
Proof.
  unfold validate_extraction. intros H.
  destruct res as [| | | | |r]; try congruence.
  apply Ok_inj in H. subst v.
  rewrite validate_loop_keys; [reflexivity|]. apply incl_refl.
Qed.

Lemma fallback_keys (D : schema_defaults) (s : string) :
  keys (fallback D s) = SCHEMA_KEYS.
Proof.
  unfold fallback. destruct (map strip _); [reflexivity|].
  rewrite keys_set.
  - rewrite keys_set; [reflexivity|]. cbv. auto.
  - rewrite keys_set; cbv; auto.
Qed.


Lemma validate_key_same (res validated : dict) (key : string) :
  get (validate_key res validated key) key
  = validate_value res (get validated key) key.
Proof.
  unfold validate_key, validate_value.
  rewrite !get_set_same.
  destruct (is_list (get_or res key (get validated key))
            && negb (is_list (get res key)))%bool.
  - rewrite !get_set_same.
    destruct (truthy (get res key)); cbv beta iota;
      now rewrite ?get_set_same.
  - rewrite !get_set_same.
    destruct (get_or res key (get validated key));
      now rewrite ?get_set_same.
Qed.

Lemma validate_key_other (res validated : dict) (key k : string) :
  key <> k -> get (validate_key res validated key) k = get validated k.
Proof.
  intros H. unfold validate_key.
  set (v1 := set validated key _).
  assert (G1 : get v1 k = get validated k) by now apply get_set_other.
  set (v2 := if (_ && _)%bool then _ else v1).
  assert (G2 : get v2 k = get validated k).
  { unfold v2. destruct (_ && _)%bool; [|exact G1].
    now rewrite get_set_other. }
  destruct (get v2 key); try exact G2. now rewrite get_set_other.
Qed.

Lemma validate_loop_other (res : dict) (ks : list string) (validated : dict)
  (k : string) :
  ~ In k ks -> get (fold_left (validate_key res) ks validated) k
               = get validated k.
Proof.
  revert validated. induction ks as [|a r IH]; intros validated H;
    [reflexivity|].
  simpl. rewrite IH by (intros X; apply H; now right).
  apply validate_key_other. intros ->. apply H. now left.
Qed.

(** Every field of the validated result is computed from the parsed value
    under its key and the default of the schema. *)
Lemma validate_loop_value (res : dict) (ks : list string) (validated : dict)
  (k : string) :
  NoDup ks -> In k ks ->
  get (fold_left (validate_key res) ks validated) k
  = validate_value res (get validated k) k.
Proof.
  revert validated. induction ks as [|a r IH]; intros validated Hn Hin;
    [destruct Hin|].
  inversion Hn as [|? ? Ha Hr]; subst. simpl.
  destruct (string_dec a k) as [->|Hne].
  - rewrite validate_loop_other by exact Ha. apply validate_key_same.
  - destruct Hin as [->|Hin]; [contradiction|].
    rewrite IH by assumption. now rewrite validate_key_other.
Qed.

Lemma schema_keys_nodup : NoDup SCHEMA_KEYS.
Proof.
  unfold SCHEMA_KEYS.
  repeat (constructor; [simpl; intuition discriminate|]). constructor.
Qed.

Lemma blank_test (s : string) :
  (negb (truthy (PStr s)) || negb (truthy (PStr (strip s))))%bool
  = negb (nonblank s).
Proof. destruct s; reflexivity. Qed.

(** The path of a model answer that is JSON and a [dict]. *)
Lemma llm_extract_validated (D : schema_defaults) (M : model) (s resp : string)
  (r : dict) :
  nonblank s = true -> call_llm M s = Ok resp ->
  json_loads M resp = Some (PDict r) ->
  llm_extract D M s true
  = Ok (PDict (fold_left (validate_key r) SCHEMA_KEYS (DEFAULT_SCHEMA D))).
Proof.
  intros Hs Hc Hj. unfold llm_extract. rewrite blank_test, Hs.
  unfold extract_body. rewrite Hc. unfold bind at 1. unfold loads.
  rewrite Hj. reflexivity.
Qed.

(** *** Lines that are not blank *)

Lemma text_empty (l : list ascii) : text l = "" -> l = [].
Proof. destruct l; [reflexivity|discriminate]. Qed.

Lemma drop_while_all (p : ascii -> bool) (l : list ascii) :
  forallb p l = true -> drop_while p l = [].
Proof.
  induction l as [|c r IH]; [reflexivity|]. simpl.
  destruct (p c); [exact IH|discriminate].
Qed.

Lemma In_drop_while (p : ascii -> bool) (l : list ascii) (c : ascii) :
  In c l -> p c = false -> In c (drop_while p l).
Proof.
  intros Hin Hc. induction l as [|a r IH]; [destruct Hin|]. simpl.
  destruct (p a) eqn:E; [|exact Hin].
  destruct Hin as [->|Hin]; [congruence|now apply IH].
Qed.

Lemma strip_chars_keeps (l : list ascii) (c : ascii) :
  In c l -> is_space c = false -> In c (strip_chars l).
Proof.
  intros Hin Hc. unfold strip_chars. apply in_rev.
  rewrite rev_involutive. apply In_drop_while; [|exact Hc].
  apply -> in_rev. now apply In_drop_while.
Qed.

Lemma strip_chars_blank (l : list ascii) :
  forallb is_space l = true -> strip_chars l = [].
Proof.
  intros H. unfold strip_chars. now rewrite (drop_while_all _ _ H).
Qed.

Lemma nonblank_chars (l : list ascii) :
  nonblank (text l) = true <->
  exists c, In c l /\ is_space c = false.
Proof.
  unfold nonblank, strip. rewrite list_ascii_of_string_of_list_ascii.
  split.
  - intros H. destruct (forallb is_space l) eqn:E.
    + rewrite (strip_chars_blank _ E) in H. discriminate.
    + assert (X : existsb (fun c => negb (is_space c)) l = true).
      { clear H. induction l as [|a r IH]; [discriminate|]. simpl in *.
        destruct (is_space a); [now apply IH|reflexivity]. }
      apply existsb_exists in X as (c & Hin & Hc).
      exists c. split; [exact Hin|]. now apply negb_true_iff.
  - intros (c & Hin & Hc).
    pose proof (strip_chars_keeps _ _ Hin Hc) as K.
    destruct (strip_chars l); [destruct K|reflexivity].
Qed.

Lemma linebreak_is_space (c : ascii) :
  is_linebreak c = true -> is_space c = true.
Proof.
  destruct c as [[] [] [] [] [] [] [] []]; vm_compute; auto.
Qed.

(** A character that is not white space lies on one of the lines. *)
Lemma splitlines_from_keeps (n : nat) :
  forall (l cur : list ascii) (c : ascii),
    List.length l <= n ->
    In c (rev cur ++ l) -> is_space c = false ->
    exists line, In line (splitlines_from cur l) /\ In c line.
Proof.
  induction n as [|n IH]; intros l cur c Hlen Hin Hc.
  - destruct l; [|simpl in Hlen; lia]. rewrite app_nil_r in Hin.
    simpl. destruct cur as [|a cur']; [destruct Hin|].
    exists (rev (a :: cur')). split; [now left|exact Hin].
  - destruct l as [|x r].
    + rewrite app_nil_r in Hin.
      simpl. destruct cur as [|a cur']; [destruct Hin|].
      exists (rev (a :: cur')). split; [now left|exact Hin].
    + simpl in Hlen. cbn [splitlines_from].
      destruct (is_linebreak x) eqn:Ex.
      * apply linebreak_is_space in Ex.
        apply in_app_or in Hin as [Hin|Hin].
        { exists (rev cur).
          split; [|exact Hin].
          destruct r as [|d r']; [now left|].
          destruct (N.eqb (code x) 13 && N.eqb (code d) 10)%bool;
            now left. }
        destruct Hin as [->|Hin]; [congruence|].
        destruct r as [|d r']; [destruct Hin|].
        destruct (N.eqb (code x) 13 && N.eqb (code d) 10)%bool eqn:E.
        { apply andb_true_iff in E as [_ Ed].
          destruct Hin as [->|Hin].
          - assert (is_space c = true); [|congruence].
            revert Ed. clear.
            destruct c as [[] [] [] [] [] [] [] []]; vm_compute; auto;
              discriminate.
          - destruct (IH r' [] c) as (line & H1 & H2);
              [simpl in Hlen; lia|exact Hin|exact Hc|].
            exists line. split; [now right|exact H2]. }
        destruct (IH (d :: r') [] c) as (line & H1 & H2);
          [lia|exact Hin|exact Hc|].
        exists line. split; [now right|exact H2].
      * apply (IH r (x :: cur) c); [lia| |exact Hc].
        simpl. rewrite <- app_assoc. exact Hin.
Qed.

Lemma nonblank_lines_exist (s : string) :
  nonblank s = true -> nonblank_lines s <> [].
Proof.
  intros H. rewrite <- (string_of_list_ascii_of_string s) in H.
  apply nonblank_chars in H as (c & Hin & Hc).
  destruct (splitlines_from_keeps (List.length (chars s)) (chars s) [] c)
    as (line & H1 & H2); [lia|exact Hin|exact Hc|].
  assert (K : In (text line) (nonblank_lines s)).
  { unfold nonblank_lines. apply filter_In. split.
    - unfold splitlines. now apply in_map.
    - apply nonblank_chars. now exists c. }
  intros E. rewrite E in K. destruct K.
Qed.

Lemma fallback_fields (D : schema_defaults) (s first : string)
  (rest : list string) :
  nonblank_lines s = first :: rest ->
  get (fallback D s) "title" = PStr (slice_to 200 (strip first)) /\
  get (fallback D s) "description"
  = PStr (join " " (map strip (firstn 4 rest))) /\
  (forall k, k <> "title" -> k <> "description" ->
             get (fallback D s) k = get (DEFAULT_SCHEMA D) k).
Proof.
  intros H. unfold fallback. fold (nonblank_lines s). rewrite H.
  cbn [map]. rewrite <- firstn_map. split; [|split].
  - rewrite get_set_other by discriminate. apply get_set_same.
  - apply get_set_same.
  - intros k H1 H2.
    rewrite get_set_other by congruence.
    now rewrite get_set_other by congruence.
Qed.

(** *** ExtractionSchema instances *)

Lemma strip_slice_length (n : nat) (x : string) :
  String.length (strip (slice_to n x)) <= n.
Proof.
  unfold strip, slice_to.
  rewrite CleanFacts.chars_text, CleanFacts.length_text.
  pose proof (CleanFacts.strip_chars_length (firstn n (chars x))).
  pose proof (firstn_le_length n (chars x)). lia.
Qed.

Lemma slice_length (n : nat) (x : string) :
  String.length (slice_to n x) <= n.
Proof.
  unfold slice_to. rewrite CleanFacts.length_text.
  apply firstn_le_length.
Qed.

(** Validation leaves the names of the severities as they are. *)
Lemma severity_fixed (x : string) :
  existsb (String.eqb x) SEVERITIES = true ->
  strip (slice_to 5000 x) = x.
Proof.
  unfold SEVERITIES. cbn [existsb]. rewrite !orb_true_iff.
  intros [H|[H|[H|[H|[H|H]]]]]; try discriminate H;
    apply String.eqb_eq in H; subst x; vm_compute; reflexivity.
Qed.

Lemma get_lookup (r : dict) (k : string) :
  get r k = match lookup r k with Some v => v | None => PNone end.
Proof. reflexivity. Qed.

(** A value of the stated type, or the default of the schema where the
    answer has none, is of the stated type after validation. *)
Lemma validate_value_ok (r : dict) (default : pyval) (k : string) :
  In k SCHEMA_KEYS ->
  match lookup r k with Some v => field_typed k v | None => true end = true ->
  field_ok k default = true ->
  field_ok k (validate_value r default k) = true.
Proof.
  intros Hin Hr Hd. unfold validate_value, get_or. rewrite get_lookup.
  unfold field_ok in *.
  simpl in Hin.
  destruct Hin as [<-|[<-|[<-|[<-|[<-|[<-|[]]]]]]];
    cbn [String.eqb Ascii.eqb Bool.eqb andb] in *;
    unfold field_typed in *;
    cbn [String.eqb Ascii.eqb Bool.eqb andb] in *.
  - (* title *)
    destruct (lookup r "title") as [v|].
    + destruct v; try discriminate Hr. cbn [is_list andb is_str].
      apply Nat.leb_le, strip_slice_length.
    + destruct default; try discriminate Hd. cbn [is_list andb is_str].
      apply Nat.leb_le, strip_slice_length.
  - destruct (lookup r "description") as [v|].
    + now destruct v.
    + now destruct default.
  - destruct (lookup r "version") as [v|].
    + now destruct v.
    + now destruct default.
  - (* severity *)
    destruct (lookup r "severity") as [v|].
    + destruct v as [| | |x| |]; try discriminate Hr.
      cbn [is_list andb]. now rewrite (severity_fixed x Hr), Hr.
    + destruct default as [| | |x| |]; try discriminate Hd.
      rewrite andb_true_r in Hd.
      cbn [is_list andb]. now rewrite (severity_fixed x Hd), Hd.
  - (* steps_to_reproduce *)
    destruct (lookup r "steps_to_reproduce") as [v|].
    + destruct v as [| | | |l|]; try discriminate Hr.
      cbn [is_list negb andb]. now rewrite Hr.
    + destruct default as [| | | |l|]; try discriminate Hd.
      reflexivity.
  - destruct (lookup r "stack_trace") as [v|].
    + now destruct v.
    + now destruct default.
Qed.

Lemma schema_instance_intro (d : dict) :
  keys d = SCHEMA_KEYS ->
  (forall k, In k SCHEMA_KEYS -> field_ok k (get d k) = true) ->
  schema_instance (PDict d) = true.
Proof.
  intros Hk Hf. unfold schema_instance. rewrite Hk.
  destruct (list_eq_dec string_dec SCHEMA_KEYS SCHEMA_KEYS) as [_|N];
    [|now elim N].
  cbn [andb]. apply forallb_forall. exact Hf.
Qed.

Lemma schema_instance_fields (d : dict) (k : string) :
  schema_instance (PDict d) = true -> In k SCHEMA_KEYS ->
  field_ok k (get d k) = true.
Proof.
  unfold schema_instance. intros H Hin.
  apply andb_true_iff in H as [_ H].
  now apply (proj1 (forallb_forall _ _) H).
Qed.

(** A typed answer gives an instance. *)
Lemma validated_instance (D : schema_defaults) (r : dict) :
  schema_instance (PDict (DEFAULT_SCHEMA D)) = true ->
  typed_answer r = true ->
  schema_instance
    (PDict (fold_left (validate_key r) SCHEMA_KEYS (DEFAULT_SCHEMA D)))
  = true.
Proof.
  intros Hd Hr. apply schema_instance_intro.
  - apply validate_loop_keys. apply incl_refl.
  - intros k Hk.
    rewrite validate_loop_value by (exact schema_keys_nodup || exact Hk).
    apply validate_value_ok; [exact Hk| |].
    + unfold typed_answer in Hr.
      exact (proj1 (forallb_forall _ _) Hr k Hk).
    + now apply schema_instance_fields.
Qed.

Lemma fallback_instance (D : schema_defaults) (s : string) :
  schema_instance (PDict (DEFAULT_SCHEMA D)) = true ->
  schema_instance (PDict (fallback D s)) = true.
Proof.
  intros Hd. apply schema_instance_intro; [apply fallback_keys|].
  intros k Hk. unfold fallback.
  destruct (map strip (filter nonblank (splitlines s))) as [|first rest];
    [now apply schema_instance_fields|].
  destruct (string_dec k "description") as [->|Nd].
  { now rewrite get_set_same. }
  rewrite get_set_other by congruence.
  destruct (string_dec k "title") as [->|Nt].
  { rewrite get_set_same. unfold field_ok, field_typed.
    cbn [String.eqb Ascii.eqb Bool.eqb andb is_str].
    apply Nat.leb_le. pose proof (slice_length 200 first). lia. }
  rewrite get_set_other by congruence.
  now apply schema_instance_fields.
Qed.

(** The body of the [try] block ends in a value only when the answer of
    the model could be read. *)
Lemma extract_body_ok (D : schema_defaults) (M : model) (s : string)
  (validate : bool) (x : pyval) :
  extract_body D M s validate = Ok x ->
  exists resp parsed,
    call_llm M s = Ok resp /\ json_loads M resp = Some parsed
    /\ (validate = false -> x = parsed)
    /\ (validate = true ->
        exists r, parsed = PDict r
                  /\ x = PDict (fold_left (validate_key r) SCHEMA_KEYS
                                  (DEFAULT_SCHEMA D))).
Proof.
  unfold extract_body, loads.
  destruct (call_llm M s) as [resp|e] eqn:Hc; cbn [bind]; [|discriminate].
  destruct (json_loads M resp) as [parsed|] eqn:Hj; cbn [bind];
    [|discriminate].
  intros H. exists resp, parsed. split; [reflexivity|].
  split; [exact Hj|].
  destruct validate.
  - split; [discriminate|]. intros _.
    unfold validate_extraction in H.
    destruct parsed as [| | | | |r]; try discriminate H.
    cbn [bind] in H. apply Ok_inj in H. now exists r.
  - split; [|discriminate]. intros _. apply Ok_inj in H. now symmetry.
Qed.

(** With validation on, the entry point returns a dictionary on every
    path. *)
Lemma llm_extract_returns_dict (D : schema_defaults) (M : model)
  (s : string) :
  exists d, llm_extract D M s true = Ok (PDict d).
Proof.
  unfold llm_extract.
  destruct (negb (truthy (PStr s)) || negb (truthy (PStr (strip s))))%bool;
    [now eexists|].
  destruct (extract_body D M s true) as [v|e] eqn:Hb.
  - unfold extract_body in Hb.
    destruct (call_llm M s) as [resp|e1]; [|discriminate Hb].
    cbn [bind] in Hb.
    destruct (loads M resp) as [x|e2]; [|discriminate Hb].
    cbn [bind] in Hb.
    destruct (validate_extraction D x) as [d|e3]; [|discriminate Hb].
    cbn [bind] in Hb. apply Ok_inj in Hb. subst v. now exists d.
  - destruct e; now eexists.
Qed.

End LLMFacts.

(** C2 at a failing input: the model answers with a JSON object that gives
    [steps_to_reproduce] as a text.  The validated result has the six keys,
    and it still holds the bare text under [steps_to_reproduce]. *)
Theorem llm_extract_keeps_bare_string_steps (D : LLM.schema_defaults) :
  exists d,
    LLM.llm_extract D
      (LLMSpec.fixed_model "{}"
         (Some (Py.PDict
                  [("steps_to_reproduce", Py.PStr "open the page")])))
      "app crashes" true = Py.Ok (Py.PDict d)
    /\ Py.keys d = LLM.SCHEMA_KEYS
    /\ Py.get d "steps_to_reproduce" = Py.PStr "open the page"
    /\ Py.is_list (Py.get d "steps_to_reproduce") = false.
Proof.
  eexists. split.
  - apply LLMFacts.llm_extract_validated with (resp := "{}");
      vm_compute; reflexivity.
  - assert (G : Py.get
                  (fold_left
                     (LLM.validate_key
                        [("steps_to_reproduce", Py.PStr "open the page")])
                     LLM.SCHEMA_KEYS (LLM.DEFAULT_SCHEMA D))
                  "steps_to_reproduce" = Py.PStr "open the page").
    { rewrite LLMFacts.validate_loop_value.
      - vm_compute. reflexivity.
      - apply LLMFacts.schema_keys_nodup.
      - simpl. auto 10. }
    split; [|split].
    + apply LLMFacts.validate_loop_keys. apply incl_refl.
    + exact G.
    + now rewrite G.
Qed.

(** C3, as stated, fails: what the entry point returns need not be an
    ExtractionSchema instance.  Validation keeps a value of the answer under
    its key whatever its type, apart from cutting texts and the repair of
    [steps_to_reproduce] that C2 is about.  Here the default schema is an
    instance and the model answers with the JSON object whose title is the
    number 5; the entry point returns a dictionary with the number 5 as
    title. *)
Lemma llm_extract_returns_number_as_title :
  LLMSpec.schema_instance
    (Py.PDict (LLM.DEFAULT_SCHEMA LLMSpec.sample_defaults)) = true
  /\ exists d,
      LLM.llm_extract LLMSpec.sample_defaults
        (LLMSpec.fixed_model "{}" (Some (Py.PDict [("title", Py.PInt 5)])))
        "app crashes" true = Py.Ok (Py.PDict d)
      /\ Py.get d "title" = Py.PInt 5
      /\ LLMSpec.schema_instance (Py.PDict d) = false.
Proof.
  split; [vm_compute; reflexivity|].
  eexists. split; [vm_compute; reflexivity|].
  split; vm_compute; reflexivity.
Qed.

(** C3, amended: for every input text, every model and both settings of
    [validate], the extraction entry point never raises.  On blank input it
    returns the default schema.  When the call of the model or the reading
    of its answer ends in a JSON decode error it returns the default schema
    with [title] the first line of the input that is not blank, trimmed and
    cut to 200 characters, and [description] the next up to four such lines
    joined by blanks.  On any other exception it returns the default schema.
    These three results are ExtractionSchema instances when the default
    schema is one.  When the answer can be read, the entry point returns,
    without validation, the value read, and with validation a dictionary
    with the six keys of the schema; this dictionary is an ExtractionSchema
    instance when the default schema is one and every value the answer
    gives under a key of the schema is of the type stated for that key. *)
Theorem llm_extract_never_raises (D : LLM.schema_defaults) (M : LLM.model)
  (s : string) (validate : bool) :
  exists v,
    LLM.llm_extract D M s validate = Py.Ok v
    /\ (LLM.nonblank s = false -> v = Py.PDict (LLM.DEFAULT_SCHEMA D))
    /\ (LLM.nonblank s = true ->
        LLM.extract_body D M s validate = Py.Raise Py.JSONDecodeError ->
        exists first rest d,
          LLMSpec.nonblank_lines s = first :: rest
          /\ v = Py.PDict d
          /\ Py.get d "title" = Py.PStr (Text.slice_to 200 (Text.strip first))
          /\ Py.get d "description"
             = Py.PStr (Text.join " " (map Text.strip (firstn 4 rest)))
          /\ (forall k, k <> "title" -> k <> "description" ->
                        Py.get d k = Py.get (LLM.DEFAULT_SCHEMA D) k))
    /\ (forall e, LLM.nonblank s = true ->
        LLM.extract_body D M s validate = Py.Raise e ->
        e <> Py.JSONDecodeError -> v = Py.PDict (LLM.DEFAULT_SCHEMA D))
    /\ (LLMSpec.schema_instance (Py.PDict (LLM.DEFAULT_SCHEMA D)) = true ->
        LLM.nonblank s = false
        \/ (exists e, LLM.extract_body D M s validate = Py.Raise e) ->
        LLMSpec.schema_instance v = true)
    /\ (forall resp parsed,
           LLM.nonblank s = true ->
           LLM.call_llm M s = Py.Ok resp ->
           LLM.json_loads M resp = Some parsed ->
           (validate = false -> v = parsed)
           /\ (validate = true ->
               exists d,
                 v = Py.PDict d /\ Py.keys d = LLM.SCHEMA_KEYS
                 /\ (forall r,
                        parsed = Py.PDict r ->
                        LLMSpec.schema_instance
                          (Py.PDict (LLM.DEFAULT_SCHEMA D)) = true ->
                        LLMSpec.typed_answer r = true ->
                        LLMSpec.schema_instance v = true))).
Proof.
  unfold LLM.llm_extract. rewrite LLMFacts.blank_test.
  destruct (LLM.nonblank s) eqn:Hs; cbn [negb].
  - destruct (LLM.extract_body D M s validate) as [x|e] eqn:Hb.
    + (* the answer could be read *)
      exists x. split; [reflexivity|].
      split; [discriminate|]. split; [discriminate|].
      split; [discriminate|].
      split; [intros _ [H|(e & H)]; discriminate H|].
      intros resp parsed _ Hc Hj.
      destruct (LLMFacts.extract_body_ok _ _ _ _ _ Hb)
        as (resp' & parsed' & Hc' & Hj' & Hraw & Hval).
      assert (resp' = resp) by congruence. subst resp'.
      assert (parsed' = parsed) by congruence. subst parsed'.
      split; [exact Hraw|]. intros Hv.
      destruct (Hval Hv) as (r & -> & ->).
      eexists. split; [reflexivity|]. split.
      * apply LLMFacts.validate_loop_keys. apply incl_refl.
      * intros r' Er Hd Ht. apply PyFacts.PDict_inj in Er. subst r'.
        now apply LLMFacts.validated_instance.
    + assert (Hno : forall resp parsed,
                 LLM.call_llm M s = Py.Ok resp ->
                 LLM.json_loads M resp = Some parsed ->
                 validate = true /\ forall r, parsed <> Py.PDict r).
      { intros resp parsed Hc Hj. unfold LLM.extract_body, LLM.loads in Hb.
        rewrite Hc in Hb. cbn [Py.bind] in Hb. rewrite Hj in Hb.
        cbn [Py.bind] in Hb. destruct validate; [|discriminate Hb].
        split; [reflexivity|]. intros r ->. discriminate Hb. }
      assert (Hlast : forall v : Py.pyval,
                 (exists d, v = Py.PDict d /\ Py.keys d = LLM.SCHEMA_KEYS) ->
                 forall resp parsed,
                   true = true ->
                   LLM.call_llm M s = Py.Ok resp ->
                   LLM.json_loads M resp = Some parsed ->
                   (validate = false -> v = parsed)
                   /\ (validate = true ->
                       exists d,
                         v = Py.PDict d /\ Py.keys d = LLM.SCHEMA_KEYS
                         /\ (forall r,
                                parsed = Py.PDict r ->
                                LLMSpec.schema_instance
                                  (Py.PDict (LLM.DEFAULT_SCHEMA D)) = true ->
                                LLMSpec.typed_answer r = true ->
                                LLMSpec.schema_instance v = true))).
      { intros v (d & -> & Hk) resp parsed _ Hc Hj.
        destruct (Hno resp parsed Hc Hj) as [-> Hnd].
        split; [discriminate|]. intros _. exists d.
        split; [reflexivity|]. split; [exact Hk|].
        intros r Er. now elim (Hnd r). }
      destruct e;
        try (exists (Py.PDict (LLM.DEFAULT_SCHEMA D));
             split; [reflexivity|];
             split; [discriminate|];
             split; [discriminate|];
             split; [reflexivity|];
             split; [intros Hd _; exact Hd|];
             apply Hlast; now eexists).
      exists (Py.PDict (LLM.fallback D s)). split; [reflexivity|].
      split; [discriminate|]. split.
      * intros _ _.
        destruct (LLMSpec.nonblank_lines s) as [|first rest] eqn:El.
        { exfalso. now apply (LLMFacts.nonblank_lines_exist s Hs). }
        exists first, rest, (LLM.fallback D s). split; [reflexivity|].
        split; [reflexivity|]. now apply LLMFacts.fallback_fields.
      * split; [intros e _ He N; exfalso; apply N; congruence|].
        split; [intros Hd _; now apply LLMFacts.fallback_instance|].
        apply Hlast. eexists. split; [reflexivity|].
        apply LLMFacts.fallback_keys.
  - exists (Py.PDict (LLM.DEFAULT_SCHEMA D)). split; [reflexivity|].
    split; [reflexivity|]. split; [discriminate|]. split; [discriminate|].
    split; [intros Hd _; exact Hd|]. discriminate.
Qed.

(** A model answer that cannot be read as JSON, and a transport failure of
    the same kind after the last attempt, both end in that exception. *)
Lemma extract_body_json_failure (D : LLM.schema_defaults) (M : LLM.model)
  (s : string) (validate : bool) :
  (exists resp, LLM.call_llm M s = Py.Ok resp
                /\ LLM.json_loads M resp = None)
  \/ LLM.call_llm M s = Py.Raise Py.JSONDecodeError ->
  LLM.extract_body D M s validate = Py.Raise Py.JSONDecodeError.
Proof.
  unfold LLM.extract_body, LLM.loads.
  intros [(resp & H1 & H2)|H]; [rewrite H1; cbn [Py.bind]; now rewrite H2|].
  now rewrite H.
Qed.

Lemma llm_extract_never_raises_witness :
  exists d,
    LLM.llm_extract LLMSpec.sample_defaults (LLMSpec.fixed_model "oops" None)
      "  App crashes on start  " true = Py.Ok (Py.PDict d)
    /\ Py.get d "title" = Py.PStr "App crashes on start"
    /\ LLMSpec.schema_instance (Py.PDict d) = true.
Proof.
  destruct (llm_extract_never_raises LLMSpec.sample_defaults
              (LLMSpec.fixed_model "oops" None) "  App crashes on start  "
              true)
    as (v & H1 & _ & H3 & _ & H5 & _).
  destruct H3 as (first & rest & d & E & -> & T & _);
    [vm_compute; reflexivity|vm_compute; reflexivity|].
  exists d. split; [exact H1|]. split.
  - rewrite T. vm_compute in E. injection E as <- _.
    vm_compute. reflexivity.
  - apply H5; [vm_compute; reflexivity|].
    right. eexists. vm_compute. reflexivity.
Defined.

(* ================================================================= *)
(** ** StorageGateway *)

Module StorageFacts.
Import Py Storage StorageSpec.

Lemma eqb_refl : forall v : pyval, eqb v v = true.
Proof.
  fix IH 1. intros v.
  destruct v as [| b | z | s | l | d]; simpl.
  - reflexivity.
  - now destruct b.
  - apply Z.eqb_refl.
  - apply String.eqb_refl.
  - induction l as [|a l IHl]; [reflexivity|].
    rewrite (IH a). exact IHl.
  - induction d as [|[k a] d IHd]; [reflexivity|].
    rewrite String.eqb_refl, (IH a). exact IHd.
Qed.

Lemma stored_app (s : server) (repo issue : pyval) (extra : list (Z * row))
  (s' : server) :
  standardized_defect s' = standardized_defect s ++ extra ->
  stored s' repo issue
  = (stored s repo issue || existsb (same_key repo issue) extra)%bool.
Proof. intros H. unfold stored. rewrite H. apply existsb_app. Qed.

(** What [insert_one] does when the keys pass the check and the server
    answers. *)
Lemma insert_one_up (w : world) (doc : dict) :
  up (srv w) = true ->
  truthy (get doc "repo_id") = true -> truthy (get doc "issue_id") = true ->
  can_bind doc = true ->
  let repo := get doc "repo_id" in
  let issue := get doc "issue_id" in
  exists r w',
    insert_one w doc = (Ok r, w')
    /\ up (srv w') = true
    /\ stored (srv w') repo issue = true
    /\ log w' = Inserted repo issue r :: log w
    /\ (stored (srv w) repo issue = true ->
        r = None /\ srv w' = srv w)
    /\ (stored (srv w) repo issue = false ->
        r = Some (auto_increment (srv w))
        /\ standardized_defect (srv w')
           = standardized_defect (srv w)
               ++ [(auto_increment (srv w), params (now (srv w)) doc)]).
Proof.
  intros Hup Hr Hi Hb repo issue. unfold insert_one.
  rewrite Hr, Hi. cbn [negb orb].
  assert (G : exists w1, get_connection w = (Ok tt, w1)
                         /\ srv w1 = srv w /\ log w1 = log w).
  { unfold get_connection. destruct (conn w).
    - rewrite Hup. now eexists.
    - now eexists.
    - rewrite Hup. now eexists. }
  destruct G as (w1 & -> & Es & El). rewrite Es, El, Hup.
  change (bindable_row (params (now (srv w)) doc)) with (can_bind doc).
  rewrite Hb. cbn [andb].
  unfold insert_ignore. cbn [repo_id issue_id params].
  fold repo issue.
  destruct (stored (srv w) repo issue) eqn:E.
  - do 2 eexists. split; [reflexivity|]. cbn [srv log].
    repeat split; auto; discriminate.
  - do 2 eexists. split; [reflexivity|]. cbn [srv log up].
    split; [exact Hup|]. split; [|split; [reflexivity|]].
    + unfold stored. cbn [standardized_defect]. rewrite existsb_app.
      cbn [existsb]. unfold same_key at 2. cbn [snd repo_id issue_id].
      fold repo issue. rewrite !eqb_refl. cbn. apply orb_true_r.
    + split; [discriminate|]. intros _. split; reflexivity.
Qed.

Lemma insert_one_invalid (w : world) (doc : dict) :
  truthy (get doc "repo_id") = false \/ truthy (get doc "issue_id") = false ->
  insert_one w doc = (Raise ValueError, w).
Proof.
  intros H. unfold insert_one.
  destruct H as [-> | ->]; [reflexivity|].
  now rewrite orb_true_r.
Qed.

Lemma can_bind_keys (doc : dict) :
  can_bind doc = true ->
  bindable (get doc "repo_id") = true
  /\ bindable (get doc "issue_id") = true.
Proof.
  unfold can_bind, bindable_row.
  cbn [row_values forallb params repo_id issue_id].
  intros H. apply andb_true_iff in H as [H1 H].
  apply andb_true_iff in H as [H2 _]. now split.
Qed.

Lemma insert_one_unbindable (w : world) (doc : dict) :
  up (srv w) = true ->
  truthy (get doc "repo_id") = true -> truthy (get doc "issue_id") = true ->
  can_bind doc = false ->
  insert_one w doc = (Raise RuntimeError, with_conn w Closed).
Proof.
  intros Hup Hr Hi Hb. unfold insert_one.
  rewrite Hr, Hi. cbn [negb orb].
  change (bindable_row (params (now (srv w)) doc)) with (can_bind doc).
  rewrite Hb. unfold get_connection.
  destruct (conn w); rewrite ?Hup; cbn [srv with_conn]; rewrite ?Hup;
    reflexivity.
Qed.

End StorageFacts.

(** C1, as stated, fails: the record need not be one the statement can be
    run with.  [insert_one] hands title, description, version, severity and
    stack_trace to the driver as they are, and [process_issue] takes them
    from the answer of the model as they are.  With a JSON object as title,
    non-empty keys and a server that answers, the first call raises
    [RuntimeError] and nothing is stored. *)
Lemma insert_one_rejects_object_title :
  Py.truthy (Py.get StorageSpec.object_title_doc "repo_id") = true
  /\ Py.truthy (Py.get StorageSpec.object_title_doc "issue_id") = true
  /\ Storage.up (Storage.srv StorageSpec.fresh_world) = true
  /\ Storage.insert_one StorageSpec.fresh_world StorageSpec.object_title_doc
     = (Py.Raise Py.RuntimeError,
        Storage.with_conn StorageSpec.fresh_world Storage.Closed).
Proof. repeat split. Qed.

(** C1, amended: for a record whose repo_id and issue_id are not empty and
    whose column values can all be written as parameters, on a server that
    answers, two calls of [insert_one] with the same composite key both
    return without an exception; the second call returns none; the first
    call returns a generated identifier when the key is not stored yet (and
    none when it is); the number of stored rows grows by at most one.  With
    an empty repo_id or issue_id the call raises [ValueError] and changes
    nothing.  With non-empty keys and a value that cannot be written as a
    parameter the call raises [RuntimeError], stores nothing and closes the
    connection. *)
Theorem insert_one_twice :
  (forall (w : Storage.world) (doc doc' : Py.dict),
      Storage.up (Storage.srv w) = true ->
      Py.truthy (Py.get doc "repo_id") = true ->
      Py.truthy (Py.get doc "issue_id") = true ->
      Py.get doc' "repo_id" = Py.get doc "repo_id" ->
      Py.get doc' "issue_id" = Py.get doc "issue_id" ->
      StorageSpec.can_bind doc = true ->
      StorageSpec.can_bind doc' = true ->
      exists r1 w1 w2,
        Storage.insert_one w doc = (Py.Ok r1, w1)
        /\ Storage.insert_one w1 doc' = (Py.Ok None, w2)
        /\ (Storage.stored (Storage.srv w) (Py.get doc "repo_id")
              (Py.get doc "issue_id") = false ->
            exists id, r1 = Some id)
        /\ (Storage.stored (Storage.srv w) (Py.get doc "repo_id")
              (Py.get doc "issue_id") = true ->
            r1 = None)
        /\ (StorageSpec.row_count w <= StorageSpec.row_count w2
            <= StorageSpec.row_count w + 1)%nat)
  /\ (forall (w : Storage.world) (doc : Py.dict),
         Py.truthy (Py.get doc "repo_id") = false
         \/ Py.truthy (Py.get doc "issue_id") = false ->
         Storage.insert_one w doc = (Py.Raise Py.ValueError, w))
  /\ (forall (w : Storage.world) (doc : Py.dict),
         Storage.up (Storage.srv w) = true ->
         Py.truthy (Py.get doc "repo_id") = true ->
         Py.truthy (Py.get doc "issue_id") = true ->
         StorageSpec.can_bind doc = false ->
         Storage.insert_one w doc
         = (Py.Raise Py.RuntimeError, Storage.with_conn w Storage.Closed)).
Proof.
  split; [|split; [exact StorageFacts.insert_one_invalid
                  |exact StorageFacts.insert_one_unbindable]].
  intros w doc doc' Hup Hr Hi Er Ei Hb Hb'.
  destruct (StorageFacts.insert_one_up w doc Hup Hr Hi Hb)
    as (r1 & w1 & H1 & Hup1 & Hst1 & _ & Hold & Hnew).
  assert (Hr' : Py.truthy (Py.get doc' "repo_id") = true) by congruence.
  assert (Hi' : Py.truthy (Py.get doc' "issue_id") = true) by congruence.
  destruct (StorageFacts.insert_one_up w1 doc' Hup1 Hr' Hi' Hb')
    as (r2 & w2 & H2 & _ & _ & _ & Hold2 & _).
  rewrite Er, Ei in Hold2. destruct (Hold2 Hst1) as [-> Es2].
  exists r1, w1, w2. split; [exact H1|]. split; [exact H2|].
  unfold StorageSpec.row_count. rewrite Es2.
  destruct (Storage.stored (Storage.srv w) (Py.get doc "repo_id")
              (Py.get doc "issue_id")) eqn:E.
  - destruct (Hold eq_refl) as [-> Es1]. rewrite Es1.
    repeat split; try discriminate; lia.
  - destruct (Hnew eq_refl) as [-> Ed]. rewrite Ed, length_app. simpl.
    repeat split; try discriminate; try lia. intros _. now eexists.
Qed.

Lemma insert_one_twice_witness :
  exists id w1 w2,
    Storage.insert_one StorageSpec.fresh_world StorageSpec.sample_doc
    = (Py.Ok (Some id), w1)
    /\ Storage.insert_one w1 StorageSpec.sample_doc = (Py.Ok None, w2).
Proof.
  destruct (proj1 insert_one_twice StorageSpec.fresh_world
              StorageSpec.sample_doc StorageSpec.sample_doc)
    as (r1 & w1 & w2 & H1 & H2 & Hnew & _); try reflexivity.
  destruct (Hnew eq_refl) as [id ->].
  exists id, w1, w2. split; assumption.
Defined.



(* ================================================================= *)
(** ** PlatformCollector *)

Module CollectFacts.
Import Text Py Collect CollectSpec PyFacts.

Lemma HttpJson_inj (a b : list dict) : HttpJson a = HttpJson b -> a = b.
Proof. intros H. now injection H. Qed.

(** *** Lists with members left out *)

Lemma sublist_app (l1 m1 l2 m2 : list dict) :
  sublist l1 m1 -> sublist l2 m2 -> sublist (l1 ++ l2) (m1 ++ m2).
Proof.
  intros H1 H2. induction H1; cbn [app]; try constructor; assumption.
Qed.

Lemma sublist_In (l m : list dict) (x : dict) :
  sublist l m -> In x l -> In x m.
Proof.
  induction 1 as [|y l m _ IH|y l m _ IH]; intros H; [exact H| |].
  - right. now apply IH.
  - destruct H as [->|H]; [now left|right; now apply IH].
Qed.

(** What the loop over the items adds: the issues of the items that passed
    the test of the loop body, in the order of the items. *)
Lemma for_items_kept (f : dict -> dict) (Q : dict -> Prop)
  (body : list dict -> dict -> result (list dict)) (items : list dict) :
  (forall acc item acc',
      In item items -> body acc item = Ok acc' ->
      acc' = acc \/ (acc' = acc ++ [f item] /\ Q item)) ->
  forall acc out,
    for_items body acc items = Ok out ->
    exists kept, out = acc ++ map f kept
                 /\ sublist kept items /\ Forall Q kept.
Proof.
  induction items as [|item rest IH]; intros Hb acc out H.
  - simpl in H. apply Ok_inj in H. subst. exists [].
    rewrite app_nil_r. repeat split; constructor.
  - simpl in H. destruct (body acc item) as [acc'|e] eqn:E;
      [|discriminate H].
    cbn [bind] in H.
    destruct (IH (fun a i a' Hin => Hb a i a' (or_intror Hin)) acc' out H)
      as (kept & -> & Hs & Hk).
    destruct (Hb acc item acc' (or_introl eq_refl) E) as [->|[-> Hq]].
    + exists kept. split; [reflexivity|]. split; [now constructor|exact Hk].
    + exists (item :: kept). split; [now rewrite <- app_assoc|].
      split; [now constructor|now constructor].
Qed.

Lemma parse_date_only_bound (A : api) (u : string) (b : datetime) :
  parse_date_only A u = Ok b -> parse_bound A u = Ok b.
Proof.
  unfold parse_date_only, parse_bound.
  now destruct (strptime_date A u).
Qed.

Lemma dt_lt_false (a b : datetime) :
  dt_lt a b = Ok false -> (instant b <= instant a)%Z.
Proof.
  unfold dt_lt. destruct (Bool.eqb (aware a) (aware b)); [|discriminate].
  intros H. apply Ok_inj in H. now apply Z.ltb_ge.
Qed.

Lemma github_item_step (A : api) (until : option string)
  (acc acc' : list dict) (item : dict) :
  github_item A until acc item = Ok acc' ->
  acc' = acc \/
  (acc' = acc ++ [github_issue item]
   /\ not_pull_request item /\ before_until A until item).
Proof.
  unfold github_item, not_pull_request, before_until.
  destruct (has_key item "pull_request");
    [intros H; apply Ok_inj in H; now left|].
  destruct (created_of A item) as [t|e]; cbn [bind]; [|discriminate].
  destruct (supplied until) as [u|] eqn:Eu.
  - destruct (parse_date_only A u) as [b|e] eqn:Eb; cbn [bind];
      [|discriminate].
    destruct (dt_lt b t) as [later|e] eqn:El; cbn [bind]; [|discriminate].
    destruct later; intros H; apply Ok_inj in H;
      [now left|right].
    split; [now symmetry|]. split; [reflexivity|].
    exists t. split; [reflexivity|]. intros u' Hu'.
    assert (u' = u) by congruence. subst u'.
    exists b. split; [now apply parse_date_only_bound|].
    now apply dt_lt_false.
  - cbn [bind]. intros H. apply Ok_inj in H. right.
    split; [now symmetry|]. split; [reflexivity|].
    exists t. split; [reflexivity|]. intros u' Hu'. congruence.
Qed.

Lemma gitee_item_step (A : api) (since until : option string)
  (acc acc' : list dict) (item : dict) :
  gitee_item A since until acc item = Ok acc' ->
  acc' = acc \/
  (acc' = acc ++ [gitee_issue item]
   /\ not_pull_request item /\ in_window A since until item).
Proof.
  unfold gitee_item, not_pull_request, in_window.
  destruct (has_key item "pull_request");
    [intros H; apply Ok_inj in H; now left|].
  destruct (created_of A item) as [t|e]; cbn [bind]; [|discriminate].
  assert (Hs : forall early,
             match supplied since with
             | Some s => since_dt <- parse_bound A s ;; dt_lt t since_dt
             | None => Ok false
             end = Ok early ->
             early = false -> not_before A since t).
  { intros early H -> s Es. rewrite Es in H.
    destruct (parse_bound A s) as [b|e]; cbn [bind] in H; [|discriminate].
    exists b. split; [reflexivity|].
    now apply dt_lt_false. }
  destruct (match supplied since with Some _ => _ | None => _ end)
    as [early|e]; cbn [bind]; [|discriminate].
  specialize (Hs early eq_refl).
  destruct early; [intros H; apply Ok_inj in H; now left|].
  assert (Hu : forall later,
             match supplied until with
             | Some u => until_dt <- parse_bound A u ;; dt_lt until_dt t
             | None => Ok false
             end = Ok later ->
             later = false -> not_after A until t).
  { intros later H -> u Eu. rewrite Eu in H.
    destruct (parse_bound A u) as [b|e]; cbn [bind] in H; [|discriminate].
    exists b. split; [reflexivity|].
    now apply dt_lt_false. }
  destruct (match supplied until with Some _ => _ | None => _ end)
    as [later|e]; cbn [bind]; [|discriminate].
  specialize (Hu later eq_refl).
  destruct later; intros H; apply Ok_inj in H; [now left|right].
  split; [now symmetry|]. split; [reflexivity|].
  exists t. auto.
Qed.

(** The GitLab loop body tests nothing about the item but that its
    creation time can be read. *)
Lemma gitlab_items_all (A : api) (c : collector) (items : list dict) :
  forall acc out,
    for_items (gitlab_item A c) acc items = Ok out ->
    out = acc ++ map (gitlab_issue c) items
    /\ Forall (fun it => exists t, created_of A it = Ok t) items.
Proof.
  induction items as [|item rest IH]; intros acc out H.
  - simpl in H. apply Ok_inj in H. subst. now rewrite app_nil_r.
  - cbn [for_items] in H. unfold gitlab_item at 1 in H.
    destruct (created_of A item) as [t|e] eqn:Et; cbn [bind] in H;
      [|discriminate H].
    destruct (IH _ _ H) as [-> F]. split.
    + cbn [map]. now rewrite <- app_assoc.
    + constructor; [now exists t|exact F].
Qed.

(** The issue keeps the creation time of the item it is built from. *)
Lemma created_of_issue (A : api) (item : dict) (t : datetime)
  (f : dict -> dict) :
  lookup (f item) "created_at" = Some (get item "created_at") ->
  created_of A item = Ok t -> created_of A (f item) = Ok t.
Proof.
  unfold created_of. intros -> H. unfold get, get_or.
  destruct (lookup item "created_at"); [exact H|discriminate].
Qed.

Lemma Forall_weaken (Q R : dict -> Prop) (l : list dict) :
  (forall x, Q x -> R x) -> Forall Q l -> Forall R l.
Proof. intros H F. eapply Forall_impl; eassumption. Qed.

Lemma served_cons (get_page : nat -> response) (page : nat)
  (items : list dict) (pages : list (list dict)) :
  get_page page = HttpJson items ->
  served get_page (S page) pages ->
  served get_page page (items :: pages).
Proof.
  intros H0 Hs [|i] Hi.
  - now rewrite Nat.add_0_r.
  - cbn [nth]. rewrite Nat.add_succ_r. apply Hs. simpl in Hi. lia.
Qed.

(** The Gitee loop adds issues of fetched items that passed its tests, in
    the order of the pages and of the items on them. *)
Lemma gitee_pages_kept (A : api) (c : collector) (state : string)
  (per_page : Z) (since until : option string) (fuel : nat) :
  forall page acc out,
    gitee_pages fuel A c state per_page since until page acc
    = Some (Ok out) ->
    exists pages kept,
      served (fun p => http_get A (gitee_request c state per_page p))
        page pages
      /\ out = acc ++ map gitee_issue kept
      /\ sublist kept (List.concat pages)
      /\ Forall (fun it => not_pull_request it
                           /\ in_window A since until it) kept.
Proof.
  induction fuel as [|fuel IH]; intros page acc out H; [discriminate H|].
  cbn [gitee_pages] in H.
  destruct (http_get A (gitee_request c state per_page page))
    as [| |items] eqn:Eg; [discriminate H|discriminate H|].
  destruct items as [|i r].
  - apply Some_inj in H. apply Ok_inj in H. subst. exists [], [].
    rewrite app_nil_r. split; [intros j Hj; simpl in Hj; lia|].
    repeat split; constructor.
  - destruct (for_items (gitee_item A since until) acc (i :: r))
      as [acc'|e] eqn:Ef; [|discriminate H].
    destruct (for_items_kept gitee_issue
                (fun it => not_pull_request it
                           /\ in_window A since until it)
                (gitee_item A since until) (i :: r)
                (fun a it a' _ Hb => gitee_item_step A since until a a' it Hb)
                acc acc' Ef) as (k1 & -> & S1 & F1).
    destruct (IH (S page) _ out H) as (pages & k2 & Hp & -> & S2 & F2).
    exists ((i :: r) :: pages), (k1 ++ k2). split.
    + now apply (served_cons
                   (fun p => http_get A (gitee_request c state per_page p))).
    + split; [now rewrite map_app, app_assoc|]. split.
      * cbn [List.concat]. now apply sublist_app.
      * apply Forall_app. now split.
Qed.

(** The GitLab loop adds an issue for every item of every page. *)
Lemma gitlab_pages_all (A : api) (c : collector) (state : string)
  (per_page : Z) (after before : option string) (fuel : nat) :
  forall page acc out,
    gitlab_pages fuel A c state per_page after before page acc
    = Some (Ok out) ->
    exists pages,
      served (fun p => http_get A (gitlab_request c state per_page after
                                     before p)) page pages
      /\ out = acc ++ map (gitlab_issue c) (List.concat pages).
Proof.
  induction fuel as [|fuel IH]; intros page acc out H; [discriminate H|].
  cbn [gitlab_pages] in H.
  destruct (http_get A (gitlab_request c state per_page after before page))
    as [| |items] eqn:Eg;
    [destruct (Nat.eqb page 1); discriminate H|discriminate H|].
  destruct items as [|i r].
  - apply Some_inj in H. apply Ok_inj in H. subst. exists [].
    rewrite app_nil_r. split; [intros j Hj; simpl in Hj; lia|reflexivity].
  - destruct (for_items (gitlab_item A c) acc (i :: r))
      as [acc'|e] eqn:Ef; [|discriminate H].
    apply gitlab_items_all in Ef as [-> _].
    destruct (IH (S page) _ out H) as (pages & Hp & ->).
    exists ((i :: r) :: pages). split.
    + now apply (served_cons
                   (fun p => http_get A (gitlab_request c state per_page
                                           after before p))).
    + cbn [List.concat]. now rewrite map_app, app_assoc.
Qed.

Lemma github_kept (A : api) (c : collector) (state : string) (per_page : Z)
  (since until : option string) (issues : list dict) :
  github_fetch_recent A c state per_page since until = Ok issues ->
  exists items kept,
    http_get A (github_request A c state per_page since) = HttpJson items
    /\ issues = map github_issue kept
    /\ sublist kept items
    /\ Forall (fun it => not_pull_request it /\ before_until A until it)
         kept.
Proof.
  unfold github_fetch_recent. destruct (negb (configured c));
    [discriminate|].
  destruct (http_get A (github_request A c state per_page since))
    as [| |items]; [discriminate|discriminate|].
  intros H.
  destruct (for_items_kept github_issue
              (fun it => not_pull_request it /\ before_until A until it)
              (github_item A until) items
              (fun a it a' _ Hb => github_item_step A until a a' it Hb)
              [] issues H) as (kept & -> & Hs & F).
  now exists items, kept.
Qed.

Lemma in_window_issue (A : api) (since until : option string)
  (f : dict -> dict) (item : dict) :
  lookup (f item) "created_at" = Some (get item "created_at") ->
  in_window A since until item -> in_window A since until (f item).
Proof.
  intros Hf (t & Ht & H1 & H2). exists t. split; [|now split].
  now apply created_of_issue.
Qed.

End CollectFacts.

(** C4 at a failing input: the upstream holds two pages of one issue each
    and an empty third page.  The GitHub variant sends one request and
    returns the issue of the first page only; the Gitee and GitLab variants
    go on to the empty page and return both issues. *)
Theorem github_fetches_one_page_only :
  let A := CollectSpec.paged [[CollectSpec.item_jan]; [CollectSpec.item_feb]] in
  let c := CollectSpec.sample_collector in
  Collect.github_fetch_recent A c "open" 100 None None
  = Py.Ok [Collect.github_issue CollectSpec.item_jan]
  /\ Collect.gitee_fetch_recent 3 A c "open" 100 None None
     = Some (Py.Ok [Collect.gitee_issue CollectSpec.item_jan;
                    Collect.gitee_issue CollectSpec.item_feb])
  /\ Collect.gitlab_fetch_recent 3 A c "opened" 100 None None
     = Some (Py.Ok [Collect.gitlab_issue c CollectSpec.item_jan;
                    Collect.gitlab_issue c CollectSpec.item_feb]).
Proof. repeat split; vm_compute; reflexivity. Qed.

(** C5 at a failing input.  The GitHub variant does not compare the
    creation time with the lower bound: it sends the bound as the query
    parameter [since], which the issues endpoint of GitHub applies to the
    time of the last update.  Here the upstream holds one issue, created on
    15 January 2024 and updated on 10 February 2024, and the window starts
    on 1 February 2024.  The upstream applies the parameter it is sent and
    answers with the issue; the GitHub variant returns it, although it was
    created before the lower bound.  The Gitee variant, given the same
    item, compares the creation time itself and returns nothing. *)
Theorem github_returns_issue_created_before_since :
  let A := CollectSpec.updated_since [CollectSpec.item_touched] in
  let c := CollectSpec.sample_collector in
  let since := Some "2024-02-01" in
  Collect.rq_since (Collect.github_request A c "open" 100 since)
  = Some "2024-02-01T00:00:00+00:00"
  /\ Collect.http_get A (Collect.github_request A c "open" 100 since)
     = Collect.HttpJson [CollectSpec.item_touched]
  /\ Collect.github_fetch_recent A c "open" 100 since None
     = Py.Ok [Collect.github_issue CollectSpec.item_touched]
  /\ ~ CollectSpec.in_window A since None
         (Collect.github_issue CollectSpec.item_touched)
  /\ Collect.gitee_fetch_recent 2 A c "open" 100 since None
     = Some (Py.Ok []).
Proof.
  intros A c since.
  split; [vm_compute; reflexivity|].
  split; [vm_compute; reflexivity|].
  split; [vm_compute; reflexivity|].
  split; [|vm_compute; reflexivity].
  intros (t & Ht & Hb & _).
  destruct (Hb "2024-02-01" eq_refl) as (b & Eb & Hle).
  vm_compute in Ht. apply PyFacts.Ok_inj in Ht. subst t.
  vm_compute in Eb. apply PyFacts.Ok_inj in Eb. subst b.
  vm_compute in Hle. now apply Hle.
Qed.

(** What the variants compare themselves.  Every issue the Gitee variant
    returns lies in the window, whatever the upstream answers.  Every issue
    the GitHub variant returns lies before the upper bound.  The GitLab
    variant compares nothing (lemma [CollectFacts.gitlab_pages_all]). *)
Lemma fetch_recent_own_comparisons (A : Collect.api) (c : Collect.collector)
  (state : string) (per_page : Z) (since until : option string)
  (fuel : nat) :
  (forall issues,
      Collect.gitee_fetch_recent fuel A c state per_page since until
      = Some (Py.Ok issues) ->
      Forall (CollectSpec.in_window A since until) issues)
  /\ (forall issues,
         Collect.github_fetch_recent A c state per_page since until
         = Py.Ok issues ->
         Forall (CollectSpec.before_until A until) issues).
Proof.
  split.
  - intros issues H. unfold Collect.gitee_fetch_recent in H.
    destruct (negb (Collect.configured c)); [discriminate H|].
    apply CollectFacts.gitee_pages_kept in H
      as (pages & kept & _ & -> & _ & F).
    cbn [app]. apply Forall_map.
    eapply CollectFacts.Forall_weaken; [|exact F].
    intros it [_ Hw].
    now apply CollectFacts.in_window_issue.
  - intros issues H.
    apply CollectFacts.github_kept in H
      as (items & kept & Eg & -> & _ & F).
    apply Forall_map. eapply CollectFacts.Forall_weaken; [|exact F].
    intros it [_ (t & Ht & Hu)]. exists t. split; [|exact Hu].
    now apply CollectFacts.created_of_issue.
Qed.


(** What the variants do about the flag, for every upstream.  The issues
    the GitHub and the Gitee variant return are built from fetched items
    that do not carry the key [pull_request], in the order in which the
    upstream served them, none of them twice.  The GitLab variant returns
    one issue for every item of every page it fetched. *)
Lemma pull_requests_excluded (A : Collect.api) (c : Collect.collector)
  (state : string) (per_page : Z) (since until : option string)
  (fuel : nat) :
  (forall issues,
      Collect.github_fetch_recent A c state per_page since until
      = Py.Ok issues ->
      exists items kept,
        Collect.http_get A (Collect.github_request A c state per_page since)
        = Collect.HttpJson items
        /\ issues = map Collect.github_issue kept
        /\ CollectSpec.sublist kept items
        /\ Forall CollectSpec.not_pull_request kept)
  /\ (forall issues,
         Collect.gitee_fetch_recent fuel A c state per_page since until
         = Some (Py.Ok issues) ->
         exists pages kept,
           CollectSpec.served
             (fun p => Collect.http_get A
                         (Collect.gitee_request c state per_page p))
             1 pages
           /\ issues = map Collect.gitee_issue kept
           /\ CollectSpec.sublist kept (List.concat pages)
           /\ Forall CollectSpec.not_pull_request kept)
  /\ (forall after before issues,
         Collect.gitlab_pages fuel A c state per_page after before 1 []
         = Some (Py.Ok issues) ->
         exists pages,
           CollectSpec.served
             (fun p => Collect.http_get A
                         (Collect.gitlab_request c state per_page after
                            before p))
             1 pages
           /\ issues = map (Collect.gitlab_issue c) (List.concat pages)).
Proof.
  split; [|split].
  - intros issues H.
    apply CollectFacts.github_kept in H
      as (items & kept & Eg & -> & Hs & F).
    exists items, kept. split; [exact Eg|]. split; [reflexivity|].
    split; [exact Hs|].
    eapply CollectFacts.Forall_weaken; [|exact F]. now intros it [? _].
  - intros issues H. unfold Collect.gitee_fetch_recent in H.
    destruct (negb (Collect.configured c)); [discriminate H|].
    apply CollectFacts.gitee_pages_kept in H
      as (pages & kept & Hp & -> & Hs & F).
    exists pages, kept. split; [exact Hp|]. split; [reflexivity|].
    split; [exact Hs|].
    eapply CollectFacts.Forall_weaken; [|exact F]. now intros it [? _].
  - intros after before issues H.
    apply CollectFacts.gitlab_pages_all in H as (pages & Hp & ->).
    now exists pages.
Qed.

(* ================================================================= *)
(** ** Merge and orchestration *)

Module PipelineFacts.
Import Py Storage Pipeline PipelineSpec PyFacts.

(** [process_issue] returns the merged record whenever the body of the
    issue is a text. *)
Lemma process_issue_merge (E : env) (issue : dict) (raw : string) :
  as_str (py_or (get_or issue "body" (PStr "")) (PStr "")) = Ok raw ->
  exists llm_res,
    LLM.llm_extract (defaults E) (llm E) (clean E raw) true
    = Ok (PDict llm_res)
    /\ process_issue E issue
       = Ok (merge issue (clean E raw)
               (Rules.extract_version (clean E raw))
               (Rules.extract_steps_by_heading (clean E raw)) llm_res).
Proof.
  intros Hraw.
  destruct (LLMFacts.llm_extract_returns_dict (defaults E) (llm E)
              (clean E raw)) as (d & Hd).
  exists d. split; [exact Hd|].
  unfold process_issue. rewrite Hraw. cbn [bind]. rewrite Hd. reflexivity.
Qed.

Lemma process_issue_inv (E : env) (issue doc : dict) :
  process_issue E issue = Ok doc ->
  exists cleaned version steps llm_res,
    doc = merge issue cleaned version steps llm_res.
Proof.
  unfold process_issue.
  destruct (as_str _) as [raw|e]; cbn [bind]; [|discriminate].
  destruct (LLM.llm_extract _ _ _ _) as [v|e]; cbn [bind]; [|discriminate].
  destruct (as_dict v) as [d|e]; cbn [bind]; [|discriminate].
  intros H. apply Ok_inj in H. subst doc. now do 4 eexists.
Qed.

Lemma get_connection_inv (w w1 : world) (r : result unit) :
  get_connection w = (r, w1) ->
  srv w1 = srv w /\ log w1 = log w /\ (r = Ok tt -> conn w1 = Open).
Proof.
  unfold get_connection.
  destruct (conn w) eqn:Ec; [destruct (up (srv w))| |destruct (up (srv w))];
    intros H; apply pair_inj in H as [<- <-]; repeat split; auto;
    discriminate.
Qed.

Lemma is_duplicate_inv (w w1 : world) (repo issue : pyval) (b : bool) :
  is_duplicate w repo issue = (Ok b, w1) ->
  srv w1 = srv w /\ log w1 = log w
  /\ (truthy repo = true -> truthy issue = true ->
      up (srv w) = true /\ b = stored (srv w) repo issue).
Proof.
  unfold is_duplicate.
  destruct (truthy repo && truthy issue)%bool eqn:Et; cbn [negb].
  - destruct (get_connection w) as [[[]|e] w0] eqn:Eg.
    + apply get_connection_inv in Eg as (Es & El & _).
      rewrite Es.
      destruct (up (srv w) && bindable repo && bindable issue)%bool eqn:Eu.
      * intros H. apply pair_inj in H as [H <-]. apply Ok_inj in H.
        split; [exact Es|]. split; [exact El|]. intros _ _.
        apply andb_true_iff in Eu as [Eu _].
        apply andb_true_iff in Eu as [Eu _].
        split; [exact Eu|]. now symmetry.
      * intros H. apply pair_inj in H as [H _]. discriminate H.
    + intros H. apply pair_inj in H as [H _]. discriminate H.
  - intros H. apply pair_inj in H as [H <-].
    split; [reflexivity|]. split; [reflexivity|].
    intros Hr Hi. rewrite Hr, Hi in Et. discriminate Et.
Qed.

Lemma insert_one_ok_inv (w w' : world) (doc : dict) (r : option Z) :
  insert_one w doc = (Ok r, w') ->
  up (srv w) = true /\ truthy (get doc "repo_id") = true
  /\ truthy (get doc "issue_id") = true
  /\ StorageSpec.can_bind doc = true.
Proof.
  intros H.
  destruct (truthy (get doc "repo_id")) eqn:Hr;
    [|rewrite StorageFacts.insert_one_invalid in H by auto;
      apply pair_inj in H as [H _]; discriminate H].
  destruct (truthy (get doc "issue_id")) eqn:Hi;
    [|rewrite StorageFacts.insert_one_invalid in H by auto;
      apply pair_inj in H as [H _]; discriminate H].
  destruct (up (srv w)) eqn:Hup.
  - split; [reflexivity|]. split; [reflexivity|]. split; [reflexivity|].
    destruct (StorageSpec.can_bind doc) eqn:Hb; [reflexivity|].
    rewrite StorageFacts.insert_one_unbindable in H by assumption.
    apply pair_inj in H as [H _]. discriminate H.
  - exfalso. unfold insert_one in H. rewrite Hr, Hi in H.
    cbn [negb orb] in H. unfold get_connection in H.
    destruct (conn w); rewrite ?Hup in H; cbn [srv with_conn andb] in H;
      rewrite ?Hup in H; cbn [andb] in H;
      apply pair_inj in H as [H _]; discriminate H.
Qed.

Lemma inserted_count_app (a b : list event) :
  inserted_count (a ++ b) = (inserted_count a + inserted_count b)%Z.
Proof.
  induction a as [|[repo issue [id|]] a IH];
    cbn [inserted_count app]; try rewrite IH; lia.
Qed.

Lemma row_count_srv (w w' : world) :
  srv w' = srv w -> StorageSpec.row_count w' = StorageSpec.row_count w.
Proof. unfold StorageSpec.row_count. now intros ->. Qed.

(** The loop: the count grows by the number of inserts that returned an
    identifier, so does the number of rows, and every call of [insert_one]
    returned one. *)
Lemma for_issues_count (E : env) (repo : pyval) (issues : list dict) :
  forall num w n w',
    for_issues E repo num issues w = (Ok n, w') ->
    exists new,
      log w' = new ++ log w
      /\ n = (num + inserted_count new)%Z
      /\ Z.of_nat (StorageSpec.row_count w')
         = (Z.of_nat (StorageSpec.row_count w) + inserted_count new)%Z
      /\ Forall generated_some new.
Proof.
  induction issues as [|issue rest IH]; intros num w n w' H.
  - simpl in H. apply pair_inj in H as [H <-]. apply Ok_inj in H.
    exists []. simpl. repeat split; auto; lia.
  - cbn [for_issues] in H.
    destruct (is_duplicate w repo (get issue "issue_id"))
      as [[b|e] w1] eqn:Ed;
      [|apply pair_inj in H as [H _]; discriminate H].
    destruct (is_duplicate_inv _ _ _ _ _ Ed) as (Es1 & El1 & Hd).
    destruct b.
    + destruct (IH _ _ _ _ H) as (new & L & N & R & F).
      exists new. rewrite L, El1, R, (row_count_srv _ _ Es1).
      repeat split; auto.
    + destruct (process_issue E issue) as [doc|e] eqn:Ep;
        [|apply pair_inj in H as [H _]; discriminate H].
      destruct (insert_one w1 (set doc "repo_id" repo))
        as [[g|e] w2] eqn:Ei;
        [|apply pair_inj in H as [H _]; discriminate H].
      destruct (insert_one_ok_inv _ _ _ _ Ei) as (Hup & Hr & Hi & Hbind).
      destruct (StorageFacts.insert_one_up w1 (set doc "repo_id" repo)
                  Hup Hr Hi Hbind)
        as (g' & w2' & Ei' & _ & _ & Hlog & _ & Hnew).
      rewrite Ei in Ei'. apply pair_inj in Ei' as [Eg <-].
      apply Ok_inj in Eg. subst g'.
      (* the key was not stored when the check ran *)
      assert (Hfresh : stored (srv w1) (get (set doc "repo_id" repo) "repo_id")
                         (get (set doc "repo_id" repo) "issue_id") = false).
      { apply process_issue_inv in Ep as (cl & ve & st & lr & ->).
        rewrite DictFacts.get_set_same in *.
        rewrite DictFacts.get_set_other in * by discriminate.
        change (get (merge issue cl ve st lr) "issue_id")
          with (get issue "issue_id") in *.
        destruct (Hd Hr Hi) as [_ Hb]. rewrite Es1. now symmetry. }
      destruct (Hnew Hfresh) as [-> Erows].
      destruct (IH _ _ _ _ H) as (new & L & N & R & F).
      exists (new ++ [Inserted (get (set doc "repo_id" repo) "repo_id")
                        (get (set doc "repo_id" repo) "issue_id")
                        (Some (auto_increment (srv w1)))]).
      rewrite inserted_count_app. cbn [inserted_count].
      split; [rewrite L, Hlog, El1; now rewrite <- app_assoc|].
      split; [lia|]. split.
      * rewrite R. unfold StorageSpec.row_count at 1.
        rewrite Erows, length_app, Es1. cbn [List.length].
        unfold StorageSpec.row_count. lia.
      * apply Forall_app. split; [exact F|].
        constructor; [discriminate|constructor].
Qed.

Lemma get_token_inv (w w1 : world) (platform : string)
  (r : result (option string)) :
  get_token w platform = (r, w1) -> srv w1 = srv w /\ log w1 = log w.
Proof.
  unfold get_token.
  destruct (get_connection w) as [[[]|e] w0] eqn:Eg;
    apply get_connection_inv in Eg as (Es & El & _).
  - destruct (up (srv w0)); intros H; apply pair_inj in H as [_ <-];
      now split.
  - intros H. apply pair_inj in H as [_ <-]. now split.
Qed.

End PipelineFacts.

(** C7: whenever the body of the issue is a text, [process_issue] returns
    the merged record.  Its version is the version of the LLM result if
    that is not empty, else the version the rule found, else nothing, which
    [insert_one] stores as the empty text; its severity is the severity of
    the LLM result if that is not empty, else UnKnow.  With an empty LLM
    severity and LLM version and the rule version 1.2.0, the record and the
    stored row have severity UnKnow and version 1.2.0. *)
Theorem merge_version_and_severity (E : Pipeline.env) (issue : Py.dict)
  (raw : string) :
  Pipeline.as_str (Py.py_or (Py.get_or issue "body" (Py.PStr ""))
                     (Py.PStr "")) = Py.Ok raw ->
  exists llm_res doc,
    LLM.llm_extract (Pipeline.defaults E) (Pipeline.llm E)
      (Pipeline.clean E raw) true = Py.Ok (Py.PDict llm_res)
    /\ Pipeline.process_issue E issue = Py.Ok doc
    /\ Py.get doc "version"
       = (if Py.truthy (Py.get llm_res "version")
          then Py.get llm_res "version"
          else match Rules.extract_version (Pipeline.clean E raw) with
               | Some v => Py.PStr v
               | None => Py.PNone
               end)
    /\ Py.get doc "severity"
       = (if Py.truthy (Py.get llm_res "severity")
          then Py.get llm_res "severity"
          else Py.PStr "UnKnow")
    /\ (Py.truthy (Py.get llm_res "version") = false ->
        Rules.extract_version (Pipeline.clean E raw) = None ->
        forall clock repo,
          Storage.version
            (Storage.params clock (Py.set doc "repo_id" repo))
          = Py.PStr "")
    /\ (Py.truthy (Py.get llm_res "severity") = false ->
        Py.truthy (Py.get llm_res "version") = false ->
        Rules.extract_version (Pipeline.clean E raw) = Some "1.2.0" ->
        Py.get doc "severity" = Py.PStr "UnKnow"
        /\ Py.get doc "version" = Py.PStr "1.2.0"
        /\ forall clock repo,
            Storage.severity
              (Storage.params clock (Py.set doc "repo_id" repo))
            = Py.PStr "UnKnow"
            /\ Storage.version
                 (Storage.params clock (Py.set doc "repo_id" repo))
               = Py.PStr "1.2.0").
Proof.
  intros Hraw.
  destruct (PipelineFacts.process_issue_merge E issue raw Hraw)
    as (llm_res & Hl & Hp).
  eexists llm_res, _. split; [exact Hl|]. split; [exact Hp|].
  set (cleaned := Pipeline.clean E raw).
  set (doc := Pipeline.merge issue cleaned _ _ llm_res).
  assert (Hv : Py.get doc "version"
               = Py.py_or (Py.get llm_res "version")
                   (Pipeline.optional (Rules.extract_version cleaned)))
    by reflexivity.
  assert (Hs : Py.get doc "severity"
               = Py.py_or (Py.get llm_res "severity") (Py.PStr "UnKnow"))
    by reflexivity.
  assert (Hcol : forall clock repo,
             Storage.version
               (Storage.params clock (Py.set doc "repo_id" repo))
             = Py.py_or (Py.get doc "version") (Py.PStr "")
             /\ Storage.severity
                  (Storage.params clock (Py.set doc "repo_id" repo))
                = Py.py_or (Py.get doc "severity") (Py.PStr "Unknown")).
  { intros clock repo. cbn [Storage.params Storage.version Storage.severity].
    now rewrite !DictFacts.get_set_other by discriminate. }
  unfold Py.py_or in Hv, Hs. split; [exact Hv|]. split; [exact Hs|]. split.
  - intros Hlv Hrv clock repo. destruct (Hcol clock repo) as [-> _].
    rewrite Hv, Hlv, Hrv. reflexivity.
  - intros Hls Hlv Hrv. rewrite Hls in Hs. rewrite Hlv, Hrv in Hv.
    split; [exact Hs|]. split; [exact Hv|]. intros clock repo.
    destruct (Hcol clock repo) as [-> ->]. rewrite Hv, Hs. now split.
Qed.

Lemma merge_version_and_severity_witness :
  exists doc,
    Pipeline.process_issue PipelineSpec.sample_env PipelineSpec.sample_issue
    = Py.Ok doc
    /\ Py.get doc "severity" = Py.PStr "UnKnow"
    /\ Py.get doc "version" = Py.PStr "1.2.0".
Proof.
  destruct (merge_version_and_severity PipelineSpec.sample_env
              PipelineSpec.sample_issue "Crash in release 1.2.0 on start"
              eq_refl)
    as (llm_res & doc & Hl & Hp & _ & _ & _ & Hsc).
  exists doc. split; [exact Hp|].
  assert (El : llm_res = LLM.DEFAULT_SCHEMA PipelineSpec.blank_defaults).
  { assert (X : LLM.llm_extract PipelineSpec.blank_defaults
                  (LLMSpec.failing_model Py.TimeoutError)
                  (Pipeline.clean PipelineSpec.sample_env
                     "Crash in release 1.2.0 on start") true
                = Py.Ok (Py.PDict
                           (LLM.DEFAULT_SCHEMA PipelineSpec.blank_defaults)))
      by (vm_compute; reflexivity).
    change (Pipeline.defaults PipelineSpec.sample_env)
      with PipelineSpec.blank_defaults in Hl.
    change (Pipeline.llm PipelineSpec.sample_env)
      with (LLMSpec.failing_model Py.TimeoutError) in Hl.
    rewrite X in Hl. apply PyFacts.Ok_inj in Hl.
    now injection Hl. }
  subst llm_res.
  destruct Hsc as (H1 & H2 & _);
    [reflexivity|reflexivity|vm_compute; reflexivity|].
  now split.
Defined.

(** C9, as stated, fails: with a platform tag other than the three known
    ones [run_once] returns no value at all, not a count. *)
Lemma run_once_unknown_platform_returns_none :
  exists w,
    Pipeline.run_once 0 PipelineSpec.sample_env StorageSpec.fresh_server
      "itexp" "gogogo" None None (Py.PStr "bitbucket") "open"
      (Py.PStr "1123")
    = Some (Py.Ok Py.PNone, w).
Proof. eexists. vm_compute. reflexivity. Qed.

(** C9, amended: for a platform tag among github, gitee and gitlab, a run
    that returns gives back the number of calls of [insert_one] that
    returned a generated identifier, which is the number of rows the run
    added; issues found stored are skipped, so every call it made returned
    an identifier.  For any other tag the run returns no value and stores
    nothing. *)
Theorem run_once_returns_inserted_count (fuel : nat) (E : Pipeline.env)
  (s : Storage.server) (owner repo : string) (since until : option string)
  (platform : Py.pyval) (state : string) (repo_id v : Py.pyval)
  (w' : Storage.world) :
  Pipeline.run_once fuel E s owner repo since until platform state repo_id
  = Some (Py.Ok v, w') ->
  (Pipeline.platform_of platform <> None ->
   v = Py.PInt (PipelineSpec.inserted_count (Storage.log w'))
   /\ Z.of_nat (StorageSpec.row_count w')
      = (Z.of_nat (List.length (Storage.standardized_defect s))
         + PipelineSpec.inserted_count (Storage.log w'))%Z
   /\ Forall PipelineSpec.generated_some (Storage.log w'))
  /\ (Pipeline.platform_of platform = None ->
      v = Py.PNone /\ Storage.srv w' = s /\ Storage.log w' = []).
Proof.
  unfold Pipeline.run_once.
  set (client := {| Storage.srv := s; Storage.conn := Storage.NoConnection;
                    Storage.log := [] |}).
  destruct (Pipeline.platform_of platform) as [p|].
  2: { intros H. apply PyFacts.Some_inj in H.
       apply PyFacts.pair_inj in H as [H <-].
       apply PyFacts.Ok_inj in H. subst v.
       split; [intros X; now elim X|]. intros _. now repeat split. }
  destruct (Storage.get_token client (Pipeline.tag_of p))
    as [[token|e] w1] eqn:Et.
  2: { intros H. apply PyFacts.Some_inj in H.
       apply PyFacts.pair_inj in H as [H _]. discriminate H. }
  apply PipelineFacts.get_token_inv in Et as (Es & El).
  intros H. split; [intros _|intros X; discriminate X].
  assert (G : exists issues,
             Pipeline.for_issues E repo_id 0 issues w1
             = (Py.Ok (match v with Py.PInt n => n | _ => 0%Z end), w')
             /\ exists n, v = Py.PInt n).
  { destruct p, token as [t|];
      try (apply PyFacts.Some_inj in H;
           apply PyFacts.pair_inj in H as [H _]; discriminate H);
      match type of H with
      | match ?f with _ => _ end = _ =>
          destruct f as [[issues|e]|]; try discriminate H;
          try (apply PyFacts.Some_inj in H;
               apply PyFacts.pair_inj in H as [H _];
               discriminate H);
          destruct (Pipeline.for_issues E repo_id 0 issues w1)
            as [[n|e] w2] eqn:Ef;
          apply PyFacts.Some_inj in H;
          apply PyFacts.pair_inj in H as [H Hw];
          try discriminate H;
          apply PyFacts.Ok_inj in H; subst v w2;
          exists issues; split; [exact Ef|now exists n]
      end. }
  destruct G as (issues & Hf & n & ->).
  apply PipelineFacts.for_issues_count in Hf as (new & L & N & R & F).
  rewrite El in L. cbn [Storage.log client] in L. rewrite app_nil_r in L.
  rewrite L. split; [f_equal; lia|]. split; [|exact F].
  rewrite R. unfold StorageSpec.row_count. rewrite Es. reflexivity.
Qed.

Lemma run_once_returns_inserted_count_witness :
  exists w',
    Pipeline.run_once 2 PipelineSpec.sample_env StorageSpec.fresh_server
      "itexp" "gogogo" None None (Py.PStr "github") "open" (Py.PStr "1123")
    = Some (Py.Ok (Py.PInt 2), w')
    /\ StorageSpec.row_count w' = 2%nat.
Proof.
  eexists. split; [vm_compute; reflexivity|].
  match goal with
  | |- StorageSpec.row_count ?w = _ =>
      destruct (proj1 (run_once_returns_inserted_count 2
                         PipelineSpec.sample_env StorageSpec.fresh_server
                         "itexp" "gogogo" None None (Py.PStr "github")
                         "open" (Py.PStr "1123") (Py.PInt 2) w
                         ltac:(vm_compute; reflexivity))
                  ltac:(discriminate)) as (_ & R & _)
  end.
  apply Nat2Z.inj. rewrite R. vm_compute. reflexivity.
Defined.

(* ================================================================= *)
(** * Further properties of the code *)

(* ================================================================= *)
(** ** TextNormalizer and RuleExtractor: shape of the results *)

Module MoreCleanFacts.
Import Text Clean CleanSpec CleanFacts.

Lemma collapse_punct_length (l : list ascii) :
  List.length (collapse_punct l) <= List.length l.
Proof.
  induction l as [|c r IH]; [simpl; lia|].
  destruct r as [|d r']; [rewrite collapse_punct_1; simpl; lia|].
  rewrite collapse_punct_2.
  destruct (is_punct c && is_punct d)%bool; simpl in *; lia.
Qed.

Lemma normalize_chars_length (l : list ascii) :
  List.length (normalize_chars l) <= List.length l.
Proof.
  unfold normalize_chars, trim_edges.
  pose proof (strip_chars_length
                (collapse_ws
                   (trim_trailing_sym
                      (drop_while is_sym (collapse_punct (map to_lower l)))))).
  pose proof (collapse_ws_length
                (trim_trailing_sym
                   (drop_while is_sym (collapse_punct (map to_lower l))))).
  pose proof (trim_trailing_sym_length
                (drop_while is_sym (collapse_punct (map to_lower l)))).
  pose proof (drop_while_length is_sym (collapse_punct (map to_lower l))).
  pose proof (collapse_punct_length (map to_lower l)).
  rewrite length_map in *. lia.
Qed.

End MoreCleanFacts.

(** X1: whatever the input, the text [normalize_text] returns is in lower
    case, has no two characters of the punctuation class side by side, has
    single blanks as its only white space, and neither starts nor ends with
    white space. *)
Theorem normalize_text_output_shape (s : string) :
  CleanSpec.normal_form (Text.chars (Clean.normalize_text s)).
Proof.
  rewrite CleanFacts.normalize_text_chars, CleanFacts.chars_text.
  apply CleanFacts.normalize_chars_normal_form.
Qed.

(** X2: on a text whose code points all lie below 256, [normalize_text]
    never returns a longer text.  (Above that range [str.lower] can put two
    code points for one.) *)
Theorem normalize_text_not_longer (s : string) :
  String.length (Clean.normalize_text s) <= String.length s.
Proof.
  rewrite CleanFacts.normalize_text_chars, CleanFacts.length_text.
  rewrite <- (CleanFacts.text_chars s) at 2.
  rewrite CleanFacts.length_text.
  apply MoreCleanFacts.normalize_chars_length.
Qed.

Module RulesFacts.
Import Text Rules.

Lemma take_while_none (p : ascii -> bool) (l : list ascii) :
  Forall (fun c => p c = false) l -> take_while p l = [].
Proof.
  destruct 1 as [|c r Hc _]; [reflexivity|]. simpl. now rewrite Hc.
Qed.

Lemma Forall_skipn_chars (P : ascii -> Prop) (n : nat) (l : list ascii) :
  Forall P l -> Forall P (skipn n l).
Proof.
  revert l. induction n as [|n IH]; intros l H; [exact H|].
  destruct l as [|c r]; [constructor|]. simpl. apply IH.
  now inversion H.
Qed.

Lemma match_version_needs_digit (prev : option ascii) (l : list ascii) :
  Forall (fun c => is_digit c = false) l -> match_version_at prev l = None.
Proof.
  intros H. unfold match_version_at.
  set (v := match l with [] => [] | c :: _ => if is_v c then [c] else [] end).
  rewrite (take_while_none is_digit (skipn (List.length v) l))
    by now apply Forall_skipn_chars.
  reflexivity.
Qed.

Lemma search_version_needs_digit (l : list ascii) :
  forall prev,
    Forall (fun c => is_digit c = false) l -> search_version prev l = None.
Proof.
  induction l as [|c r IH]; intros prev H.
  - reflexivity.
  - cbn [search_version]. rewrite (match_version_needs_digit prev _ H).
    apply IH. now inversion H.
Qed.

End RulesFacts.

(** X3: a text without a digit has no version: [extract_version] returns
    none. *)
Theorem extract_version_needs_digit (s : string) :
  Forall (fun c => Text.is_digit c = false) (Text.chars s) ->
  Rules.extract_version s = None.
Proof.
  intros H. unfold Rules.extract_version.
  now rewrite RulesFacts.search_version_needs_digit.
Qed.

Lemma extract_version_needs_digit_witness :
  Rules.extract_version "the app crashes on start-up, no release named"
  = None.
Proof.
  apply extract_version_needs_digit.
  repeat (constructor; [reflexivity|]). constructor.
Defined.

Module MoreRulesFacts.
Import Text Rules.

Lemma dot_groups_split (fuel : nat) :
  forall l gs rest,
    dot_groups fuel l = (gs, rest) -> l = List.concat gs ++ rest.
Proof.
  induction fuel as [|f IH]; intros l gs rest H.
  - simpl in H. apply PyFacts.pair_inj in H as [<- <-]. reflexivity.
  - cbn [dot_groups] in H. destruct l as [|c r].
    + apply PyFacts.pair_inj in H as [<- <-]. reflexivity.
    + destruct (is_dot c).
      * destruct (take_while is_digit r) as [|d ds] eqn:Et.
        { apply PyFacts.pair_inj in H as [<- <-]. reflexivity. }
        destruct (dot_groups f (drop_while is_digit r)) as [gs' rest'] eqn:Eg.
        apply PyFacts.pair_inj in H as [<- <-].
        apply IH in Eg. cbn [List.concat].
        rewrite <- app_assoc, <- Eg, <- app_comm_cons, <- Et.
        f_equal. apply CleanFacts.take_drop_while.
      * apply PyFacts.pair_inj in H as [<- <-]. reflexivity.
Qed.

Lemma concat_removelast (gs : list (list ascii)) :
  gs <> [] ->
  exists g, List.concat gs = List.concat (removelast gs) ++ g.
Proof.
  intros H. exists (last gs []).
  rewrite (app_removelast_last [] H) at 1.
  rewrite concat_app. simpl. now rewrite app_nil_r.
Qed.

(** A match is a prefix of the text it starts in. *)
Lemma match_version_prefix (prev : option ascii) (l m : list ascii) :
  match_version_at prev l = Some m -> exists rest, l = m ++ rest.
Proof.
  unfold match_version_at.
  set (v := match l with [] => [] | c :: _ => if is_v c then [c] else [] end).
  assert (Hv : l = v ++ skipn (List.length v) l).
  { unfold v. destruct l as [|c r]; [reflexivity|].
    destruct (is_v c); reflexivity. }
  set (l0 := skipn (List.length v) l) in *.
  pose proof (CleanFacts.take_drop_while is_digit l0) as H0.
  destruct (take_while is_digit l0) as [|a d1]; [discriminate|].
  destruct (drop_while is_digit l0) as [|dot l1]; [discriminate|].
  destruct (match prev with Some p => negb (is_word p) | None => true end
            && is_dot dot)%bool; [|discriminate].
  pose proof (CleanFacts.take_drop_while is_digit l1) as H1.
  destruct (take_while is_digit l1) as [|b d2]; [discriminate|].
  destruct (dot_groups (List.length (drop_while is_digit l1))
              (drop_while is_digit l1)) as [gs rest] eqn:Eg.
  apply dot_groups_split in Eg.
  destruct (boundary_after rest).
  - intros H. apply PyFacts.Some_inj in H. subst m. exists rest.
    rewrite Hv at 1. rewrite H0, H1, Eg.
    now rewrite <- !app_assoc, <- !app_comm_cons, <- !app_assoc.
  - destruct gs as [|g gs']; [discriminate|].
    intros H. apply PyFacts.Some_inj in H. subst m.
    destruct (concat_removelast (g :: gs')) as [x Hx]; [discriminate|].
    exists (x ++ rest).
    rewrite Hv at 1. rewrite H0, H1, Eg, Hx.
    now rewrite <- !app_assoc, <- !app_comm_cons, <- !app_assoc.
Qed.

Lemma search_version_substring (l : list ascii) :
  forall prev m,
    search_version prev l = Some m ->
    (exists before after, l = before ++ m ++ after)
    /\ exists prev' l', match_version_at prev' l' = Some m.
Proof.
  induction l as [|c r IH]; intros prev m H.
  - cbn [search_version] in H.
    destruct (match_version_at prev []) eqn:E; [|discriminate].
    apply PyFacts.Some_inj in H. subst. split; [|now exists prev, []].
    apply match_version_prefix in E as [rest ->]. now exists [], rest.
  - cbn [search_version] in H.
    destruct (match_version_at prev (c :: r)) eqn:E.
    + apply PyFacts.Some_inj in H. subst.
      split; [|now exists prev, (c :: r)].
      apply match_version_prefix in E as [rest ->]. now exists [], rest.
    + apply IH in H as [(b & a & ->) Hm]. split; [|exact Hm].
      now exists (c :: b), a.
Qed.

(** A match holds a dot between two digits. *)
Lemma match_version_has_digits (prev : option ascii) (l m : list ascii) :
  match_version_at prev l = Some m ->
  exists a b c x y, m = a ++ b :: c :: x :: y
                    /\ is_digit b = true /\ is_dot c = true
                    /\ is_digit x = true.
Proof.
  unfold match_version_at.
  set (v := match l with [] => [] | c :: _ => if is_v c then [c] else [] end).
  set (l0 := skipn (List.length v) l).
  assert (T0 : Forall (fun c => is_digit c = true) (take_while is_digit l0)).
  { clear. induction l0 as [|c r IH]; [constructor|]. simpl.
    destruct (is_digit c) eqn:E; now constructor. }
  destruct (take_while is_digit l0) as [|a d1] eqn:E0; [discriminate|].
  destruct (drop_while is_digit l0) as [|dot l1]; [discriminate|].
  destruct (match prev with Some p => negb (is_word p) | None => true end)
    ; [|discriminate].
  cbn [andb]. destruct (is_dot dot) eqn:Ed; [|discriminate].
  assert (T1 : Forall (fun c => is_digit c = true) (take_while is_digit l1)).
  { clear. induction l1 as [|c r IH]; [constructor|]. simpl.
    destruct (is_digit c) eqn:E; now constructor. }
  destruct (take_while is_digit l1) as [|b d2] eqn:E1; [discriminate|].
  destruct (dot_groups _ _) as [gs rest].
  assert (Hlast : exists pre z, a :: d1 = pre ++ [z] /\ is_digit z = true).
  { exists (removelast (a :: d1)), (last (a :: d1) a). split.
    - apply app_removelast_last. discriminate.
    - rewrite Forall_forall in T0. apply T0.
      clear. generalize a at 1 3. induction d1 as [|x r IH]; intros y.
      + now left.
      + right. apply (IH x). }
  destruct Hlast as (pre & z & Ez & Hz).
  inversion T1 as [|? ? Hb _]; subst.
  assert (G : forall tail,
             exists a0 b0 c0 x0 y0,
               v ++ (a :: d1) ++ dot :: (b :: d2) ++ tail
               = a0 ++ b0 :: c0 :: x0 :: y0
               /\ is_digit b0 = true /\ is_dot c0 = true
               /\ is_digit x0 = true).
  { intros tail. exists (v ++ pre), z, dot, b, (d2 ++ tail).
    rewrite Ez. split; [|auto].
    now rewrite <- !app_assoc. }
  destruct (boundary_after rest).
  - intros H. apply PyFacts.Some_inj in H. subst m. apply G.
  - destruct gs; [discriminate|]. intros H.
    apply PyFacts.Some_inj in H. subst m. apply G.
Qed.

End MoreRulesFacts.

(** X4: a version that [extract_version] returns stands in the text as it
    is returned, and it holds two digits with a dot between them. *)
Theorem extract_version_is_part_of_text (s v : string) :
  Rules.extract_version s = Some v ->
  (exists before after,
      Text.chars s = before ++ Text.chars v ++ after)
  /\ exists a b c x y,
      Text.chars v = a ++ b :: c :: x :: y
      /\ Text.is_digit b = true /\ Rules.is_dot c = true
      /\ Text.is_digit x = true.
Proof.
  unfold Rules.extract_version. intros H.
  destruct (Rules.search_version None (Text.chars s)) as [m|] eqn:E;
    [|discriminate].
  apply PyFacts.Some_inj in H. subst v.
  unfold Text.chars at 2 3, Text.text.
  rewrite !list_ascii_of_string_of_list_ascii. split.
  - now apply MoreRulesFacts.search_version_substring in E.
  - apply MoreRulesFacts.search_version_substring in E
      as [_ (prev' & l' & Hm)].
    now apply MoreRulesFacts.match_version_has_digits in Hm.
Qed.

Lemma extract_version_is_part_of_text_witness :
  exists before after,
    Text.chars "crash in v2.5.1 now"
    = before ++ Text.chars "v2.5.1" ++ after.
Proof.
  exact (proj1 (extract_version_is_part_of_text "crash in v2.5.1 now"
                  "v2.5.1" eq_refl)).
Defined.

Module MoreLLMFacts.
Import Text Py LLM LLMSpec.

Lemma is_cjk_never (c : ascii) : is_cjk c = false.
Proof. destruct c as [[] [] [] [] [] [] [] []]; reflexivity. Qed.

Lemma no_cjk (l : list ascii) : filter is_cjk l = [].
Proof.
  induction l as [|c r IH]; [reflexivity|]. simpl.
  now rewrite is_cjk_never.
Qed.

Lemma nonblank_has_char (s : string) :
  nonblank s = true ->
  filter (fun c => negb (is_space c)) (chars s) <> [].
Proof.
  intros H. rewrite <- (string_of_list_ascii_of_string s) in H.
  apply LLMFacts.nonblank_chars in H as (c & Hin & Hc).
  intros E.
  assert (K : In c (filter (fun c => negb (is_space c)) (chars s))).
  { apply filter_In. split; [exact Hin|]. now rewrite Hc. }
  rewrite E in K. destruct K.
Qed.

Lemma with_retry_bound (M M' : model) (s : string) (retries : nat) :
  forall n,
    (forall lang k, n <= k <= n + retries ->
                    post M lang s k = post M' lang s k) ->
    with_retry M s retries n = with_retry M' s retries n.
Proof.
  induction retries as [|r IH]; intros n H.
  - cbn [with_retry]. unfold attempt. rewrite (H _ n) by lia. reflexivity.
  - cbn [with_retry]. unfold attempt. rewrite (H _ n) by lia.
    destruct (post M' (detect_language s) s n) as [c|e]; cbn [bind];
      [reflexivity|].
    destruct (retryable e); [|reflexivity].
    apply IH. intros lang k Hk. apply H. lia.
Qed.

End MoreLLMFacts.

(** X5: for a parsed result that is a dictionary, validation keeps exactly
    the six keys of the schema, whatever keys the result has. *)
Theorem validate_extraction_key_set (D : LLM.schema_defaults) (r v : Py.dict) :
  LLM.validate_extraction D (Py.PDict r) = Py.Ok v ->
  Py.keys v = LLM.SCHEMA_KEYS.
Proof. apply LLMFacts.validate_extraction_keys. Qed.

Lemma validate_extraction_key_set_witness :
  exists v,
    LLM.validate_extraction LLMSpec.sample_defaults
      (Py.PDict [("title", Py.PStr "t"); ("priority", Py.PInt 1)])
    = Py.Ok v
    /\ Py.keys v = LLM.SCHEMA_KEYS.
Proof.
  eexists. split; [reflexivity|].
  apply (validate_extraction_key_set LLMSpec.sample_defaults
           [("title", Py.PStr "t"); ("priority", Py.PInt 1)]).
  reflexivity.
Defined.

(** X6: what validation leaves under a key of the schema.  A text of the
    parsed result is cut to 5000 characters and then trimmed; a list is kept
    as it is; a key the result lacks gets the default of the schema, a text
    default cut and trimmed in the same way, and [steps_to_reproduce] the
    empty list. *)
Theorem validate_extraction_fields (D : LLM.schema_defaults) (r v : Py.dict)
  (k : string) :
  LLM.validate_extraction D (Py.PDict r) = Py.Ok v ->
  In k LLM.SCHEMA_KEYS ->
  (forall x, Py.lookup r k = Some (Py.PStr x) ->
             Py.get v k = Py.PStr (Text.strip (Text.slice_to 5000 x)))
  /\ (forall l, Py.lookup r k = Some (Py.PList l) ->
                Py.get v k = Py.PList l)
  /\ (Py.lookup r k = None ->
      forall x, Py.get (LLM.DEFAULT_SCHEMA D) k = Py.PStr x ->
                Py.get v k = Py.PStr (Text.strip (Text.slice_to 5000 x)))
  /\ (Py.lookup r k = None -> k = "steps_to_reproduce" ->
      Py.get v k = Py.PList []).
Proof.
  unfold LLM.validate_extraction. intros H Hk.
  apply PyFacts.Ok_inj in H. subst v.
  change (Py.keys (LLM.DEFAULT_SCHEMA D)) with LLM.SCHEMA_KEYS.
  rewrite LLMFacts.validate_loop_value
    by (exact LLMFacts.schema_keys_nodup || exact Hk).
  unfold LLMSpec.validate_value.
  assert (G : Py.get r k = match Py.lookup r k with
                           | Some y => y
                           | None => Py.PNone
                           end) by reflexivity.
  rewrite G. unfold Py.get_or.
  split; [|split; [|split]].
  - intros x ->. reflexivity.
  - intros l ->. reflexivity.
  - intros -> x ->. reflexivity.
  - intros -> ->. reflexivity.
Qed.

Lemma validate_extraction_fields_witness :
  exists v,
    LLM.validate_extraction LLMSpec.sample_defaults
      (Py.PDict [("title", Py.PStr "  Crash  ")]) = Py.Ok v
    /\ Py.get v "title" = Py.PStr "Crash".
Proof.
  eexists. split; [reflexivity|].
  destruct (validate_extraction_fields LLMSpec.sample_defaults
              [("title", Py.PStr "  Crash  ")] _ "title" eq_refl)
    as (H & _); [simpl; auto|].
  rewrite (H "  Crash  " eq_refl). vm_compute. reflexivity.
Defined.

(** X7: a model answer that is JSON but not an object (a list, a text, a
    number, null) makes validation fail on the missing [get], and the entry
    point returns the default schema. *)
Theorem llm_extract_non_object_answer (D : LLM.schema_defaults)
  (M : LLM.model) (s resp : string) (x : Py.pyval) :
  LLM.nonblank s = true ->
  LLM.call_llm M s = Py.Ok resp ->
  LLM.json_loads M resp = Some x ->
  (forall r, x <> Py.PDict r) ->
  LLM.llm_extract D M s true = Py.Ok (Py.PDict (LLM.DEFAULT_SCHEMA D)).
Proof.
  intros Hs Hc Hj Hx. unfold LLM.llm_extract.
  rewrite LLMFacts.blank_test, Hs. cbn [negb].
  unfold LLM.extract_body. rewrite Hc. cbn [Py.bind]. unfold LLM.loads.
  rewrite Hj. cbn [Py.bind].
  destruct x; try reflexivity. now elim (Hx d).
Qed.

Lemma llm_extract_non_object_answer_witness :
  LLM.llm_extract LLMSpec.sample_defaults
    (LLMSpec.fixed_model "[1]" (Some (Py.PList [Py.PInt 1])))
    "app crashes" true
  = Py.Ok (Py.PDict (LLM.DEFAULT_SCHEMA LLMSpec.sample_defaults)).
Proof.
  apply (llm_extract_non_object_answer LLMSpec.sample_defaults
           (LLMSpec.fixed_model "[1]" (Some (Py.PList [Py.PInt 1])))
           "app crashes" "[1]" (Py.PList [Py.PInt 1]));
    try reflexivity.
  intros r. discriminate.
Defined.

(** X8: the retry policy of [call_llm].  The first attempt that returns
    ends the call with its trimmed content; an exception outside the
    retried classes ends it at once; after two retried failures the outcome
    of the third attempt, value or exception, is the outcome of the call. *)
Theorem call_llm_retry_policy (M : LLM.model) (s : string) :
  (forall c, LLM.attempt M s 1 = Py.Ok c -> LLM.call_llm M s = Py.Ok c)
  /\ (forall e, LLM.attempt M s 1 = Py.Raise e -> LLM.retryable e = false ->
                LLM.call_llm M s = Py.Raise e)
  /\ (forall e1, LLM.attempt M s 1 = Py.Raise e1 ->
                 LLM.retryable e1 = true ->
       (forall c, LLM.attempt M s 2 = Py.Ok c ->
                  LLM.call_llm M s = Py.Ok c)
       /\ (forall e, LLM.attempt M s 2 = Py.Raise e ->
                     LLM.retryable e = false ->
                     LLM.call_llm M s = Py.Raise e)
       /\ (forall e2, LLM.attempt M s 2 = Py.Raise e2 ->
                      LLM.retryable e2 = true ->
                      LLM.call_llm M s = LLM.attempt M s 3)).
Proof.
  unfold LLM.call_llm. cbn [LLM.with_retry].
  split; [|split].
  - now intros c ->.
  - now intros e -> ->.
  - intros e1 -> ->. split; [|split].
    + now intros c ->.
    + now intros e -> ->.
    + intros e2 -> ->. now destruct (LLM.attempt M s 3).
Qed.

Lemma call_llm_retry_policy_witness :
  LLM.call_llm (LLMSpec.failing_model Py.TimeoutError) "app crashes"
  = Py.Raise Py.TimeoutError
  /\ LLM.call_llm (LLMSpec.failing_model Py.KeyError) "app crashes"
     = Py.Raise Py.KeyError.
Proof.
  split.
  - destruct (call_llm_retry_policy (LLMSpec.failing_model Py.TimeoutError)
                "app crashes") as (_ & _ & H).
    destruct (H Py.TimeoutError eq_refl eq_refl) as (_ & _ & H3).
    rewrite (H3 Py.TimeoutError eq_refl eq_refl). reflexivity.
  - destruct (call_llm_retry_policy (LLMSpec.failing_model Py.KeyError)
                "app crashes") as (_ & H & _).
    exact (H Py.KeyError eq_refl eq_refl).
Defined.

(** X9: [call_llm] never makes a fourth request: two models that answer
    the first three requests for a text alike give the same outcome. *)
Theorem call_llm_at_most_three_requests (M M' : LLM.model) (s : string) :
  (forall lang n, 1 <= n <= 3 -> LLM.post M lang s n = LLM.post M' lang s n) ->
  LLM.call_llm M s = LLM.call_llm M' s.
Proof.
  intros H. unfold LLM.call_llm. apply MoreLLMFacts.with_retry_bound.
  intros lang k Hk. apply H. lia.
Qed.

Lemma call_llm_at_most_three_requests_witness :
  LLM.call_llm
    {| LLM.post := fun _ _ n => if Nat.leb n 3
                                then Py.Raise Py.TimeoutError
                                else Py.Ok "late";
       LLM.json_loads := fun _ => None |} "app crashes"
  = LLM.call_llm (LLMSpec.failing_model Py.TimeoutError) "app crashes".
Proof.
  apply call_llm_at_most_three_requests.
  intros lang n Hn. cbn [LLM.post LLMSpec.failing_model].
  destruct (Nat.leb_spec n 3); [reflexivity|lia].
Defined.

(** X10: [detect_language] on texts of code points below 256, where no
    character lies in the CJK range: a blank text gives zh, any other text
    gives en. *)
Theorem detect_language_without_cjk (s : string) :
  LLM.detect_language s = if LLM.nonblank s then "en" else "zh".
Proof.
  unfold LLM.detect_language. rewrite LLMFacts.blank_test.
  destruct (LLM.nonblank s) eqn:Hs; cbn [negb]; [|reflexivity].
  rewrite MoreLLMFacts.no_cjk. cbn [List.length Nat.mul].
  apply MoreLLMFacts.nonblank_has_char in Hs.
  destruct (filter _ (Text.chars s)); [now elim Hs|reflexivity].
Qed.

(* ================================================================= *)
(** ** StorageGateway: the table and the read operations *)

Module MoreStorageFacts.
Import Py Storage StorageSpec StorageInv.

Lemma eqb_sym : forall x y : pyval, eqb x y = eqb y x.
Proof.
  fix IH 1. intros x y.
  destruct x as [| a | a | a | l | d], y as [| b | b | b | m | e];
    try reflexivity.
  - simpl. now destruct a, b.
  - simpl. apply Z.eqb_sym.
  - simpl. apply String.eqb_sym.
  - simpl. revert m. induction l as [|u l IHl]; intros [|w m];
      try reflexivity.
    rewrite (IH u w). f_equal. apply IHl.
  - simpl. revert e. induction d as [|[k u] d IHd]; intros [|[k' w] e];
      try reflexivity.
    rewrite (IH u w), (String.eqb_sym k k'). f_equal. apply IHd.
Qed.

Lemma same_key_sym (r r' : Z * row) :
  same_key (repo_id (snd r)) (issue_id (snd r)) r'
  = same_key (repo_id (snd r')) (issue_id (snd r')) r.
Proof.
  unfold same_key.
  now rewrite (eqb_sym (repo_id (snd r'))), (eqb_sym (issue_id (snd r'))).
Qed.

Lemma unique_keys_snoc (rows : list (Z * row)) (r : Z * row) :
  unique_keys rows = true ->
  existsb (same_key (repo_id (snd r)) (issue_id (snd r))) rows = false ->
  unique_keys (rows ++ [r]) = true.
Proof.
  induction rows as [|a rest IH]; intros Hu Hf; [reflexivity|].
  cbn [unique_keys app] in *. cbn [existsb] in Hf.
  apply andb_true_iff in Hu as [H1 H2].
  apply orb_false_iff in Hf as [F1 F2].
  apply andb_true_iff. split; [|now apply IH].
  rewrite existsb_app. cbn [existsb].
  apply negb_true_iff in H1. rewrite H1, orb_false_r. cbn [orb].
  rewrite same_key_sym. now rewrite F1.
Qed.

(** Every call of [insert_one], whatever its outcome, leaves the rows that
    were stored in place and adds at most the one row it was called for. *)
Lemma insert_one_appends (w w' : world) (doc : dict) (r : result (option Z)) :
  insert_one w doc = (r, w') ->
  exists extra,
    standardized_defect (srv w') = standardized_defect (srv w) ++ extra
    /\ (extra = []
        \/ (extra = [(auto_increment (srv w), params (now (srv w)) doc)]
            /\ stored (srv w) (get doc "repo_id") (get doc "issue_id")
               = false)).
Proof.
  unfold insert_one.
  destruct (negb (truthy (get doc "repo_id"))
            || negb (truthy (get doc "issue_id")))%bool.
  { intros H. apply PyFacts.pair_inj in H as [_ <-]. exists [].
    rewrite app_nil_r. auto. }
  destruct (get_connection w) as [[[]|e] w1] eqn:Eg;
    apply PipelineFacts.get_connection_inv in Eg as (Es & _ & _).
  - rewrite Es.
    destruct (up (srv w) && bindable_row (params (now (srv w)) doc))%bool.
    + unfold insert_ignore. cbn [repo_id issue_id params].
      destruct (stored (srv w) (get doc "repo_id") (get doc "issue_id"))
        eqn:E.
      * intros H. apply PyFacts.pair_inj in H as [_ <-]. exists [].
        cbn [srv]. rewrite app_nil_r. auto.
      * intros H. apply PyFacts.pair_inj in H as [_ <-].
        eexists. cbn [srv standardized_defect]. split; [reflexivity|].
        right. now split.
    + intros H. apply PyFacts.pair_inj in H as [_ <-]. exists [].
      cbn [with_conn srv]. rewrite Es, app_nil_r. auto.
  - intros H. apply PyFacts.pair_inj in H as [_ <-]. exists [].
    rewrite Es, app_nil_r. auto.
Qed.

End MoreStorageFacts.

(** X11: a record that [insert_one] accepted is found by [is_duplicate]:
    after a returning call, new row or not, the check for the same key
    answers true. *)
Theorem insert_one_then_is_duplicate (w w' : Storage.world) (doc : Py.dict)
  (r : option Z) :
  Storage.insert_one w doc = (Py.Ok r, w') ->
  exists w'',
    Storage.is_duplicate w' (Py.get doc "repo_id") (Py.get doc "issue_id")
    = (Py.Ok true, w'').
Proof.
  intros H.
  destruct (PipelineFacts.insert_one_ok_inv _ _ _ _ H)
    as (Hup & Hr & Hi & Hb).
  destruct (StorageFacts.insert_one_up w doc Hup Hr Hi Hb)
    as (r1 & w1 & H1 & Hup1 & Hst & _).
  destruct (StorageFacts.can_bind_keys doc Hb) as [Hbr Hbi].
  rewrite H in H1. apply PyFacts.pair_inj in H1 as [_ <-].
  unfold Storage.is_duplicate. rewrite Hr, Hi. cbn [andb negb].
  unfold Storage.get_connection.
  destruct (Storage.conn w'); rewrite ?Hup1; cbn [Storage.srv
    Storage.with_conn]; rewrite ?Hup1, Hbr, Hbi, Hst; now eexists.
Qed.

Lemma insert_one_then_is_duplicate_witness :
  exists w'',
    Storage.is_duplicate
      (snd (Storage.insert_one StorageSpec.fresh_world
              StorageSpec.sample_doc))
      (Py.PStr "1123") (Py.PInt 7)
    = (Py.Ok true, w'').
Proof.
  exact (insert_one_then_is_duplicate StorageSpec.fresh_world _
           StorageSpec.sample_doc (Some 1%Z) eq_refl).
Defined.

(** X12: when the server does not answer and the client holds no open
    connection, [insert_one] with valid keys does not report the storage
    error: the failed connect leaves [conn] unbound, the handlers read it,
    and the call ends in [UnboundLocalError].  [is_duplicate] and
    [get_token] in the same state end in [RuntimeError].  None of them
    changes the client. *)
Theorem insert_one_server_down (w : Storage.world) (doc : Py.dict) :
  Storage.up (Storage.srv w) = false ->
  Storage.conn w <> Storage.Open ->
  Py.truthy (Py.get doc "repo_id") = true ->
  Py.truthy (Py.get doc "issue_id") = true ->
  Storage.insert_one w doc = (Py.Raise Py.UnboundLocalError, w)
  /\ Storage.is_duplicate w (Py.get doc "repo_id") (Py.get doc "issue_id")
     = (Py.Raise Py.RuntimeError, w)
  /\ forall platform,
       Storage.get_token w platform = (Py.Raise Py.RuntimeError, w).
Proof.
  intros Hup Hc Hr Hi.
  unfold Storage.insert_one, Storage.is_duplicate, Storage.get_token,
    Storage.get_connection.
  rewrite Hr, Hi, Hup. cbn [negb orb andb].
  destruct (Storage.conn w); [|now elim Hc|]; now repeat split.
Qed.

Lemma insert_one_server_down_witness :
  Storage.insert_one
    {| Storage.srv := StorageInv.down_server;
       Storage.conn := Storage.NoConnection; Storage.log := [] |}
    StorageSpec.sample_doc
  = (Py.Raise Py.UnboundLocalError,
     {| Storage.srv := StorageInv.down_server;
        Storage.conn := Storage.NoConnection; Storage.log := [] |}).
Proof.
  apply (proj1 (insert_one_server_down
                  {| Storage.srv := StorageInv.down_server;
                     Storage.conn := Storage.NoConnection;
                     Storage.log := [] |}
                  StorageSpec.sample_doc eq_refl ltac:(discriminate)
                  eq_refl eq_refl)).
Defined.

(** X13: [insert_one] never changes or removes a stored row, adds at most
    one row, and keeps the composite keys of the table unique, whatever it
    returns or raises. *)
Theorem insert_one_keeps_keys_unique (w w' : Storage.world) (doc : Py.dict)
  (r : Py.result (option Z)) :
  Storage.insert_one w doc = (r, w') ->
  (exists extra,
      Storage.standardized_defect (Storage.srv w')
      = Storage.standardized_defect (Storage.srv w) ++ extra
      /\ List.length extra <= 1)
  /\ (StorageInv.unique_keys (Storage.standardized_defect (Storage.srv w))
      = true ->
      StorageInv.unique_keys (Storage.standardized_defect (Storage.srv w'))
      = true).
Proof.
  intros H.
  destruct (MoreStorageFacts.insert_one_appends _ _ _ _ H)
    as (extra & E & [->|[-> Hf]]).
  - split; [exists []; split; [exact E|simpl; lia]|].
    rewrite E, app_nil_r. auto.
  - split; [eexists; split; [exact E|simpl; lia]|].
    intros Hu. rewrite E. apply MoreStorageFacts.unique_keys_snoc;
      [exact Hu|exact Hf].
Qed.

Lemma insert_one_keeps_keys_unique_witness :
  StorageInv.unique_keys
    (Storage.standardized_defect
       (Storage.srv
          (snd (Storage.insert_one
                  (snd (Storage.insert_one StorageSpec.fresh_world
                          StorageSpec.sample_doc))
                  StorageSpec.sample_doc))))
  = true.
Proof.
  refine (proj2 (insert_one_keeps_keys_unique
                   (snd (Storage.insert_one StorageSpec.fresh_world
                           StorageSpec.sample_doc))
                   _ StorageSpec.sample_doc _ _) _).
  - apply surjective_pairing.
  - reflexivity.
Defined.

(** X14: the two read operations.  [is_duplicate] with an empty repo_id or
    issue_id answers false without a query, also when the server is down.
    Neither [is_duplicate] nor [get_token] changes the stored data or the
    log, and a token [get_token] returns is an active token of that
    platform. *)
Theorem read_operations (w w' : Storage.world) :
  (forall repo issue,
      Py.truthy repo = false \/ Py.truthy issue = false ->
      Storage.is_duplicate w repo issue = (Py.Ok false, w))
  /\ (forall repo issue r,
         Storage.is_duplicate w repo issue = (r, w') ->
         Storage.srv w' = Storage.srv w /\ Storage.log w' = Storage.log w)
  /\ (forall platform r,
         Storage.get_token w platform = (r, w') ->
         Storage.srv w' = Storage.srv w /\ Storage.log w' = Storage.log w
         /\ forall t, r = Py.Ok (Some t) ->
                      In (platform, t, true)
                        (Storage.token_config (Storage.srv w))).
Proof.
  split; [|split].
  - intros repo issue H. unfold Storage.is_duplicate.
    destruct H as [-> | ->]; [reflexivity|]. now rewrite andb_false_r.
  - intros repo issue r. unfold Storage.is_duplicate.
    destruct (negb (Py.truthy repo && Py.truthy issue)).
    + intros H. apply PyFacts.pair_inj in H as [_ <-]. now split.
    + destruct (Storage.get_connection w) as [[[]|e] w1] eqn:Eg;
        apply PipelineFacts.get_connection_inv in Eg as (Es & El & _).
      * destruct (Storage.up (Storage.srv w1) && Storage.bindable repo
                  && Storage.bindable issue)%bool; intros H;
          apply PyFacts.pair_inj in H as [_ <-]; now split.
      * intros H. apply PyFacts.pair_inj in H as [_ <-]. now split.
  - intros platform r H.
    destruct (PipelineFacts.get_token_inv _ _ _ _ H) as [Es El].
    split; [exact Es|]. split; [exact El|]. intros t ->.
    unfold Storage.get_token in H.
    destruct (Storage.get_connection w) as [[[]|e] w1] eqn:Eg;
      apply PipelineFacts.get_connection_inv in Eg as (Es1 & _ & _).
    + destruct (Storage.up (Storage.srv w1));
        apply PyFacts.pair_inj in H as [H _]; [|discriminate H].
      apply PyFacts.Ok_inj in H. rewrite Es1 in H. clear - H.
      induction (Storage.token_config (Storage.srv w))
        as [|[[p t'] a] rest IH]; [discriminate H|].
      cbn [Storage.active_token] in H.
      destruct (String.eqb p platform && a)%bool eqn:E.
      * apply PyFacts.Some_inj in H. subst t'.
        apply andb_true_iff in E as [Ep ->].
        apply String.eqb_eq in Ep. subst. now left.
      * right. now apply IH.
    + apply PyFacts.pair_inj in H as [H _]. discriminate H.
Qed.

Lemma read_operations_witness :
  Storage.is_duplicate
    {| Storage.srv := StorageInv.down_server;
       Storage.conn := Storage.NoConnection; Storage.log := [] |}
    (Py.PStr "") (Py.PInt 7)
  = (Py.Ok false,
     {| Storage.srv := StorageInv.down_server;
        Storage.conn := Storage.NoConnection; Storage.log := [] |}).
Proof.
  apply (proj1 (read_operations _
                  {| Storage.srv := StorageInv.down_server;
                     Storage.conn := Storage.NoConnection;
                     Storage.log := [] |})).
  now left.
Defined.

(* ================================================================= *)
(** ** PlatformCollector: pages, errors and bounds *)

Module MoreCollectFacts.
Import Text Py Collect CollectSpec CollectMore.

Lemma gitee_pages_stop (A : api) (c : collector) (state : string)
  (per_page : Z) (since until : option string) (k : nat) :
  forall page acc fuel,
    http_get A (gitee_request c state per_page (page + k)) = HttpJson [] ->
    k < fuel ->
    exists r,
      gitee_pages fuel A c state per_page since until page acc = Some r
      /\ gitee_pages (S k) A c state per_page since until page acc = Some r.
Proof.
  induction k as [|k IH]; intros page acc fuel He Hf.
  - destruct fuel as [|f]; [lia|]. rewrite Nat.add_0_r in He.
    cbn [gitee_pages]. rewrite He. now eexists.
  - destruct fuel as [|f]; [lia|].
    cbn [gitee_pages].
    destruct (http_get A (gitee_request c state per_page page))
      as [| |[|i r]]; try (now eexists).
    destruct (for_items (gitee_item A since until) acc (i :: r))
      as [acc'|e]; [|now eexists].
    apply IH; [|lia]. now rewrite Nat.add_succ_comm.
Qed.

Lemma gitlab_pages_stop (A : api) (c : collector) (state : string)
  (per_page : Z) (after before : option string) (k : nat) :
  forall page acc fuel,
    http_get A (gitlab_request c state per_page after before (page + k))
    = HttpJson [] ->
    k < fuel ->
    exists r,
      gitlab_pages fuel A c state per_page after before page acc = Some r
      /\ gitlab_pages (S k) A c state per_page after before page acc
         = Some r.
Proof.
  induction k as [|k IH]; intros page acc fuel He Hf.
  - destruct fuel as [|f]; [lia|]. rewrite Nat.add_0_r in He.
    cbn [gitlab_pages]. rewrite He. now eexists.
  - destruct fuel as [|f]; [lia|].
    cbn [gitlab_pages].
    destruct (http_get A (gitlab_request c state per_page after before page))
      as [| |[|i r]]; try (now eexists);
      [destruct (Nat.eqb page 1); now eexists|].
    destruct (for_items (gitlab_item A c) acc (i :: r))
      as [acc'|e]; [|now eexists].
    apply IH; [|lia]. now rewrite Nat.add_succ_comm.
Qed.

Lemma for_items_all_pull_requests (A : api) (until : option string)
  (items : list dict) :
  all_pull_requests items ->
  forall acc, for_items (github_item A until) acc items = Ok acc.
Proof.
  induction 1 as [|it rest Hit _ IH]; intros acc; [reflexivity|].
  cbn [for_items]. unfold github_item at 1. rewrite Hit. cbn [bind].
  apply IH.
Qed.

End MoreCollectFacts.

(** X15: the page loops of the Gitee and GitLab variants end at the first
    empty page at the latest: when page k+1 of the upstream is empty, the
    call returns after at most k+1 requests, and what it gives does not
    depend on how many more requests it would have been allowed. *)
Theorem pagination_stops_at_empty_page (A : Collect.api)
  (c : Collect.collector) (state : string) (per_page : Z)
  (since until : option string) (k fuel : nat) :
  k < fuel ->
  (Collect.http_get A (Collect.gitee_request c state per_page (1 + k))
   = Collect.HttpJson [] ->
   exists r,
     Collect.gitee_fetch_recent fuel A c state per_page since until = Some r
     /\ Collect.gitee_fetch_recent (S k) A c state per_page since until
        = Some r)
  /\ (forall after before,
         Collect.http_get A
           (Collect.gitlab_request c state per_page after before (1 + k))
         = Collect.HttpJson [] ->
         exists r,
           Collect.gitlab_pages fuel A c state per_page after before 1 []
           = Some r
           /\ Collect.gitlab_pages (S k) A c state per_page after before 1 []
              = Some r).
Proof.
  intros Hf. split.
  - intros He. unfold Collect.gitee_fetch_recent.
    destruct (negb (Collect.configured c)); [now eexists|].
    now apply MoreCollectFacts.gitee_pages_stop.
  - intros after before He.
    now apply MoreCollectFacts.gitlab_pages_stop.
Qed.

Lemma pagination_stops_at_empty_page_witness :
  exists r,
    Collect.gitee_fetch_recent 50
      (CollectSpec.paged [[CollectSpec.item_jan]; [CollectSpec.item_feb]])
      CollectSpec.sample_collector "open" 100 None None = Some r
    /\ Collect.gitee_fetch_recent 3
         (CollectSpec.paged [[CollectSpec.item_jan]; [CollectSpec.item_feb]])
         CollectSpec.sample_collector "open" 100 None None = Some r.
Proof.
  apply (proj1 (pagination_stops_at_empty_page
                  (CollectSpec.paged
                     [[CollectSpec.item_jan]; [CollectSpec.item_feb]])
                  CollectSpec.sample_collector "open" 100 None None 2 50
                  ltac:(lia))).
  reflexivity.
Defined.

(** X16: what the collectors raise before and at the first request.  With
    an empty owner or repo the GitHub and Gitee variants raise [ValueError]
    without a request, and so does the GitLab variant when the project id is
    empty as well.  A first request that fails, by its status check or by
    raising itself, ends the GitHub and the Gitee variant in
    [RuntimeError].  The page loop of the GitLab variant ends in
    [RuntimeError] when the status check of the first answer fails; when
    the first request raises itself, its handler reads [r], which is not
    bound, and the loop ends in [UnboundLocalError]. *)
Theorem collector_errors (A : Collect.api) (c : Collect.collector)
  (state : string) (per_page : Z) (since until : option string)
  (fuel : nat) :
  (Collect.configured c = false ->
   Collect.github_fetch_recent A c state per_page since until
   = Py.Raise Py.ValueError
   /\ Collect.gitee_fetch_recent fuel A c state per_page since until
      = Some (Py.Raise Py.ValueError))
  /\ (Collect.gitlab_configured c = false ->
      Collect.gitlab_fetch_recent fuel A c state per_page since until
      = Some (Py.Raise Py.ValueError))
  /\ (Collect.configured c = true ->
      (Collect.http_get A (Collect.github_request A c state per_page since)
       = Collect.HttpFailure ->
       Collect.github_fetch_recent A c state per_page since until
       = Py.Raise Py.RuntimeError)
      /\ (Collect.http_get A (Collect.gitee_request c state per_page 1)
          = Collect.HttpFailure ->
          Collect.gitee_fetch_recent (S fuel) A c state per_page since until
          = Some (Py.Raise Py.RuntimeError)))
  /\ (Collect.configured c = true ->
      (Collect.http_get A (Collect.github_request A c state per_page since)
       = Collect.HttpNoAnswer ->
       Collect.github_fetch_recent A c state per_page since until
       = Py.Raise Py.RuntimeError)
      /\ (Collect.http_get A (Collect.gitee_request c state per_page 1)
          = Collect.HttpNoAnswer ->
          Collect.gitee_fetch_recent (S fuel) A c state per_page since until
          = Some (Py.Raise Py.RuntimeError)))
  /\ (forall after before all_issues,
         (Collect.http_get A
            (Collect.gitlab_request c state per_page after before 1)
          = Collect.HttpFailure ->
          Collect.gitlab_pages (S fuel) A c state per_page after before 1
            all_issues
          = Some (Py.Raise Py.RuntimeError))
         /\ (Collect.http_get A
               (Collect.gitlab_request c state per_page after before 1)
             = Collect.HttpNoAnswer ->
             Collect.gitlab_pages (S fuel) A c state per_page after before 1
               all_issues
             = Some (Py.Raise Py.UnboundLocalError))).
Proof.
  unfold Collect.github_fetch_recent, Collect.gitee_fetch_recent,
    Collect.gitlab_fetch_recent.
  split; [|split; [|split; [|split]]].
  - now intros ->.
  - now intros ->.
  - intros ->. cbn [negb Collect.gitee_pages]. split; now intros ->.
  - intros ->. cbn [negb Collect.gitee_pages]. split; now intros ->.
  - intros after before all_issues. cbn [Collect.gitlab_pages].
    split; now intros ->.
Qed.

Lemma collector_errors_witness :
  Collect.github_fetch_recent (CollectSpec.paged [])
    {| Collect.owner := ""; Collect.repo := "gogogo";
       Collect.project_id := "" |} "open" 100 None None
  = Py.Raise Py.ValueError.
Proof.
  apply (proj1 (collector_errors (CollectSpec.paged [])
                  {| Collect.owner := ""; Collect.repo := "gogogo";
                     Collect.project_id := "" |}
                  "open" 100 None None 0)).
  reflexivity.
Defined.

(** X17: an upper bound that is not a calendar date.  The GitLab variant
    raises [ValueError] before its first request.  The GitHub variant reads
    the bound only when it comes to an item that is not a pull request: on
    an answer without such an item it returns the empty list, and on an
    answer whose first item is an issue with a readable creation time it
    raises [ValueError]. *)
Theorem until_not_a_date (A : Collect.api) (c : Collect.collector)
  (state : string) (per_page : Z) (since : option string) (u : string)
  (fuel : nat) :
  Collect.supplied (Some u) = Some u ->
  Collect.strptime_date A u = None ->
  (Collect.gitlab_configured c = true ->
   Collect.gitlab_fetch_recent fuel A c state per_page since (Some u)
   = Some (Py.Raise Py.ValueError))
  /\ (Collect.configured c = true ->
      forall items,
        Collect.http_get A (Collect.github_request A c state per_page since)
        = Collect.HttpJson items ->
        (CollectMore.all_pull_requests items ->
         Collect.github_fetch_recent A c state per_page since (Some u)
         = Py.Ok [])
        /\ (forall item rest t,
               items = item :: rest ->
               Py.has_key item "pull_request" = false ->
               Collect.created_of A item = Py.Ok t ->
               Collect.github_fetch_recent A c state per_page since (Some u)
               = Py.Raise Py.ValueError)).
Proof.
  intros Hu Hd. split.
  - intros Hc. unfold Collect.gitlab_fetch_recent. rewrite Hc, Hu.
    cbn [negb]. unfold Collect.gitlab_before. now rewrite Hd.
  - intros Hc items Hg. unfold Collect.github_fetch_recent.
    rewrite Hc, Hg. cbn [negb]. split.
    + intros Hall. now apply MoreCollectFacts.for_items_all_pull_requests.
    + intros item rest t -> Hp Ht. cbn [Collect.for_items].
      unfold Collect.github_item at 1. rewrite Hp, Ht, Hu.
      cbn [Py.bind]. unfold Collect.parse_date_only. now rewrite Hd.
Qed.

Lemma until_not_a_date_witness :
  Collect.gitlab_fetch_recent 0
    (CollectSpec.paged [[CollectSpec.item_jan]])
    CollectSpec.sample_collector "opened" 100 None
    (Some "2024-03-01T00:00:00Z")
  = Some (Py.Raise Py.ValueError).
Proof.
  apply (proj1 (until_not_a_date
                  (CollectSpec.paged [[CollectSpec.item_jan]])
                  CollectSpec.sample_collector "opened" 100 None
                  "2024-03-01T00:00:00Z" 0 eq_refl eq_refl)).
  reflexivity.
Defined.

(** X18: the GitHub variant looks at the answer to its one request only:
    in front of any other upstream that answers this request alike it
    returns the same. *)
Theorem github_depends_on_one_request (A : Collect.api)
  (f : Collect.request -> Collect.response) (c : Collect.collector)
  (state : string) (per_page : Z) (since until : option string) :
  f (Collect.github_request A c state per_page since)
  = Collect.http_get A (Collect.github_request A c state per_page since) ->
  Collect.github_fetch_recent (CollectMore.with_upstream A f) c state
    per_page since until
  = Collect.github_fetch_recent A c state per_page since until.
Proof.
  intros H. unfold Collect.github_fetch_recent.
  change (Collect.github_request (CollectMore.with_upstream A f))
    with (Collect.github_request A).
  change (Collect.http_get (CollectMore.with_upstream A f)) with f.
  rewrite H. reflexivity.
Qed.

Lemma github_depends_on_one_request_witness :
  Collect.github_fetch_recent
    (CollectMore.with_upstream
       (CollectSpec.paged [[CollectSpec.item_jan]; [CollectSpec.item_feb]])
       (fun rq => match Collect.rq_page rq with
                  | None => Collect.HttpJson [CollectSpec.item_jan]
                  | Some _ => Collect.HttpFailure
                  end))
    CollectSpec.sample_collector "open" 100 None None
  = Collect.github_fetch_recent
      (CollectSpec.paged [[CollectSpec.item_jan]; [CollectSpec.item_feb]])
      CollectSpec.sample_collector "open" 100 None None.
Proof.
  apply github_depends_on_one_request. reflexivity.
Defined.

(* ================================================================= *)
(** ** PipelineRunner and the endpoint *)

Module MorePipelineFacts.
Import Py Storage Pipeline PipelineSpec PipelineMore.

Lemma insert_one_appends_row (w w' : world) (doc : dict)
  (r : result (option Z)) :
  insert_one w doc = (r, w') ->
  exists extra,
    standardized_defect (srv w') = standardized_defect (srv w) ++ extra
    /\ Forall (row_of_repo (get doc "repo_id")) extra.
Proof.
  unfold insert_one.
  destruct (negb (truthy (get doc "repo_id"))
            || negb (truthy (get doc "issue_id")))%bool.
  { intros H. apply PyFacts.pair_inj in H as [_ <-]. exists [].
    rewrite app_nil_r. auto. }
  destruct (get_connection w) as [[[]|e] w1] eqn:Eg;
    apply PipelineFacts.get_connection_inv in Eg as (Es & _ & _).
  - rewrite Es.
    destruct (up (srv w) && bindable_row (params (now (srv w)) doc))%bool.
    + unfold insert_ignore. cbn [repo_id issue_id params].
      destruct (stored (srv w) (get doc "repo_id") (get doc "issue_id")).
      * intros H. apply PyFacts.pair_inj in H as [_ <-]. exists [].
        cbn [srv]. rewrite app_nil_r. auto.
      * intros H. apply PyFacts.pair_inj in H as [_ <-].
        eexists. cbn [srv standardized_defect]. split; [reflexivity|].
        constructor; [reflexivity|constructor].
    + intros H. apply PyFacts.pair_inj in H as [_ <-]. exists [].
      cbn [with_conn srv]. rewrite Es, app_nil_r. auto.
  - intros H. apply PyFacts.pair_inj in H as [_ <-]. exists [].
    rewrite Es, app_nil_r. auto.
Qed.

Lemma is_duplicate_srv (w w' : world) (repo issue : pyval)
  (r : result bool) :
  is_duplicate w repo issue = (r, w') -> srv w' = srv w.
Proof.
  unfold is_duplicate.
  destruct (negb (truthy repo && truthy issue)).
  - intros H. now apply PyFacts.pair_inj in H as [_ <-].
  - destruct (get_connection w) as [[[]|e] w1] eqn:Eg;
      apply PipelineFacts.get_connection_inv in Eg as (Es & _ & _).
    + destruct (up (srv w1) && bindable repo && bindable issue)%bool;
        intros H; now apply PyFacts.pair_inj in H as [_ <-].
    + intros H. now apply PyFacts.pair_inj in H as [_ <-].
Qed.

(** The loop leaves the stored rows in place; the rows it adds carry the
    repository identifier of the run.  This holds for every way the loop
    ends. *)
Lemma for_issues_appends (E : env) (repo : pyval) (issues : list dict) :
  forall num w r w',
    for_issues E repo num issues w = (r, w') ->
    exists extra,
      standardized_defect (srv w') = standardized_defect (srv w) ++ extra
      /\ Forall (row_of_repo repo) extra.
Proof.
  induction issues as [|issue rest IH]; intros num w r w' H.
  - simpl in H. apply PyFacts.pair_inj in H as [_ <-]. exists [].
    rewrite app_nil_r. auto.
  - cbn [for_issues] in H.
    destruct (is_duplicate w repo (get issue "issue_id"))
      as [[b|e] w1] eqn:Ed;
      apply is_duplicate_srv in Ed.
    2: { apply PyFacts.pair_inj in H as [_ <-]. exists [].
         rewrite Ed, app_nil_r. auto. }
    destruct b.
    + rewrite <- Ed. now apply (IH num w1 r w').
    + destruct (process_issue E issue) as [doc|e].
      2: { apply PyFacts.pair_inj in H as [_ <-]. exists [].
           rewrite Ed, app_nil_r. auto. }
      destruct (insert_one w1 (set doc "repo_id" repo))
        as [[g|e] w2] eqn:Ei;
        apply insert_one_appends_row in Ei as (x1 & E1 & F1);
        rewrite DictFacts.get_set_same in F1; rewrite Ed in E1.
      * assert (G : exists n, for_issues E repo n rest w2 = (r, w'))
          by (destruct g; eauto).
        destruct G as (n & G).
        apply IH in G as (x2 & E2 & F2).
        exists (x1 ++ x2). rewrite E2, E1, app_assoc.
        split; [reflexivity|]. now apply Forall_app.
      * apply PyFacts.pair_inj in H as [_ <-]. now exists x1.
Qed.

End MorePipelineFacts.

(** X19: on the Gitee branch [run_once] joins the token to a text before it
    fetches anything.  When the server answers and holds no active Gitee
    token, the run ends in [TypeError] and the stored data is as it was. *)
Theorem run_once_gitee_without_token (fuel : nat) (E : Pipeline.env)
  (s : Storage.server) (owner repo : string) (since until : option string)
  (state : string) (repo_id : Py.pyval) :
  Storage.up s = true ->
  Storage.active_token (Storage.token_config s) "gitee" = None ->
  exists w,
    Pipeline.run_once fuel E s owner repo since until (Py.PStr "gitee")
      state repo_id
    = Some (Py.Raise Py.TypeError, w)
    /\ Storage.srv w = s /\ Storage.log w = [].
Proof.
  intros Hup Ht. unfold Pipeline.run_once. cbv zeta.
  change (Pipeline.platform_of (Py.PStr "gitee")) with (Some Collect.Gitee).
  cbv iota. change (Pipeline.tag_of Collect.Gitee) with "gitee".
  unfold Storage.get_token, Storage.get_connection.
  cbn [Storage.conn Storage.srv Storage.with_conn Storage.log].
  rewrite Hup. cbn [Storage.srv Storage.with_conn]. rewrite Hup, Ht.
  eexists. split; [reflexivity|]. now split.
Qed.

Lemma run_once_gitee_without_token_witness :
  exists w,
    Pipeline.run_once 5 PipelineSpec.sample_env StorageSpec.fresh_server
      "itexp" "gogogo" None None (Py.PStr "gitee") "open" (Py.PStr "1123")
    = Some (Py.Raise Py.TypeError, w).
Proof.
  destruct (run_once_gitee_without_token 5 PipelineSpec.sample_env
              StorageSpec.fresh_server "itexp" "gogogo" None None "open"
              (Py.PStr "1123") eq_refl eq_refl) as (w & H & _).
  now exists w.
Defined.

(** X20: however a run of [run_once] ends, by a value or by an exception,
    the rows that were stored before are still there, unchanged and in
    place, and every row the run added carries the repository identifier
    the run was called with. *)
Theorem run_once_only_appends (fuel : nat) (E : Pipeline.env)
  (s : Storage.server) (owner repo : string) (since until : option string)
  (platform : Py.pyval) (state : string) (repo_id : Py.pyval)
  (r : Py.result Py.pyval) (w' : Storage.world) :
  Pipeline.run_once fuel E s owner repo since until platform state repo_id
  = Some (r, w') ->
  exists extra,
    Storage.standardized_defect (Storage.srv w')
    = Storage.standardized_defect s ++ extra
    /\ Forall (PipelineMore.row_of_repo repo_id) extra.
Proof.
  unfold Pipeline.run_once.
  set (client := {| Storage.srv := s; Storage.conn := Storage.NoConnection;
                    Storage.log := [] |}).
  assert (Stay : forall w1 : Storage.world,
             Storage.srv w1 = s ->
             exists extra,
               Storage.standardized_defect (Storage.srv w1)
               = Storage.standardized_defect s ++ extra
               /\ Forall (PipelineMore.row_of_repo repo_id) extra).
  { intros w1 ->. exists []. rewrite app_nil_r. auto. }
  destruct (Pipeline.platform_of platform) as [p|].
  2: { intros H. apply PyFacts.Some_inj in H.
       apply PyFacts.pair_inj in H as [_ <-]. now apply Stay. }
  destruct (Storage.get_token client (Pipeline.tag_of p))
    as [[token|e] w1] eqn:Et;
    apply PipelineFacts.get_token_inv in Et as (Es & _);
    cbn [Storage.srv client] in Es.
  2: { intros H. apply PyFacts.Some_inj in H.
       apply PyFacts.pair_inj in H as [_ <-]. now apply Stay. }
  intros H.
  assert (G : w' = w1
              \/ exists issues res,
                  Pipeline.for_issues E repo_id 0 issues w1 = (res, w')).
  { destruct p, token as [t|];
      try (apply PyFacts.Some_inj in H;
           apply PyFacts.pair_inj in H as [_ <-]; now left);
      match type of H with
      | match ?f with _ => _ end = _ =>
          destruct f as [[issues|e]|]; try discriminate H;
          try (apply PyFacts.Some_inj in H;
               apply PyFacts.pair_inj in H as [_ <-]; now left);
          destruct (Pipeline.for_issues E repo_id 0 issues w1)
            as [[n|e] w2] eqn:Ef;
          apply PyFacts.Some_inj in H;
          apply PyFacts.pair_inj in H as [_ <-];
          right; eauto
      end. }
  destruct G as [->|(issues & res & G)]; [now apply Stay|].
  apply MorePipelineFacts.for_issues_appends in G as (extra & E1 & F).
  exists extra. rewrite E1, Es. now split.
Qed.

Lemma run_once_only_appends_witness :
  exists extra,
    Storage.standardized_defect
      (Storage.srv
         (snd (match Pipeline.run_once 2 PipelineSpec.sample_env
                       StorageSpec.fresh_server "itexp" "gogogo" None None
                       (Py.PStr "github") "open" (Py.PStr "1123") with
               | Some x => x
               | None => (Py.Ok Py.PNone, StorageSpec.fresh_world)
               end)))
    = Storage.standardized_defect StorageSpec.fresh_server ++ extra
    /\ Forall (PipelineMore.row_of_repo (Py.PStr "1123")) extra.
Proof.
  eapply (run_once_only_appends 2 PipelineSpec.sample_env
            StorageSpec.fresh_server "itexp" "gogogo" None None
            (Py.PStr "github") "open" (Py.PStr "1123")).
  vm_compute. reflexivity.
Defined.

(** X21: the endpoint lets no exception of the run through.  When the run
    ends, the endpoint answers: with the success body and the value of the
    run when the run returned, with status 400 or 500 when it raised.  For
    a platform tag the run does not know, also a missing one, the answer is
    the success body with no update count. *)
Theorem collect_issue_answers (fuel : nat) (E : Pipeline.env)
  (s : Storage.server) (owner repo state : string) (platform : Py.pyval)
  (since until : option string) (repo_id : Py.pyval) :
  (forall r w,
      Pipeline.run_once fuel E s owner repo since until platform state
        repo_id = Some (r, w) ->
      exists a,
        Main.collect_issue fuel E s owner repo state platform since until
          repo_id = Some (a, w)
        /\ (forall n, r = Py.Ok n -> a = Main.Collected n)
        /\ (forall e, r = Py.Raise e ->
                      a = Main.HTTPException 400
                      \/ a = Main.HTTPException 500))
  /\ (Pipeline.platform_of platform = None ->
      exists w,
        Main.collect_issue fuel E s owner repo state platform since until
          repo_id = Some (Main.Collected Py.PNone, w)).
Proof.
  split.
  - intros r w H. unfold Main.collect_issue. rewrite H.
    destruct r as [n|e].
    + exists (Main.Collected n). split; [reflexivity|].
      split; [intros m X; f_equal; congruence|discriminate].
    + destruct (Main.is_ValueError e);
        [|destruct (Main.is_RuntimeError e)];
        (eexists; split; [reflexivity|]; split; [discriminate|]);
        intros e' _; auto.
  - intros Hp. unfold Main.collect_issue, Pipeline.run_once. rewrite Hp.
    now eexists.
Qed.

Lemma collect_issue_answers_witness :
  exists w,
    Main.collect_issue 0 PipelineSpec.sample_env StorageSpec.fresh_server
      "itexp" "gogogo" "open" Py.PNone None None (Py.PStr "1123")
    = Some (Main.Collected Py.PNone, w).
Proof.
  apply (proj2 (collect_issue_answers 0 PipelineSpec.sample_env
                  StorageSpec.fresh_server "itexp" "gogogo" "open"
                  Py.PNone None None (Py.PStr "1123"))).
  reflexivity.
Defined.

(** X22: the status codes of the endpoint for a known platform tag.  A
    server that does not answer gives 500.  On a server that answers, an
    empty owner or repo gives 400 when the platform has an active token,
    and the tag gitee gives 500 when it has none. *)
Theorem collect_issue_status_codes (fuel : nat) (E : Pipeline.env)
  (s : Storage.server) (owner repo state : string) (platform : Py.pyval)
  (since until : option string) (repo_id : Py.pyval)
  (p : Collect.platform) :
  Pipeline.platform_of platform = Some p ->
  (Storage.up s = false ->
   exists w,
     Main.collect_issue fuel E s owner repo state platform since until
       repo_id = Some (Main.HTTPException 500, w))
  /\ (forall t,
         Storage.up s = true ->
         Storage.active_token (Storage.token_config s) (Pipeline.tag_of p)
         = Some t ->
         Py.truthy (Py.PStr owner) = false
         \/ Py.truthy (Py.PStr repo) = false ->
         exists w,
           Main.collect_issue (S fuel) E s owner repo state platform since
             until repo_id = Some (Main.HTTPException 400, w))
  /\ (Storage.up s = true ->
      p = Collect.Gitee ->
      Storage.active_token (Storage.token_config s) "gitee" = None ->
      exists w,
        Main.collect_issue fuel E s owner repo state platform since until
          repo_id = Some (Main.HTTPException 500, w)).
Proof.
  intros Hp. split; [|split].
  - intros Hup. unfold Main.collect_issue, Pipeline.run_once.
    cbv zeta. rewrite Hp. unfold Storage.get_token, Storage.get_connection.
    cbn [Storage.conn Storage.srv Storage.with_conn Storage.log].
    rewrite Hup. now eexists.
  - intros t Hup Ht Hc. unfold Main.collect_issue, Pipeline.run_once.
    cbv zeta. rewrite Hp. unfold Storage.get_token, Storage.get_connection.
    cbn [Storage.conn Storage.srv Storage.with_conn Storage.log].
    rewrite Hup. cbn [Storage.srv Storage.with_conn]. rewrite Hup, Ht.
    assert (Hcfg : Collect.configured
                     {| Collect.owner := owner; Collect.repo := repo;
                        Collect.project_id := "" |} = false).
    { unfold Collect.configured. cbn [Collect.owner Collect.repo].
      destruct Hc as [-> | ->]; [reflexivity|apply andb_false_r]. }
    destruct p; cbn [Pipeline.fetch_recent];
      unfold Collect.github_fetch_recent, Collect.gitee_fetch_recent,
        Collect.gitlab_fetch_recent, Collect.gitlab_configured;
      rewrite Hcfg; cbn; now eexists.
  - intros Hup -> Ht. unfold Main.collect_issue, Pipeline.run_once.
    cbv zeta. rewrite Hp. unfold Storage.get_token, Storage.get_connection.
    cbn [Storage.conn Storage.srv Storage.with_conn Storage.log].
    rewrite Hup. cbn [Storage.srv Storage.with_conn Pipeline.tag_of].
    rewrite Hup, Ht. now eexists.
Qed.

Lemma collect_issue_status_codes_witness :
  exists w,
    Main.collect_issue 0 PipelineSpec.sample_env StorageInv.down_server
      "itexp" "gogogo" "open" (Py.PStr "gitlab") None None (Py.PStr "1123")
    = Some (Main.HTTPException 500, w).
Proof.
  apply (proj1 (collect_issue_status_codes 0 PipelineSpec.sample_env
                  StorageInv.down_server "itexp" "gogogo" "open"
                  (Py.PStr "gitlab") None None (Py.PStr "1123")
                  Collect.GitLab eq_refl)).
  reflexivity.
Defined.

(* ================================================================= *)
(** ** RuleExtractor: steps under a heading *)

Module HeadingFacts.
Import Text Rules RulesSpec CleanSpec.

(** *** Matching without regard to case *)

Lemma prefix_ci_same_letters (pat pat' : list ascii) :
  map to_lower pat = map to_lower pat' ->
  forall l, prefix_ci pat l = prefix_ci pat' l.
Proof.
  revert pat'. induction pat as [|p pat IH]; intros [|p' pat'] H l;
    try discriminate H; [reflexivity|].
  simpl in H. injection H as Hp Hr.
  destruct l as [|c l]; [reflexivity|]. simpl.
  now rewrite Hp, (IH pat' Hr).
Qed.

Lemma contains_ci_same_letters (pat pat' : list ascii) :
  map to_lower pat = map to_lower pat' ->
  forall l, contains_ci pat l = contains_ci pat' l.
Proof.
  intros H l. induction l as [|c l IH]; simpl;
    rewrite (prefix_ci_same_letters pat pat' H); [reflexivity|].
  now rewrite IH.
Qed.

Lemma prefix_ci_app_r (pat l m : list ascii) :
  prefix_ci pat l = true -> prefix_ci pat (l ++ m) = true.
Proof.
  revert l. induction pat as [|p pat IH]; intros [|c l] H; simpl in *;
    try reflexivity; try discriminate H.
  apply andb_true_iff in H as [-> H]. now apply IH.
Qed.

Lemma contains_ci_app_r (pat l m : list ascii) :
  contains_ci pat l = true -> contains_ci pat (l ++ m) = true.
Proof.
  induction l as [|c l IH]; intros H.
  - simpl in H. rewrite orb_false_r in H.
    destruct pat; [|discriminate H].
    destruct m; reflexivity.
  - cbn [contains_ci app] in *. apply orb_true_iff in H as [H|H].
    + change (c :: l ++ m) with ((c :: l) ++ m).
      now rewrite (prefix_ci_app_r _ _ m H).
    + rewrite (IH H). apply orb_true_r.
Qed.

Lemma contains_ci_app_l (pat l m : list ascii) :
  contains_ci pat m = true -> contains_ci pat (l ++ m) = true.
Proof.
  intros H. induction l as [|c l IH]; [exact H|].
  cbn [contains_ci app]. rewrite IH. apply orb_true_r.
Qed.

Lemma contains_ci_infix (pat a m b : list ascii) :
  contains_ci pat m = true -> contains_ci pat (a ++ m ++ b) = true.
Proof.
  intros H. now apply contains_ci_app_l, contains_ci_app_r.
Qed.

Lemma prefix_ci_cut (a b l : list ascii) :
  prefix_ci (a ++ b) l = true ->
  prefix_ci b (skipn (List.length a) l) = true.
Proof.
  revert l. induction a as [|p a IH]; intros l H; [exact H|].
  destruct l as [|c l]; [discriminate H|]. simpl in H.
  apply andb_true_iff in H as [_ H]. now apply IH.
Qed.

Lemma prefix_ci_front (a b l : list ascii) :
  prefix_ci (a ++ b) l = true -> prefix_ci a l = true.
Proof.
  revert l. induction a as [|p a IH]; intros l H; [now destruct l|].
  destruct l as [|c l]; [discriminate H|]. simpl in *.
  apply andb_true_iff in H as [-> H]. now apply IH.
Qed.

Lemma contains_ci_at (pat l : list ascii) :
  prefix_ci pat l = true -> contains_ci pat l = true.
Proof. intros H. destruct l; simpl; now rewrite H. Qed.

Lemma contains_ci_skipn (pat : list ascii) (n : nat) (l : list ascii) :
  contains_ci pat (skipn n l) = true -> contains_ci pat l = true.
Proof.
  intros H. rewrite <- (firstn_skipn n l). now apply contains_ci_app_l.
Qed.

(** A text that holds the longer pattern holds each part of it. *)
Lemma contains_ci_part (a b c l : list ascii) :
  contains_ci (a ++ b ++ c) l = true -> contains_ci b l = true.
Proof.
  induction l as [|x l IH]; intros H.
  - simpl in H. rewrite orb_false_r in H.
    apply prefix_ci_cut in H. apply prefix_ci_front in H.
    apply (contains_ci_skipn b (List.length a)). now apply contains_ci_at.
  - cbn [contains_ci] in H. apply orb_true_iff in H as [H|H].
    + apply prefix_ci_cut in H. apply prefix_ci_front in H.
      apply (contains_ci_skipn b (List.length a)). now apply contains_ci_at.
    + cbn [contains_ci]. rewrite (IH H). apply orb_true_r.
Qed.

(** The three alternatives of the heading pattern come to one. *)
Lemma has_heading_reproduc (p : list ascii) :
  has_heading p = mentions_reproduce p.
Proof.
  unfold has_heading, mentions_reproduce.
  destruct (contains_ci (chars "Reproduc") p) eqn:E;
    [now rewrite orb_true_r|].
  assert (A : contains_ci (chars "Steps to Reproduce") p = false).
  { destruct (contains_ci (chars "Steps to Reproduce") p) eqn:A;
      [|reflexivity].
    apply (contains_ci_part (chars "Steps to ") (chars "Reproduc")
             (chars "e")) in A. congruence. }
  assert (B : contains_ci (chars "How to reproduce") p = false).
  { destruct (contains_ci (chars "How to reproduce") p) eqn:B;
      [|reflexivity].
    apply (contains_ci_part (chars "How to ") (chars "reproduc")
             (chars "e")) in B.
    rewrite (contains_ci_same_letters (chars "reproduc")
               (chars "Reproduc") eq_refl) in B. congruence. }
  now rewrite A, B.
Qed.

(** *** Characters the pattern cannot match *)

Lemma prefix_ci_before (pat x : list ascii) (c : ascii) (y : list ascii) :
  hits pat c = false ->
  prefix_ci pat (x ++ c :: y) = true -> prefix_ci pat x = true.
Proof.
  intros Hc. revert x.
  induction pat as [|p pat IH]; intros x H; [now destruct x|].
  simpl in Hc. apply orb_false_iff in Hc as [Hp Hc].
  destruct x as [|a x]; simpl in H.
  - rewrite Hp in H. discriminate H.
  - simpl. apply andb_true_iff in H as [-> H]. now apply IH.
Qed.

Lemma contains_ci_around (pat x : list ascii) (c : ascii) (y : list ascii) :
  hits pat c = false ->
  contains_ci pat (x ++ c :: y) = true ->
  contains_ci pat x = true \/ contains_ci pat y = true.
Proof.
  intros Hc. induction x as [|a x IH]; intros H.
  - cbn [app contains_ci] in H. apply orb_true_iff in H as [H|H];
      [|now right].
    left. apply contains_ci_at. now apply (prefix_ci_before pat [] c y).
  - cbn [app contains_ci] in H. apply orb_true_iff in H as [H|H].
    + left. apply contains_ci_at.
      now apply (prefix_ci_before pat (a :: x) c y).
    + destruct (IH H) as [G|G]; [left|now right].
      cbn [contains_ci]. rewrite G. apply orb_true_r.
Qed.

Lemma contains_ci_drop_while (pat : list ascii) (q : ascii -> bool)
  (l : list ascii) :
  contains_ci pat [] = false ->
  (forall c, q c = true -> hits pat c = false) ->
  contains_ci pat l = true -> contains_ci pat (drop_while q l) = true.
Proof.
  intros He Hq. induction l as [|c l IH]; intros H; [exact H|].
  simpl. destruct (q c) eqn:Ec; [|exact H].
  apply IH. destruct (contains_ci_around pat [] c l (Hq c Ec) H) as [G|G];
    [congruence|exact G].
Qed.

Lemma contains_ci_drop_end (pat : list ascii) (q : ascii -> bool)
  (m : list ascii) :
  contains_ci pat [] = false ->
  (forall c, q c = true -> hits pat c = false) ->
  contains_ci pat (rev m) = true ->
  contains_ci pat (rev (drop_while q m)) = true.
Proof.
  intros He Hq. induction m as [|c m IH]; intros H; [exact H|].
  simpl. destruct (q c) eqn:Ec; [|exact H].
  apply IH. simpl in H.
  destruct (contains_ci_around pat (rev m) c [] (Hq c Ec) H) as [G|G];
    [exact G|congruence].
Qed.

(** Trimming a class of such characters at both ends keeps the match. *)
Lemma contains_ci_trim (pat : list ascii) (q : ascii -> bool)
  (l : list ascii) :
  contains_ci pat [] = false ->
  (forall c, q c = true -> hits pat c = false) ->
  contains_ci pat l = true ->
  contains_ci pat (rev (drop_while q (rev (drop_while q l)))) = true.
Proof.
  intros He Hq H. apply contains_ci_drop_end; [assumption..|].
  rewrite rev_involutive. now apply contains_ci_drop_while.
Qed.

Lemma linebreak_no_hit (c : ascii) :
  is_linebreak c = true -> hits (chars "Reproduc") c = false.
Proof. destruct c as [[] [] [] [] [] [] [] []]; vm_compute; congruence. Qed.

Lemma space_no_hit (c : ascii) :
  is_space c = true -> hits (chars "Reproduc") c = false.
Proof. destruct c as [[] [] [] [] [] [] [] []]; vm_compute; congruence. Qed.

Lemma bullet_no_hit (c : ascii) :
  is_bullet c = true -> hits (chars "Reproduc") c = false.
Proof. destruct c as [[] [] [] [] [] [] [] []]; vm_compute; congruence. Qed.

Lemma linefeed_no_hit (c : ascii) :
  N.eqb (code c) 10 = true -> hits (chars "Reproduc") c = false.
Proof. destruct c as [[] [] [] [] [] [] [] []]; vm_compute; congruence. Qed.

(** *** Paragraphs *)

(** Every paragraph is a part of the text. *)
Lemma split_paragraphs_infix (l : list ascii) :
  forall cur in_run p,
    (in_run = true -> cur = []) ->
    In p (split_paragraphs cur in_run l) ->
    exists a b, (rev cur ++ l = a ++ p ++ b)%list.
Proof.
  induction l as [|c r IH]; intros cur in_run p Inv H.
  - simpl in H. destruct H as [<-|[]]. exists [], [].
    now rewrite !app_nil_r.
  - assert (Keep : In p (split_paragraphs (c :: cur) false r) ->
                   exists a b, (rev cur ++ c :: r = a ++ p ++ b)%list).
    { intros G. apply IH in G as (a & b & G); [|discriminate].
      exists a, b. rewrite <- G. simpl. now rewrite <- app_assoc. }
    cbn [split_paragraphs] in H.
    destruct (N.eqb (code c) 10); [|now apply Keep].
    destruct in_run.
    + rewrite (Inv eq_refl) in *. apply IH in H as (a & b & G);
        [|reflexivity].
      exists (c :: a), b. simpl in *. now rewrite G.
    + destruct r as [|d r']; [now apply Keep|].
      destruct (N.eqb (code d) 10); [|now apply Keep].
      destruct H as [<-|H].
      * exists [], (c :: d :: r'). reflexivity.
      * apply IH in H as (a & b & G); [|reflexivity].
        exists (rev cur ++ c :: a), b. simpl in G. rewrite G.
        now rewrite <- app_assoc.
Qed.

Lemma split_paragraphs_holds (l : list ascii) :
  forall cur in_run,
    (in_run = true -> cur = []) ->
    mentions_reproduce (rev cur ++ l) = true ->
    exists p, In p (split_paragraphs cur in_run l)
              /\ mentions_reproduce p = true.
Proof.
  unfold mentions_reproduce.
  induction l as [|c r IH]; intros cur in_run Inv H.
  - rewrite app_nil_r in H. exists (rev cur). split; [now left|exact H].
  - assert (Keep : exists p, In p (split_paragraphs (c :: cur) false r)
                             /\ contains_ci (chars "Reproduc") p = true).
    { apply IH; [discriminate|]. simpl. now rewrite <- app_assoc. }
    cbn [split_paragraphs].
    destruct (N.eqb (code c) 10) eqn:Ec; [|exact Keep].
    apply linefeed_no_hit in Ec.
    destruct in_run.
    + rewrite (Inv eq_refl) in *.
      destruct (contains_ci_around _ _ _ _ Ec H) as [G|G];
        [discriminate G|].
      now apply IH.
    + destruct r as [|d r']; [exact Keep|].
      destruct (N.eqb (code d) 10); [|exact Keep].
      destruct (contains_ci_around _ _ _ _ Ec H) as [G|G].
      * exists (rev cur). split; [now left|exact G].
      * destruct (IH [] true (fun _ => eq_refl) G) as (p & Hp & Gp).
        exists p. split; [now right|exact Gp].
Qed.

(** *** Lines *)

Lemma splitlines_from_holds (n : nat) :
  forall l cur,
    List.length l <= n ->
    mentions_reproduce (rev cur ++ l) = true ->
    exists ln, In ln (splitlines_from cur l)
               /\ mentions_reproduce ln = true.
Proof.
  unfold mentions_reproduce.
  induction n as [|n IH]; intros l cur Hn H.
  - destruct l as [|c r]; [|simpl in Hn; lia].
    rewrite app_nil_r in H. simpl.
    destruct cur as [|x cur]; [discriminate H|].
    exists (rev (x :: cur)). split; [now left|exact H].
  - destruct l as [|c r].
    + rewrite app_nil_r in H. simpl.
      destruct cur as [|x cur]; [discriminate H|].
      exists (rev (x :: cur)). split; [now left|exact H].
    + simpl in Hn. cbn [splitlines_from].
      destruct (is_linebreak c) eqn:Ec.
      * apply linebreak_no_hit in Ec.
        destruct (contains_ci_around _ _ _ _ Ec H) as [G|G].
        { exists (rev cur).
          destruct r as [|d r'];
            [|destruct (N.eqb (code c) 13 && N.eqb (code d) 10)%bool];
            (split; [now left|exact G]). }
        destruct r as [|d r']; [discriminate G|].
        destruct (N.eqb (code c) 13 && N.eqb (code d) 10)%bool eqn:Ed.
        -- apply andb_true_iff in Ed as [_ Ed].
           apply linefeed_no_hit in Ed.
           destruct (contains_ci_around _ [] _ _ Ed G) as [G'|G'];
             [discriminate G'|].
           destruct (IH r' [] ltac:(simpl in Hn; lia) G') as (ln & Hl & Gl).
           exists ln. split; [now right|exact Gl].
        -- destruct (IH (d :: r') [] ltac:(simpl in *; lia) G)
             as (ln & Hl & Gl).
           exists ln. split; [now right|exact Gl].
      * apply (IH r (c :: cur)); [lia|]. simpl. now rewrite <- app_assoc.
Qed.

Lemma strip_bullets_chars (s : string) :
  chars (strip_bullets s)
  = rev (drop_while is_bullet (rev (drop_while is_bullet (chars s)))).
Proof. unfold strip_bullets. apply CleanFacts.chars_text. Qed.

Lemma nonblank_heading (ln : list ascii) :
  mentions_reproduce ln = true -> nonblank (text ln) = true.
Proof.
  intros H. unfold nonblank, strip. rewrite CleanFacts.chars_text.
  apply (contains_ci_trim _ is_space) in H;
    [|reflexivity|exact space_no_hit].
  fold (strip_chars ln) in H.
  destruct (strip_chars ln); [discriminate H|reflexivity].
Qed.

(** The lines taken from a paragraph with the heading hold the heading. *)
Lemma paragraph_steps_hold (p : list ascii) :
  mentions_reproduce p = true ->
  exists step,
    In step (map strip_bullets (filter nonblank (splitlines (text p))))
    /\ mentions_reproduce (chars step) = true.
Proof.
  intros H. unfold splitlines. rewrite CleanFacts.chars_text.
  destruct (splitlines_from_holds (List.length p) p [] (le_n _) H)
    as (ln & Hl & Gl).
  exists (strip_bullets (text ln)). split.
  - apply in_map, filter_In. split; [now apply in_map|].
    now apply nonblank_heading.
  - rewrite strip_bullets_chars, CleanFacts.chars_text.
    apply contains_ci_trim; [reflexivity|exact bullet_no_hit|exact Gl].
Qed.

Lemma first_heading_none (parts : list (list ascii)) :
  (forall p, In p parts -> mentions_reproduce p = false) ->
  first_heading parts = [].
Proof.
  induction parts as [|p rest IH]; intros H; [reflexivity|].
  simpl. rewrite has_heading_reproduc, (H p (or_introl eq_refl)).
  apply IH. intros q Hq. apply H. now right.
Qed.

Lemma first_heading_some (parts : list (list ascii)) :
  (exists p, In p parts /\ mentions_reproduce p = true) ->
  exists p0, In p0 parts /\ mentions_reproduce p0 = true
             /\ first_heading parts
                = map strip_bullets
                    (filter nonblank (splitlines (text p0))).
Proof.
  induction parts as [|p rest IH]; intros (q & Hq & Gq); [destruct Hq|].
  simpl. rewrite has_heading_reproduc.
  destruct (mentions_reproduce p) eqn:Ep.
  - exists p. split; [now left|]. now split.
  - destruct Hq as [<-|Hq]; [congruence|].
    destruct (IH (ex_intro _ q (conj Hq Gq))) as (p0 & H0 & G0 & E0).
    exists p0. split; [now right|]. now split.
Qed.

Lemma strip_bullets_edges (s : string) :
  starts_off is_bullet (chars (strip_bullets s)) = true
  /\ starts_off is_bullet (rev (chars (strip_bullets s))) = true.
Proof.
  rewrite strip_bullets_chars. split.
  - apply CleanFacts.starts_off_rev_drop, CleanFacts.drop_while_starts_off.
  - rewrite rev_involutive. apply CleanFacts.drop_while_starts_off.
Qed.

Lemma first_heading_edges (parts : list (list ascii)) (step : string) :
  In step (first_heading parts) ->
  exists ln, step = strip_bullets ln /\ nonblank ln = true.
Proof.
  induction parts as [|p rest IH]; intros H; [destruct H|].
  simpl in H. destruct (has_heading p); [|now apply IH].
  apply in_map_iff in H as (ln & <- & H). apply filter_In in H as [_ H].
  now exists ln.
Qed.

End HeadingFacts.

(** X23: [extract_steps_by_heading] returns the empty list exactly when
    the text nowhere holds [Reproduc] in any mix of upper and lower case;
    the other two alternatives of its pattern add nothing. *)
Theorem extract_steps_empty_iff (s : string) :
  Rules.extract_steps_by_heading s = []
  <-> RulesSpec.mentions_reproduce (Text.chars s) = false.
Proof.
  unfold Rules.extract_steps_by_heading. split.
  - intros H.
    destruct (RulesSpec.mentions_reproduce (Text.chars s)) eqn:E;
      [|reflexivity].
    destruct (HeadingFacts.split_paragraphs_holds (Text.chars s) [] false
                ltac:(discriminate) E) as (p & Hp & Gp).
    destruct (HeadingFacts.first_heading_some _
                (ex_intro _ p (conj Hp Gp))) as (p0 & _ & G0 & E0).
    destruct (HeadingFacts.paragraph_steps_hold p0 G0) as (step & Hs & _).
    rewrite <- E0, H in Hs. destruct Hs.
  - intros H. apply HeadingFacts.first_heading_none. intros p Hp.
    apply HeadingFacts.split_paragraphs_infix in Hp as (a & b & Hp);
      [|discriminate].
    simpl in Hp.
    destruct (RulesSpec.mentions_reproduce p) eqn:E; [|reflexivity].
    apply (HeadingFacts.contains_ci_infix _ a p b) in E.
    unfold RulesSpec.mentions_reproduce in H. rewrite Hp in H. congruence.
Qed.

Lemma extract_steps_empty_iff_witness :
  Rules.extract_steps_by_heading "It crashes on start" = [].
Proof.
  apply (proj2 (extract_steps_empty_iff "It crashes on start")).
  reflexivity.
Defined.

(** X24: no step [extract_steps_by_heading] returns starts or ends with a
    hyphen, a full stop, a blank or a tab, and each step is a line that was
    not blank, stripped of these characters at both ends.  A step can be
    the empty text. *)
Theorem extract_steps_are_stripped (s step : string) :
  In step (Rules.extract_steps_by_heading s) ->
  CleanSpec.starts_off Rules.is_bullet (Text.chars step) = true
  /\ CleanSpec.starts_off Rules.is_bullet (rev (Text.chars step)) = true
  /\ exists ln, step = Rules.strip_bullets ln /\ Rules.nonblank ln = true.
Proof.
  intros H. apply HeadingFacts.first_heading_edges in H as (ln & -> & H).
  destruct (HeadingFacts.strip_bullets_edges ln) as [A B].
  split; [exact A|]. split; [exact B|]. now exists ln.
Qed.

Lemma extract_steps_are_stripped_witness :
  CleanSpec.starts_off Rules.is_bullet (Text.chars "") = true
  /\ In "" (Rules.extract_steps_by_heading RulesSpec.sample_report).
Proof.
  assert (H : In "" (Rules.extract_steps_by_heading RulesSpec.sample_report))
    by (vm_compute; right; left; reflexivity).
  split; [|exact H].
  exact (proj1 (extract_steps_are_stripped RulesSpec.sample_report "" H)).
Defined.

(** X25: when [extract_steps_by_heading] returns steps, the line with the
    heading is one of them: some returned step holds [Reproduc]. *)
Theorem extract_steps_include_heading (s : string) :
  Rules.extract_steps_by_heading s <> [] ->
  exists step,
    In step (Rules.extract_steps_by_heading s)
    /\ RulesSpec.mentions_reproduce (Text.chars step) = true.
Proof.
  intros H. unfold Rules.extract_steps_by_heading in *.
  destruct (RulesSpec.mentions_reproduce (Text.chars s)) eqn:E.
  - destruct (HeadingFacts.split_paragraphs_holds (Text.chars s) [] false
                ltac:(discriminate) E) as (p & Hp & Gp).
    destruct (HeadingFacts.first_heading_some _
                (ex_intro _ p (conj Hp Gp))) as (p0 & _ & G0 & E0).
    rewrite E0. now apply HeadingFacts.paragraph_steps_hold.
  - exfalso. apply H. apply HeadingFacts.first_heading_none. intros p Hp.
    apply HeadingFacts.split_paragraphs_infix in Hp as (a & b & Hp);
      [|discriminate].
    simpl in Hp.
    destruct (RulesSpec.mentions_reproduce p) eqn:G; [|reflexivity].
    apply (HeadingFacts.contains_ci_infix _ a p b) in G.
    unfold RulesSpec.mentions_reproduce in E. rewrite Hp in E. congruence.
Qed.

Lemma extract_steps_include_heading_witness :
  exists step,
    In step (Rules.extract_steps_by_heading RulesSpec.sample_numbered)
    /\ RulesSpec.mentions_reproduce (Text.chars step) = true.
Proof.
  apply (extract_steps_include_heading RulesSpec.sample_numbered).
  vm_compute. discriminate.
Defined.
